(** * stock_price_candlestick_chart: a shallow embedding of [main.py]

    The Flask application of [src/main.py] is embedded as Rocq functions:
    Python strings are lists of Unicode code points, the request handlers
    are computations in a small state-and-exception monad over the
    application's world (the [search_records] table, the flashed messages,
    the replies sent through the messaging API and the log), and the
    library calls the handlers rely on ([datetime.strptime], [date]
    arithmetic, [Series.rolling(..).mean()], the webhook handler of the
    messaging SDK) are embedded from the libraries' own sources. *)

From Stdlib Require Import ZArith NArith List String Ascii Bool Lia QArith
  DecimalString Floats.
Import ListNotations.

(** ** Python strings *)

Module PyStr.

(** A Python [str] is a sequence of Unicode code points. *)
Definition char := N.
Definition str := list char.

Definition ord (a : ascii) : char := N_of_ascii a.

(** An ASCII literal of the source, as a [str]. *)
Definition lit (s : string) : str := map ord (list_ascii_of_string s).

Definition char_eqb (a b : char) : bool := N.eqb a b.

Fixpoint str_eqb (a b : str) : bool :=
  match a, b with
  | [], [] => true
  | x :: a', y :: b' => char_eqb x y && str_eqb a' b'
  | _, _ => false
  end.

(** [s.startswith(p)] *)
Fixpoint startswith (s p : str) {struct p} : bool :=
  match p, s with
  | [], _ => true
  | c :: p', d :: s' => char_eqb d c && startswith s' p'
  | _ :: _, [] => false
  end.

(** [sub in s]: the substring search of [str.__contains__], scanning the
    start positions of [s] from left to right. *)
Fixpoint contains (sub s : str) : bool :=
  startswith s sub ||
  match s with
  | [] => false
  | _ :: s' => contains sub s'
  end.

End PyStr.

Import PyStr.

(** ** The ticker-format check of [home] (line 74)

    [if '.TW' in searched_ticker or '.TWO' in searched_ticker:] *)

Definition is_valid_ticker_suffix (searched_ticker : str) : bool :=
  contains (lit ".TW") searched_ticker || contains (lit ".TWO") searched_ticker.

(** ** Exceptions

    The exception classes that occur in [main.py] and in the library code
    it calls.  A call either returns a value or raises. *)

Inductive exn : Type :=
| ValueError
| TypeError
| KeyError
| OverflowError
| IndexError
| IntegrityError
| InvalidSignatureError
| HTTPException (code : Z)
| ProviderError
| ApiException.

Inductive outcome (A : Type) : Type :=
| Returned (a : A)
| Raised (e : exn).

Arguments Returned {A} a.
Arguments Raised {A} e.

Definition obind {A B : Type} (m : outcome A) (f : A -> outcome B) : outcome B :=
  match m with
  | Returned a => f a
  | Raised e => Raised e
  end.

Notation "'let*' x ':=' m 'in' k" := (obind m (fun x => k))
  (at level 10, x pattern, m at level 100, k at level 200).

(** ** The Unicode character database

    [re]'s [\d], [int()] and [str.strip()] consult the interpreter's
    Unicode tables, which are not part of the repository: they are taken
    as a parameter.  [decimal_value c] is the value of [c] when [c] is a
    decimal digit (category Nd); [is_whitespace c] is [str.isspace]. *)

Record unicode_db : Type := {
  decimal_value : char -> option Z;
  is_whitespace : char -> bool
}.

(** What the properties below need of the tables: the ASCII digits are
    decimal digits with their usual values, the space is white space, and
    no decimal digit is white space. *)
Record unicode_db_ok (U : unicode_db) : Prop := {
  udb_ascii_digit :
    forall c, (48 <= c <= 57)%N -> decimal_value U c = Some (Z.of_N c - 48)%Z;
  udb_space : is_whitespace U 32%N = true;
  udb_decimal_not_space :
    forall c v, decimal_value U c = Some v -> is_whitespace U c = false
}.

(** The tables restricted to ASCII. *)
Definition ascii_db : unicode_db := {|
  decimal_value := fun c =>
    if ((48 <=? c) && (c <=? 57))%N then Some (Z.of_N c - 48)%Z else None;
  is_whitespace := fun c =>
    (((9 <=? c) && (c <=? 13)) || ((28 <=? c) && (c <=? 32)))%N
|}.

(** ** [int(s)] on a string of decimal digits

    [int] strips surrounding white space and reads the decimal digits; any
    other character raises [ValueError].  (Signs and underscores, which the
    callers here never pass, are not modelled.) *)

Fixpoint lstrip (U : unicode_db) (s : str) : str :=
  match s with
  | [] => []
  | c :: s' => if is_whitespace U c then lstrip U s' else s
  end.

Definition strip (U : unicode_db) (s : str) : str :=
  rev (lstrip U (rev (lstrip U s))).

Fixpoint digits_value (U : unicode_db) (s : str) (acc : Z) : outcome Z :=
  match s with
  | [] => Returned acc
  | c :: s' =>
      match decimal_value U c with
      | Some v => digits_value U s' (10 * acc + v)%Z
      | None => Raised ValueError
      end
  end.

Definition py_int (U : unicode_db) (s : str) : outcome Z :=
  match strip U s with
  | [] => Raised ValueError
  | t => digits_value U t 0
  end.

(** ** Regular expressions ([re]), the fragment [_strptime] builds

    [rmatch] is the backtracking matcher: alternatives are tried from left
    to right, and a later alternative is tried when the rest of the pattern
    (the continuation [k]) fails after an earlier one.  A named group
    records the text it matched. *)

Inductive regex : Type :=
| REps
| RChar (c : char)
| RRange (lo hi : char)
| RDigit
| RSeq (r1 r2 : regex)
| RAlt (r1 r2 : regex)
| RGroup (name : string) (r : regex).

Definition groups := list (string * str).

Definition in_range (lo hi x : char) : bool := ((lo <=? x) && (x <=? hi))%N.

Fixpoint rmatch {R : Type} (U : unicode_db) (r : regex) (s : str) (g : groups)
    (k : str -> groups -> option R) : option R :=
  match r with
  | REps => k s g
  | RChar c =>
      match s with
      | x :: s' => if char_eqb x c then k s' g else None
      | [] => None
      end
  | RRange lo hi =>
      match s with
      | x :: s' => if in_range lo hi x then k s' g else None
      | [] => None
      end
  | RDigit =>
      match s with
      | x :: s' =>
          match decimal_value U x with Some _ => k s' g | None => None end
      | [] => None
      end
  | RSeq r1 r2 => rmatch U r1 s g (fun s1 g1 => rmatch U r2 s1 g1 k)
  | RAlt r1 r2 =>
      match rmatch U r1 s g k with
      | Some x => Some x
      | None => rmatch U r2 s g k
      end
  | RGroup name r1 =>
      rmatch U r1 s g
        (fun s1 g1 => k s1 ((name, firstn (List.length s - List.length s1) s) :: g1))
  end.

(** [regex.match(s)]: the first match at the start of [s], as the position
    where it ends ([found.end()]) and the named groups in pattern order
    ([found.groupdict()]). *)
Definition re_match (U : unicode_db) (r : regex) (s : str) : option (nat * groups) :=
  rmatch U r s [] (fun rest g => Some ((List.length s - List.length rest)%nat, rev g)).

(** ** [datetime]: the proleptic Gregorian calendar ([datetime.py]) *)

Module Calendar.

Definition MINYEAR : Z := 1.
Definition MAXYEAR : Z := 9999.

(** [-1] is a placeholder for indexing purposes. *)
Definition _DAYS_IN_MONTH : list Z :=
  [-1; 31; 28; 31; 30; 31; 30; 31; 31; 30; 31; 30; 31]%Z.

(** [_DAYS_BEFORE_MONTH]: the running sums of [_DAYS_IN_MONTH[1:]]. *)
Definition _DAYS_BEFORE_MONTH : list Z :=
  (-1)%Z ::
  rev (snd (fold_left
              (fun (st : Z * list Z) (dim : Z) =>
                 let (dbm, acc) := st in ((dbm + dim)%Z, dbm :: acc))
              (tl _DAYS_IN_MONTH) (0%Z, []))).

(** [l[i]] for an index the callers keep in range. *)
Definition getitem (l : list Z) (i : Z) : Z := nth (Z.to_nat i) l 0%Z.

Definition int_of_bool (b : bool) : Z := if b then 1%Z else 0%Z.

Definition _is_leap (year : Z) : bool :=
  ((year mod 4 =? 0) && (negb (year mod 100 =? 0) || (year mod 400 =? 0)))%Z.

Definition _days_before_year (year : Z) : Z :=
  let y := (year - 1)%Z in
  (y * 365 + y / 4 - y / 100 + y / 400)%Z.

Definition _days_in_month (year month : Z) : Z :=
  if ((month =? 2)%Z && _is_leap year)%bool then 29%Z
  else getitem _DAYS_IN_MONTH month.

Definition _days_before_month (year month : Z) : Z :=
  (getitem _DAYS_BEFORE_MONTH month
   + int_of_bool ((2 <? month)%Z && _is_leap year))%Z.

Definition _ymd2ord (year month day : Z) : Z :=
  (_days_before_year year + _days_before_month year month + day)%Z.

Definition _DI400Y : Z := _days_before_year 401.
Definition _DI100Y : Z := _days_before_year 101.
Definition _DI4Y : Z := _days_before_year 5.

Definition _ord2ymd (n : Z) : Z * Z * Z :=
  let n := (n - 1)%Z in
  let n400 := (n / _DI400Y)%Z in
  let n := (n mod _DI400Y)%Z in
  let year := (n400 * 400 + 1)%Z in
  let n100 := (n / _DI100Y)%Z in
  let n := (n mod _DI100Y)%Z in
  let n4 := (n / _DI4Y)%Z in
  let n := (n mod _DI4Y)%Z in
  let n1 := (n / 365)%Z in
  let n := (n mod 365)%Z in
  let year := (year + (n100 * 100 + n4 * 4 + n1))%Z in
  if ((n1 =? 4) || (n100 =? 4))%Z then ((year - 1)%Z, 12%Z, 31%Z)
  else
    let leapyear := ((n1 =? 3)%Z && (negb (n4 =? 24)%Z || (n100 =? 3)%Z))%bool in
    let month := Z.shiftr (n + 50) 5 in
    let preceding :=
      (getitem _DAYS_BEFORE_MONTH month
       + int_of_bool ((2 <? month)%Z && leapyear))%Z in
    if (n <? preceding)%Z then
      let month := (month - 1)%Z in
      let preceding :=
        (preceding
         - (getitem _DAYS_IN_MONTH month
            + int_of_bool ((month =? 2)%Z && leapyear)))%Z in
      (year, month, (n - preceding + 1)%Z)
    else (year, month, (n - preceding + 1)%Z).

(** [_check_date_fields] *)
Definition _check_date_fields (year month day : Z) : outcome (Z * Z * Z) :=
  if negb ((MINYEAR <=? year) && (year <=? MAXYEAR))%Z then Raised ValueError
  else if negb ((1 <=? month) && (month <=? 12))%Z then Raised ValueError
  else
    let dim := _days_in_month year month in
    if negb ((1 <=? day) && (day <=? dim))%Z then Raised ValueError
    else Returned (year, month, day).

(** [_check_time_fields] (with [fold] left at its default) *)
Definition _check_time_fields (hour minute second microsecond : Z)
  : outcome (Z * Z * Z * Z) :=
  if negb ((0 <=? hour) && (hour <=? 23))%Z then Raised ValueError
  else if negb ((0 <=? minute) && (minute <=? 59))%Z then Raised ValueError
  else if negb ((0 <=? second) && (second <=? 59))%Z then Raised ValueError
  else if negb ((0 <=? microsecond) && (microsecond <=? 999999))%Z
       then Raised ValueError
  else Returned (hour, minute, second, microsecond).

(** *** [class date] *)

Record date : Type := { dyear : Z; dmonth : Z; dday : Z }.

Definition date_new (year month day : Z) : outcome date :=
  let* (y, m, d) := _check_date_fields year month day in
  Returned {| dyear := y; dmonth := m; dday := d |}.

Definition toordinal (d : date) : Z := _ymd2ord (dyear d) (dmonth d) (dday d).

Definition fromordinal (n : Z) : outcome date :=
  let '(y, m, d) := _ord2ymd n in date_new y m d.

Definition _MAXORDINAL : Z := 3652059.

(** [date.__add__] with a [timedelta] of [days] days *)
Definition date_add (self : date) (days : Z) : outcome date :=
  let o := (toordinal self + days)%Z in
  if ((0 <? o) && (o <=? _MAXORDINAL))%Z then fromordinal o
  else Raised OverflowError.

(** [date.__sub__] with a [timedelta]: [self + timedelta(-other.days)] *)
Definition date_sub (self : date) (days : Z) : outcome date :=
  date_add self (- days).

Definition weekday (d : date) : Z := ((toordinal d + 6) mod 7)%Z.

(** ["%0<width>d" % n] for [0 <= n] *)
Definition zero_padded (width : nat) (n : Z) : str :=
  let digits := lit (NilZero.string_of_uint (N.to_uint (Z.to_N n))) in
  repeat (ord "0") (width - List.length digits) ++ digits.

(** [date.isoformat], which is also [date.__str__] *)
Definition date_isoformat (d : date) : str :=
  zero_padded 4 (dyear d) ++ lit "-" ++ zero_padded 2 (dmonth d)
  ++ lit "-" ++ zero_padded 2 (dday d).

(** *** [class datetime] (naive: [tzinfo] is [None] throughout) *)

Record datetime : Type := {
  year : Z; month : Z; day : Z;
  hour : Z; minute : Z; second : Z; microsecond : Z
}.

Definition datetime_new (y m d h mi s us : Z) : outcome datetime :=
  let* (y, m, d) := _check_date_fields y m d in
  let* (h, mi, s, us) := _check_time_fields h mi s us in
  Returned {| year := y; month := m; day := d;
              hour := h; minute := mi; second := s; microsecond := us |}.

(** [datetime.date()] *)
Definition datetime_date (t : datetime) : date :=
  {| dyear := year t; dmonth := month t; dday := day t |}.

(** [_cmp(x, y)] on tuples of integers: lexicographic, [-1], [0] or [1]. *)
Fixpoint _cmp (x y : list Z) : Z :=
  match x, y with
  | [], [] => 0
  | [], _ :: _ => -1
  | _ :: _, [] => 1
  | a :: x', b :: y' =>
      if (a =? b)%Z then _cmp x' y' else if (a <? b)%Z then -1 else 1
  end%Z.

Definition datetime_fields (t : datetime) : list Z :=
  [year t; month t; day t; hour t; minute t; second t; microsecond t].

(** [datetime._cmp] for two naive values *)
Definition datetime_cmp (self other : datetime) : Z :=
  _cmp (datetime_fields self) (datetime_fields other).

(** [datetime.__ge__] *)
Definition datetime_ge (self other : datetime) : bool :=
  (0 <=? datetime_cmp self other)%Z.

End Calendar.

Import Calendar.

(** ** [datetime.strptime] ([_strptime.py]) *)

(** The directives [main.py] uses, with the patterns [TimeRE] gives them:
    [%Y] is [(?P<Y>\d\d\d\d)], [%m] is [(?P<m>1[0-2]|0[1-9]|[1-9])] and
    [%d] is [(?P<d>3[0-1]|[1-2]\d|0[1-9]|[1-9]| [1-9])]. *)

Definition re_Y : regex :=
  RGroup "Y" (RSeq RDigit (RSeq RDigit (RSeq RDigit RDigit))).

Definition re_m : regex :=
  RGroup "m"
    (RAlt (RSeq (RChar (ord "1")) (RRange (ord "0") (ord "2")))
    (RAlt (RSeq (RChar (ord "0")) (RRange (ord "1") (ord "9")))
          (RRange (ord "1") (ord "9")))).

Definition re_d : regex :=
  RGroup "d"
    (RAlt (RSeq (RChar (ord "3")) (RRange (ord "0") (ord "1")))
    (RAlt (RSeq (RRange (ord "1") (ord "2")) RDigit)
    (RAlt (RSeq (RChar (ord "0")) (RRange (ord "1") (ord "9")))
    (RAlt (RRange (ord "1") (ord "9"))
          (RSeq (RChar (ord " ")) (RRange (ord "1") (ord "9"))))))).

(** [TimeRE.__getitem__]; a directive without an entry raises [KeyError]. *)
Definition TimeRE_getitem (directive : ascii) : outcome regex :=
  if Ascii.eqb directive "Y" then Returned re_Y
  else if Ascii.eqb directive "m" then Returned re_m
  else if Ascii.eqb directive "d" then Returned re_d
  else Raised KeyError.

(** [TimeRE.pattern]: each [%x] becomes the pattern of the directive [x],
    any other character of the format stands for itself.  (The formats of
    [main.py] hold no white space and no character that [re] treats
    specially, so the escaping steps are the identity.) *)
Fixpoint TimeRE_pattern (format : list ascii) : outcome regex :=
  match format with
  | [] => Returned REps
  | c :: rest =>
      if Ascii.eqb c "%" then
        match rest with
        | [] => Raised IndexError
        | directive :: rest' =>
            let* r := TimeRE_getitem directive in
            let* r' := TimeRE_pattern rest' in
            Returned (RSeq r r')
        end
      else
        let* r' := TimeRE_pattern rest in
        Returned (RSeq (RChar (ord c)) r')
  end.

Record found_fields : Type := {
  f_year : option Z; f_month : Z; f_day : Z
}.

(** One turn of the loop over [found_dict.keys()]. *)
Definition assign_group (U : unicode_db) (acc : outcome found_fields)
    (kv : string * str) : outcome found_fields :=
  let* f := acc in
  let (group_key, text) := kv in
  if String.eqb group_key "Y" then
    let* v := py_int U text in
    Returned {| f_year := Some v; f_month := f_month f; f_day := f_day f |}
  else if String.eqb group_key "m" then
    let* v := py_int U text in
    Returned {| f_year := f_year f; f_month := v; f_day := f_day f |}
  else if String.eqb group_key "d" then
    let* v := py_int U text in
    Returned {| f_year := f_year f; f_month := f_month f; f_day := v |}
  else Returned f.

(** [_strptime(data_string, format)], returning the fields
    [(year, month, day, weekday, julian)] of its result; the time of day is
    zero and there is no time zone for the formats above. *)
Definition _strptime (U : unicode_db) (data_string : str) (format : string)
  : outcome (Z * Z * Z * Z * Z) :=
  let* format_regex :=
    match TimeRE_pattern (list_ascii_of_string format) with
    | Returned r => Returned r
    | Raised _ => Raised ValueError
    end in
  match re_match U format_regex data_string with
  | None => Raised ValueError
  | Some (found_end, found_dict) =>
      if negb (List.length data_string =? found_end)%nat then Raised ValueError
      else
        let* f :=
          fold_left (assign_group U) found_dict
            (Returned {| f_year := None; f_month := 1; f_day := 1 |}) in
        let month := f_month f in
        let day := f_day f in
        let '(year, leap_year_fix) :=
          match f_year f with
          | Some y => (y, false)
          | None =>
              if ((month =? 2) && (day =? 29))%Z then (1904%Z, true)
              else (1900%Z, false)
          end in
        let* d := date_new year month day in
        let* d1 := date_new year 1 1 in
        let julian := (toordinal d - toordinal d1 + 1)%Z in
        let wd := weekday d in
        let year := if leap_year_fix then 1900%Z else year in
        Returned (year, month, day, wd, julian)
  end.

(** [datetime.strptime(data_string, format)] *)
Definition strptime (U : unicode_db) (data_string : str) (format : string)
  : outcome datetime :=
  let* (year, month, day, _, _) := _strptime U data_string format in
  datetime_new year month day 0 0 0 0.

(** ** [is_valid_date_format] (lines 48-53) *)

Definition is_valid_date_format (U : unicode_db) (date_string : str)
  : outcome bool :=
  match strptime U date_string "%Y-%m-%d" with
  | Returned _ => Returned true
  | Raised ValueError => Returned false
  | Raised e => Raised e
  end.

(** ** [Series.rolling(window).mean()] (pandas 2, [window/aggregations.pyx])

    A [Close] column is an array of binary64 numbers in which [NaN] stands
    for a missing value.  [Rolling._prep_values] turns the infinities into
    [NaN]; [roll_mean] then walks down the column with a running state: the
    count [nobs] of the observations in the window, their running sum
    [sum_x], kept by compensated (Kahan) additions of the rows that enter
    the window and compensated subtractions of the rows that leave it, the
    count [neg_ct] of the negative ones, and the length of the run of
    equal values the column ends with.  The window of row [i] is
    [start[i], end[i])] with [start[i] = max(i + 1 - window, 0)] and
    [end[i] = i + 1]. *)

Module Rolling.

Record mean_state : Type := {
  nobs : Z;
  sum_x : float;
  neg_ct : Z;
  compensation_add : float;
  compensation_remove : float;
  num_consecutive_same_value : Z;
  prev_value : float
}.

Definition signbit (x : float) : bool := get_sign x.

(** [add_mean]: a value that is not [NaN] enters the window. *)
Definition add_mean (st : mean_state) (val : float) : mean_state :=
  if (val =? val)%float then
    let y := (val - compensation_add st)%float in
    let t := (sum_x st + y)%float in
    {| nobs := nobs st + 1;
       sum_x := t;
       neg_ct := if signbit val then neg_ct st + 1 else neg_ct st;
       compensation_add := (t - sum_x st - y)%float;
       compensation_remove := compensation_remove st;
       num_consecutive_same_value :=
         if (val =? prev_value st)%float
         then num_consecutive_same_value st + 1
         else 1;
       prev_value := val |}
  else st.

(** [remove_mean]: a value that is not [NaN] leaves the window. *)
Definition remove_mean (st : mean_state) (val : float) : mean_state :=
  if (val =? val)%float then
    let y := (- val - compensation_remove st)%float in
    let t := (sum_x st + y)%float in
    {| nobs := nobs st - 1;
       sum_x := t;
       neg_ct := if signbit val then neg_ct st - 1 else neg_ct st;
       compensation_add := compensation_add st;
       compensation_remove := (t - sum_x st - y)%float;
       num_consecutive_same_value := num_consecutive_same_value st;
       prev_value := prev_value st |}
  else st.

(** [<float64_t>nobs] *)
Definition float_of_Z (n : Z) : float := of_uint63 (Uint63Axioms.of_Z n).

(** [calc_mean]: the running sum over the count; the last value itself
    when the whole window repeats it, and zero when the quotient has the
    sign no value of the window has. *)
Definition calc_mean (minp : Z) (st : mean_state) : float :=
  if ((minp <=? nobs st) && (0 <? nobs st))%Z then
    let result := (sum_x st / float_of_Z (nobs st))%float in
    if (nobs st <=? num_consecutive_same_value st)%Z then prev_value st
    else if ((neg_ct st =? 0)%Z && (result <? 0)%float)%bool then 0%float
    else if ((neg_ct st =? nobs st)%Z && (0 <? result)%float)%bool
         then 0%float
    else result
  else nan.

(** [values[a:b]] *)
Definition slice {A : Type} (a b : nat) (values : list A) : list A :=
  firstn (b - a) (skipn a values).

Definition window_start (window i : nat) : nat := (i + 1 - window)%nat.
Definition window_end (i : nat) : nat := (i + 1)%nat.

(** The state a fresh window is set up with: [prev_value = values[s]]. *)
Definition setup (values : list float) (s : nat) : mean_state :=
  {| nobs := 0; sum_x := 0; neg_ct := 0;
     compensation_add := 0; compensation_remove := 0;
     num_consecutive_same_value := 0;
     prev_value := nth s values nan |}.

(** The body of the loop for row [i]: a fresh window at row 0 (and when
    the window shares no row with the one before), else the rows that left
    are removed and the rows that entered are added. *)
Definition roll_step (values : list float) (window i : nat)
    (st : mean_state) : mean_state :=
  let s := window_start window i in
  let e := window_end i in
  if ((i =? 0) || (window_end (i - 1) <=? s))%nat then
    fold_left add_mean (slice s e values) (setup values s)
  else
    let st1 :=
      fold_left remove_mean
        (slice (window_start window (i - 1)) s values) st in
    fold_left add_mean (slice (window_end (i - 1)) e values) st1.

Fixpoint roll_mean_loop (values : list float) (window : nat) (minp : Z)
    (todo i : nat) (st : mean_state) : list float :=
  match todo with
  | O => []
  | S todo' =>
      let st' := roll_step values window i st in
      calc_mean minp st' :: roll_mean_loop values window minp todo' (S i) st'
  end.

Definition roll_mean (values : list float) (window : nat) (minp : Z)
  : list float :=
  roll_mean_loop values window minp (List.length values) 0 (setup values 0).

(** [Rolling._prep_values]: the infinities become [NaN]. *)
Definition _prep_value (v : float) : float :=
  if is_infinity v then nan else v.

Definition _prep_values (values : list float) : list float :=
  map _prep_value values.

(** [values.rolling(window=window).mean()]: [min_periods] defaults to the
    size of the window. *)
Definition rolling_mean (window : nat) (values : list float) : list float :=
  roll_mean (_prep_values values) window (Z.of_nat window).

End Rolling.

Import Rolling.

(** ** The application's data *)

Module SearchRecord.
(** [class SearchRecord(db.Model)], table [search_records]: [id] is the
    integer primary key, [ticker] is [nullable=False, unique=True]. *)
Record t : Type := { id : Z; ticker : str }.
End SearchRecord.

(** One row of the frame [yf.download] returns: the date index and the
    [Open], [High], [Low] and [Close] columns. *)
Record price_row : Type := {
  row_date : date;
  p_open : float; p_high : float; p_low : float; p_close : float
}.

Definition DataFrame := list price_row.

(** [DataFrame.empty] *)
Definition df_empty (df : DataFrame) : bool :=
  match df with [] => true | _ :: _ => false end.

(** The traces and the figure built with [plotly.graph_objects]. *)
Record Candlestick : Type := {
  cs_x : list str;
  cs_open : list float; cs_close : list float;
  cs_high : list float; cs_low : list float;
  cs_showlegend : bool;
  cs_increasing_line_color : string;
  cs_decreasing_line_color : string
}.

Record Scatter : Type := {
  sc_x : list str;
  sc_y : list float;
  sc_mode : string;
  sc_line_color : string;
  sc_name : string
}.

Record Figure : Type := {
  fig_candlestick : Candlestick;
  fig_lines : list Scatter;
  fig_title : str;
  fig_xaxis_type : string;
  fig_xaxis_rangeslider_visible : bool
}.

(** What a field of [SearchForm] can hold.  Flask-WTF fills the form from
    [request.files] and [request.form] and, when both are empty, from the
    members of the request's JSON body, so the value sent under a field's
    name need not be a [str]: it may be a number, a list, an object, an
    uploaded file.  A value that is not a string is seen through the
    operations the validators and [home] apply to it. *)
Record py_object : Type := {
  obj_bool : bool;                      (* [bool(o)] *)
  obj_contains : str -> outcome bool;   (* [s in o]; [TypeError] when [o] is
                                           no container *)
  obj_str : str                         (* [str(o)] *)
}.

Inductive field_value : Type :=
| Text (s : str)
| Object (o : py_object).               (* any value that is not a [str] *)

(** The messages passed to [flash]. *)
Inductive flash_msg : Type :=
| MsgBadDateFormat    (* line 79: wrong date format, use yyyy-mm-dd *)
| MsgBadDateRange     (* line 82: the begin date must be before the end date *)
| MsgBadTicker        (* line 91: wrong ticker format, add .TW or .TWO *)
| MsgNotFound.        (* line 108: no such ticker *)

(** The targets of [url_for]. *)
Inductive endpoint : Type :=
| EpHome
| EpSearchPrice (ticker begin_date end_date : str).

Inductive response : Type :=
| Redirect (target : endpoint)
| RenderIndex (form : list (string * field_value))
    (records : list SearchRecord.t)
| RenderPrice (chart_json : Figure) (chart_id : string)
| PlainText (body : string).

(** ** Requests *)

Inductive http_method : Type :=
| GET | HEAD | OPTIONS | POST | PUT | PATCH | DELETE.

Record request : Type := {
  method : http_method;
  args : list (string * str);             (* [request.args] *)
  form : list (string * field_value);     (* the data the form is filled
                                             from: [request.files] and
                                             [request.form], else the JSON
                                             body *)
  csrf_token_valid : bool;                (* Flask-WTF's check of the token *)
  environ : list (string * str);          (* the WSGI environment *)
  data : str                              (* [request.get_data(as_text=True)] *)
}.

(** [d.get(key)]: the first value stored under [key], or [None]. *)
Fixpoint dict_get {V : Type} (key : string) (d : list (string * V))
  : option V :=
  match d with
  | [] => None
  | (k, v) :: d' => if String.eqb k key then Some v else dict_get key d'
  end.

Definition ascii_upper (c : ascii) : ascii :=
  let n := nat_of_ascii c in
  if ((97 <=? n) && (n <=? 122))%nat then ascii_of_nat (n - 32) else c.

Definition environ_key (key : string) : string :=
  string_of_list_ascii
    (map (fun c => if Ascii.eqb (ascii_upper c) "-" then "_"%char else ascii_upper c)
         (list_ascii_of_string key)).

(** [request.headers[key]] ([EnvironHeaders.__getitem__]): the look-up in
    the WSGI environment raises [KeyError] when the header is absent. *)
Definition headers_getitem (req : request) (key : string) : outcome str :=
  let key := environ_key key in
  let key :=
    if (String.eqb key "CONTENT_TYPE" || String.eqb key "CONTENT_LENGTH")%bool
    then key else ("HTTP_" ++ key)%string in
  match dict_get key (environ req) with
  | Some v => Returned v
  | None => Raised KeyError
  end.

(** ** The messaging SDK's data ([linebot.v3]) *)

Inductive message_content : Type :=
| TextMessageContent (text : str)
| OtherMessageContent.

Inductive webhook_event : Type :=
| MessageEvent (reply_token : str) (message : message_content)
| OtherEvent.

(** [ReplyMessageRequest(reply_token=.., messages=[TextMessage(text=..)])] *)
Record ReplyMessageRequest : Type := {
  reply_token : str;
  messages : list str
}.

(** ** The world and the external collaborators *)

(** Pending changes of the SQLAlchemy session. *)
Inductive session_op : Type :=
| SessionAdd (ticker : str)
| SessionDelete (record : SearchRecord.t).

Inductive log_entry : Type :=
| LogRequestBody (body : str)
| LogInvalidSignature.

Record world : Type := {
  search_records : list SearchRecord.t;   (* the committed table *)
  session : list session_op;              (* [db.session], not yet committed *)
  flashes : list flash_msg;               (* the flashed messages *)
  replies : list ReplyMessageRequest;     (* calls of the reply API *)
  app_log : list log_entry;               (* [app.logger.info] *)
  clock_reads : nat                       (* readings of the clock so far *)
}.

(** What the application does not own: the Unicode tables, the clock, the
    market-data provider and the messaging SDK's signature check, payload
    parser and reply call. *)
Record env : Type := {
  unicode : unicode_db;
  clock : nat -> datetime;
  yf_download : str -> str -> str -> outcome DataFrame;
  signature_validate : str -> str -> bool;
  parse_events : str -> outcome (list webhook_event);
  reply_message_with_http_info : ReplyMessageRequest -> outcome unit
}.

(** ** The monad of the request handlers: state and exceptions *)

Definition M (A : Type) : Type := world -> outcome A * world.

Definition ret {A : Type} (a : A) : M A := fun w => (Returned a, w).

Definition raise {A : Type} (e : exn) : M A := fun w => (Raised e, w).

Definition bind {A B : Type} (m : M A) (f : A -> M B) : M B :=
  fun w =>
    match m w with
    | (Returned a, w') => f a w'
    | (Raised e, w') => (Raised e, w')
    end.

Definition lift {A : Type} (o : outcome A) : M A := fun w => (o, w).

(** [try: m except e: h], for the one exception class [catches] accepts. *)
Definition try_except {A : Type} (m : M A) (catches : exn -> bool) (h : M A)
  : M A :=
  fun w =>
    match m w with
    | (Returned a, w') => (Returned a, w')
    | (Raised e, w') => if catches e then h w' else (Raised e, w')
    end.

Notation "x <- m ;; k" := (bind m (fun x => k))
  (at level 61, m at next level, right associativity).
Notation "m ;;; k" := (bind m (fun _ => k))
  (at level 61, right associativity).

(** *** [flash], the logger and the clock *)

Definition flash (msg : flash_msg) : M unit :=
  fun w =>
    (Returned tt,
     {| search_records := search_records w; session := session w;
        flashes := flashes w ++ [msg]; replies := replies w;
        app_log := app_log w; clock_reads := clock_reads w |}).

Definition logger_info (entry : log_entry) : M unit :=
  fun w =>
    (Returned tt,
     {| search_records := search_records w; session := session w;
        flashes := flashes w; replies := replies w;
        app_log := app_log w ++ [entry]; clock_reads := clock_reads w |}).

(** [dt.datetime.now()] *)
Definition datetime_now (E : env) : M datetime :=
  fun w =>
    (Returned (clock E (clock_reads w)),
     {| search_records := search_records w; session := session w;
        flashes := flashes w; replies := replies w;
        app_log := app_log w; clock_reads := S (clock_reads w) |}).

(** *** The record store ([db.session] over the [search_records] table) *)

Definition set_store (rows : list SearchRecord.t) (ops : list session_op)
    (w : world) : world :=
  {| search_records := rows; session := ops;
     flashes := flashes w; replies := replies w;
     app_log := app_log w; clock_reads := clock_reads w |}.

Definition has_ticker (t : str) (r : SearchRecord.t) : bool :=
  str_eqb (SearchRecord.ticker r) t.

(** [db.session.query(SearchRecord).all()] *)
Definition query_all : M (list SearchRecord.t) :=
  fun w => (Returned (search_records w), w).

(** [SearchRecord.query.filter_by(ticker=t).first()]; with [t] being
    [None] the filter is [ticker IS NULL], which no row satisfies. *)
Definition query_filter_by_ticker_first (t : option str)
  : M (option SearchRecord.t) :=
  fun w =>
    (Returned
       match t with
       | Some t => find (has_ticker t) (search_records w)
       | None => None
       end, w).

Definition session_add (ticker : str) : M unit :=
  fun w => (Returned tt,
            set_store (search_records w) (session w ++ [SessionAdd ticker]) w).

Definition session_delete (record : SearchRecord.t) : M unit :=
  fun w => (Returned tt,
            set_store (search_records w) (session w ++ [SessionDelete record]) w).

(** The key the table gives a new row. *)
Definition next_id (rows : list SearchRecord.t) : Z :=
  (fold_right Z.max 0 (map SearchRecord.id rows) + 1)%Z.

(** One statement of the flush.  [INSERT] is refused by the table's
    [unique] constraint when the ticker is already stored; [DELETE] goes by
    primary key. *)
Definition apply_op (rows : list SearchRecord.t) (op : session_op)
  : outcome (list SearchRecord.t) :=
  match op with
  | SessionAdd ticker =>
      if existsb (has_ticker ticker) rows then Raised IntegrityError
      else Returned
             (rows ++ [{| SearchRecord.id := next_id rows;
                          SearchRecord.ticker := ticker |}])
  | SessionDelete record =>
      Returned
        (filter (fun r => negb (SearchRecord.id r =? SearchRecord.id record)%Z)
                rows)
  end.

Fixpoint apply_ops (rows : list SearchRecord.t) (ops : list session_op)
  : outcome (list SearchRecord.t) :=
  match ops with
  | [] => Returned rows
  | op :: ops' => let* rows' := apply_op rows op in apply_ops rows' ops'
  end.

(** [db.session.commit()]: the pending changes reach the table together,
    or the transaction fails and the table is as before. *)
Definition session_commit : M unit :=
  fun w =>
    match apply_ops (search_records w) (session w) with
    | Returned rows => (Returned tt, set_store rows [] w)
    | Raised e => (Raised e, set_store (search_records w) [] w)
    end.

(** At the end of a request the session is removed: what was not committed
    is discarded. *)
Definition session_remove (w : world) : world :=
  set_store (search_records w) [] w.

(** ** [SearchForm] and its validation (Flask-WTF, WTForms) *)

(** [form.<name>.data]: the submitted value, [None] when the field was
    not sent. *)
Definition field_data (req : request) (name : string) : option field_value :=
  dict_get name (form req).

Definition nonempty (s : str) : bool :=
  match s with [] => false | _ :: _ => true end.

(** The [DataRequired] validator,
    [field.data and (not isinstance(field.data, str) or field.data.strip())]:
    the value is truthy and, when it is a string, does not strip to the
    empty string. *)
Definition DataRequired (U : unicode_db) (field : option field_value) : bool :=
  match field with
  | Some (Text s) => nonempty s && nonempty (strip U s)
  | Some (Object o) => obj_bool o
  | None => false
  end.

Definition is_submitted (req : request) : bool :=
  match method req with
  | POST | PUT | PATCH | DELETE => true
  | _ => false
  end.

Definition validate (U : unicode_db) (req : request) : bool :=
  csrf_token_valid req
  && DataRequired U (field_data req "ticker")
  && DataRequired U (field_data req "begin_date")
  && DataRequired U (field_data req "end_date").

Definition validate_on_submit (U : unicode_db) (req : request) : bool :=
  is_submitted req && validate U req.

(** ** The view functions of [main.py] *)

(** A form value passed where the code needs a string ([strptime]):
    anything but a [str] makes the call raise [TypeError]. *)
Definition expect_str (value : option field_value) : M str :=
  match value with
  | Some (Text s) => ret s
  | Some (Object _) | None => raise TypeError
  end.

(** Line 74, ['.TW' in searched_ticker or '.TWO' in searched_ticker]: two
    substring searches on a string, two membership tests on any other
    value, the second one made only when the first one fails. *)
Definition check_ticker_value (searched_ticker : field_value) : outcome bool :=
  match searched_ticker with
  | Text s => Returned (is_valid_ticker_suffix s)
  | Object o =>
      let* found := obj_contains o (lit ".TW") in
      if found : bool then Returned true else obj_contains o (lit ".TWO")
  end.

(** What [url_for] writes for a value of the route: [str(value)]. *)
Definition url_value (value : field_value) : str :=
  match value with
  | Text s => s
  | Object o => obj_str o
  end.

(** [home] (lines 67-93) *)
Definition home (E : env) (req : request) : M response :=
  let U := unicode E in
  search_records <- query_all ;;
  if validate_on_submit U req then
    match field_data req "ticker" with
    | None => raise TypeError
    | Some searched_ticker =>
        ticker_ok <- lift (check_ticker_value searched_ticker) ;;
        if ticker_ok : bool then
          let begin_date := field_data req "begin_date" in
          let end_date := field_data req "end_date" in
          valid_begin <-
            (s <- expect_str begin_date ;; lift (is_valid_date_format U s)) ;;
          bad_format <-
            (if negb valid_begin then ret true
             else valid_end <-
                    (s <- expect_str end_date ;;
                     lift (is_valid_date_format U s)) ;;
                  ret (negb valid_end)) ;;
          if bad_format : bool then
            flash MsgBadDateFormat ;;; ret (Redirect EpHome)
          else
            begin_date <- expect_str begin_date ;;
            b <- lift (strptime U begin_date "%Y-%m-%d") ;;
            end_date <- expect_str end_date ;;
            e <- lift (strptime U end_date "%Y-%m-%d") ;;
            if datetime_ge b e then
              flash MsgBadDateRange ;;; ret (Redirect EpHome)
            else
              ret (Redirect (EpSearchPrice (url_value searched_ticker)
                               begin_date end_date))
        else flash MsgBadTicker ;;; ret (Redirect EpHome)
    end
  else ret (RenderIndex (form req) search_records).

(** The date range of [search_price] (lines 98-103): the two query
    parameters, or the 90 days up to today when either is missing. *)
Definition search_price_range (E : env) (req : request) : M (str * str) :=
  let begin_date := dict_get "begin_date" (args req) in
  let end_date := dict_get "end_date" (args req) in
  match begin_date, end_date with
  | Some begin_date, Some end_date => ret (begin_date, end_date)
  | _, _ =>
      now1 <- datetime_now E ;;
      begin_day <- lift (date_sub (datetime_date now1) 90) ;;
      now2 <- datetime_now E ;;
      ret (date_isoformat begin_day, date_isoformat (datetime_date now2))
  end.

(** The figure of [search_price] (lines 118-146). *)
Definition build_figure (ticker : str) (stock_price : DataFrame) : Figure :=
  let close := map p_close stock_price in
  let five_day_ma := rolling_mean 5 close in
  let twenty_day_ma := rolling_mean 20 close in
  let index := map (fun r => date_isoformat (row_date r)) stock_price in
  {| fig_candlestick :=
       {| cs_x := index;
          cs_open := map p_open stock_price;
          cs_close := close;
          cs_high := map p_high stock_price;
          cs_low := map p_low stock_price;
          cs_showlegend := false;
          cs_increasing_line_color := "red";
          cs_decreasing_line_color := "green" |};
     fig_lines :=
       [ {| sc_x := index; sc_y := five_day_ma; sc_mode := "lines";
            sc_line_color := "blue"; sc_name := "5-day MA" |};
         {| sc_x := index; sc_y := twenty_day_ma; sc_mode := "lines";
            sc_line_color := "orange"; sc_name := "20-day MA" |} ];
     fig_title := ticker;
     fig_xaxis_type := "category";
     fig_xaxis_rangeslider_visible := false |}.

(** [search_price] (lines 96-147) *)
Definition search_price (E : env) (ticker : str) (req : request) : M response :=
  range <- search_price_range E req ;;
  let '(begin_date, end_date) := range in
  stock_price <- lift (yf_download E ticker begin_date end_date) ;;
  if df_empty stock_price then
    flash MsgNotFound ;;; ret (Redirect EpHome)
  else
    ticker_record <- query_filter_by_ticker_first (Some ticker) ;;
    match ticker_record with
    | None => session_add ticker ;;; session_commit
    | Some _ => ret tt
    end ;;;
    ret (RenderPrice (build_figure ticker stock_price) "chart").

(** [delete_record] (lines 150-156) *)
Definition delete_record (E : env) (req : request) : M response :=
  deleted_ticker <- query_filter_by_ticker_first (dict_get "ticker" (args req)) ;;
  match deleted_ticker with
  | Some record => session_delete record ;;; session_commit
  | None => ret tt
  end ;;;
  ret (Redirect EpHome).

(** ** The webhook *)

(** [handle_message] (lines 180-189): the echo reply. *)
Definition handle_message (E : env) (event_reply_token text : str) : M unit :=
  let req := {| reply_token := event_reply_token; messages := [text] |} in
  fun w =>
    (reply_message_with_http_info E req,
     {| search_records := search_records w; session := session w;
        flashes := flashes w; replies := replies w ++ [req];
        app_log := app_log w; clock_reads := clock_reads w |}).

(** [WebhookHandler.handle(body, signature)]: the parser refuses the body
    when the signature does not validate; then each event goes to the
    function added for its class, and [main.py] adds one for text messages
    only and no default. *)
Fixpoint dispatch_events (E : env) (events : list webhook_event) : M unit :=
  match events with
  | [] => ret tt
  | event :: rest =>
      match event with
      | MessageEvent token (TextMessageContent text) =>
          handle_message E token text
      | _ => ret tt
      end ;;;
      dispatch_events E rest
  end.

Definition handler_handle (E : env) (body signature : str) : M unit :=
  if negb (signature_validate E body signature) then raise InvalidSignatureError
  else
    events <- lift (parse_events E body) ;;
    dispatch_events E events.

Definition is_InvalidSignatureError (e : exn) : bool :=
  match e with InvalidSignatureError => true | _ => false end.

(** [abort(code)] *)
Definition abort {A : Type} (code : Z) : M A := raise (HTTPException code).

(** [callback] (lines 161-177) *)
Definition callback (E : env) (req : request) : M response :=
  signature <- lift (headers_getitem req "X-Line-Signature") ;;
  let body := data req in
  logger_info (LogRequestBody body) ;;;
  try_except (handler_handle E body signature)
    is_InvalidSignatureError
    (logger_info LogInvalidSignature ;;; abort 400) ;;;
  ret (PlainText "OK").

(** ** Routing and the responses Flask sends *)

Inductive route : Type :=
| RouteHome                       (* [/], GET and POST *)
| RoutePrice (ticker : str)       (* [/price/<string:ticker>] *)
| RouteDelete                     (* [/delete] *)
| RouteCallback.                  (* [/callback], POST *)

Record http_response : Type := {
  status : Z;
  payload : option response
}.

Definition view_allows (rt : route) (m : http_method) : bool :=
  match rt, m with
  | RouteHome, (GET | HEAD | POST) => true
  | (RoutePrice _ | RouteDelete), (GET | HEAD) => true
  | RouteCallback, POST => true
  | _, _ => false
  end.

Definition view (E : env) (rt : route) (req : request) : M response :=
  match rt with
  | RouteHome => home E req
  | RoutePrice ticker => search_price E ticker req
  | RouteDelete => delete_record E req
  | RouteCallback => callback E req
  end.

Definition status_of (r : response) : Z :=
  match r with Redirect _ => 302%Z | _ => 200%Z end.

(** One request: the view runs when the route allows the method; an
    [HTTPException] becomes the response with its code, any other
    exception the generic server error 500. *)
Definition full_dispatch_request (E : env) (rt : route) (req : request)
    (w : world) : http_response * world :=
  if view_allows rt (method req) then
    match view E rt req w with
    | (Returned r, w') =>
        ({| status := status_of r; payload := Some r |}, session_remove w')
    | (Raised (HTTPException code), w') =>
        ({| status := code; payload := None |}, session_remove w')
    | (Raised _, w') =>
        ({| status := 500; payload := None |}, session_remove w')
    end
  else
    match method req with
    | OPTIONS => ({| status := 200; payload := None |}, w)
    | _ => ({| status := 405; payload := None |}, w)
    end.

(** The worlds the application can be in: it starts on an empty table,
    and every request is served by [full_dispatch_request], whatever the
    outside world answers at that moment. *)
Definition initial_world : world :=
  {| search_records := []; session := []; flashes := []; replies := [];
     app_log := []; clock_reads := 0 |}.

Inductive reachable : world -> Prop :=
| reachable_initial : reachable initial_world
| reachable_request (E : env) (w : world) (rt : route) (req : request) :
    reachable w ->
    reachable (snd (full_dispatch_request E rt req w)).

(** ** A concrete environment for the examples *)

Definition example_rows : DataFrame :=
  map (fun '(d, c) =>
         {| row_date := {| dyear := 2023; dmonth := 1; dday := d |};
            p_open := c; p_high := c; p_low := c; p_close := c |})
      [(3%Z, 10%float); (4%Z, 20%float); (5%Z, 30%float); (6%Z, 40%float);
       (9%Z, 50%float)].

Definition example_clock (k : nat) : datetime :=
  {| year := 2026; month := 11; day := 4;
     hour := 9; minute := 30; second := Z.of_nat k; microsecond := 0 |}.

(** The provider knows [2330.TW] only; the SDK accepts the signature
    [good] and reads every body as one text message [hello]. *)
Definition example_env : env :=
  {| unicode := ascii_db;
     clock := example_clock;
     yf_download := fun ticker _ _ =>
       Returned (if str_eqb ticker (lit "2330.TW") then example_rows else []);
     signature_validate := fun _ signature => str_eqb signature (lit "good");
     parse_events := fun _ =>
       Returned [MessageEvent (lit "token") (TextMessageContent (lit "hello"))];
     reply_message_with_http_info := fun _ => Returned tt |}.

Definition example_request (m : http_method) (query form_data headers : list (string * str))
  : request :=
  {| method := m; args := query;
     form := map (fun '(name, text) => (name, Text text)) form_data;
     csrf_token_valid := true;
     environ := headers; data := lit "{}" |}.



(** The world after [2330.TW] has been looked up once. *)
Definition example_world_with_record : world :=
  snd (full_dispatch_request example_env (RoutePrice (lit "2330.TW"))
         (example_request GET [] [] []) initial_world).

(** ** Vocabulary of the properties *)

(** A computation that leaves the table and the session alone. *)
Definition keeps_store {A : Type} (m : M A) : Prop :=
  forall w,
    search_records (snd (m w)) = search_records w /\
    session (snd (m w)) = session w.

(** The constraints of the table: [ticker] is unique, [id] is the key. *)
Definition store_ok (rows : list SearchRecord.t) : Prop :=
  NoDup (map SearchRecord.ticker rows) /\ NoDup (map SearchRecord.id rows).

Definition world_ok (w : world) : Prop :=
  store_ok (search_records w) /\ session w = [].

(** The number of stored records for a ticker. *)
Definition count_ticker (t : str) (rows : list SearchRecord.t) : nat :=
  List.length (filter (has_ticker t) rows).

(** *** Moving averages

    A [Close] value pandas counts as an observation: neither [NaN] nor
    infinite. *)
Definition present (v : float) : bool :=
  (v =? v)%float && negb (is_infinity v).

(** The values of a prepared window that are not [NaN], and the negative
    ones among them. *)
Fixpoint count_valid (l : list float) : Z :=
  match l with
  | [] => 0
  | v :: l' => (if (v =? v)%float then 1 else 0) + count_valid l'
  end.

Fixpoint count_negative (l : list float) : Z :=
  match l with
  | [] => 0
  | v :: l' =>
      (if ((v =? v)%float && signbit v)%bool then 1 else 0) + count_negative l'
  end.

(** The window of row [i]. *)
Definition window_of (window : nat) (values : list float) (i : nat)
  : list float :=
  slice (window_start window i) (window_end i) values.

(** The state [roll_mean] holds after row [i], told row by row for a
    window of two rows or more: row 0 enters a fresh state; at every later
    row the value that falls out of the window, if there is one, is
    removed, and the value of the row is added. *)
Fixpoint running_state (window : nat) (values : list float) (i : nat)
  : mean_state :=
  match i with
  | O => add_mean (setup values 0) (nth 0 values nan)
  | S k =>
      let st := running_state window values k in
      let st :=
        if (window <=? S k)%nat
        then remove_mean st (nth (S k - window) values nan)
        else st in
      add_mean st (nth (S k) values nan)
  end.

(** One step of Kahan's compensated summation: [v] is added to the sum
    [s], [c] being the rounding error the last step of its kind left; the
    result is the new sum and the new error. *)
Definition kahan (s c v : float) : float * float :=
  let y := (v - c)%float in
  let t := (s + y)%float in
  (t, (t - s - y)%float).

(** The running sum of a column after row [i], with the error of its
    additions and the error of its subtractions: from row 0 on every
    [Close] that is present is added, after the [Close] that leaves the
    window, [window] rows above, has been subtracted if it is present. *)
Fixpoint running_sum (window : nat) (close : list float) (i : nat)
  : float * float * float :=
  match i with
  | O =>
      let v := nth 0 close nan in
      if present v
      then let (s, added) := kahan 0 0 v in (s, added, 0%float)
      else (0%float, 0%float, 0%float)
  | S k =>
      let '(s, added, removed) := running_sum window close k in
      let old := nth (S k - window) close nan in
      let '(s, removed) :=
        if ((window <=? S k)%nat && present old)%bool
        then kahan s removed (- old)%float
        else (s, removed) in
      let v := nth (S k) close nan in
      if present v
      then let (s, added) := kahan s added v in (s, added, removed)
      else (s, added, removed)
  end.

(** Every value of the list equals the one before it. *)
Fixpoint repeats (l : list float) : bool :=
  match l with
  | a :: l' =>
      match l' with
      | b :: _ => (b =? a)%float && repeats l'
      | [] => true
      end
  | [] => true
  end.

(** The number of values with the sign bit set. *)
Definition negatives (l : list float) : Z :=
  Z.of_nat (List.length (filter signbit l)).

(** The moving average of a full window without a missing value: the
    running sum over the size of the window; but the [Close] of the row
    itself when the window repeats one value, and zero when the quotient
    is negative though no value of the window is, or positive though
    every value of the window is negative. *)
Definition running_average (window : nat) (close : list float) (i : nat)
  : float :=
  let w := slice (i + 1 - window) (i + 1) close in
  let n := Z.of_nat window in
  let quotient :=
    (fst (fst (running_sum window close i)) / float_of_Z n)%float in
  if repeats w then nth i close nan
  else if ((negatives w =? 0)%Z && (quotient <? 0)%float)%bool then 0%float
  else if ((negatives w =? n)%Z && (0 <? quotient)%float)%bool then 0%float
  else quotient.

(** The number a finite binary64 value stands for. *)
Definition float_value (x : float) : option Q :=
  match Prim2SF x with
  | S754_zero _ => Some 0
  | S754_finite sign m e =>
      Some ((if sign then -1 else 1) * inject_Z (Zpos m) * (2 # 1) ^ e)
  | S754_infinity _ | S754_nan => None
  end.

(** The unweighted arithmetic mean of a window, as the specification
    words it: the sum of the values over their number, and undefined when
    a value is missing. *)
Fixpoint observations (l : list float) : option (list Q) :=
  match l with
  | [] => Some []
  | v :: l' =>
      match float_value v, observations l' with
      | Some q, Some qs => Some (q :: qs)
      | _, _ => None
      end
  end.

Definition Qsum (vs : list Q) : Q := fold_right Qplus 0 vs.

Definition arithmetic_mean (l : list float) : option Q :=
  match observations l with
  | Some vs => Some (Qsum vs / inject_Z (Z.of_nat (List.length vs)))
  | None => None
  end.

(** Two cells of a column agree: both undefined, or equal numbers. *)
Definition same_value (a b : option Q) : Prop :=
  match a, b with
  | Some x, Some y => x == y
  | None, None => True
  | _, _ => False
  end.

(** A price series with the given [Close] column, one row a day from
    1 January 2024 on. *)
Definition frame_of_closes (closes : list float) : DataFrame :=
  map (fun '(k, c) =>
         {| row_date :=
              match fromordinal (738886 + Z.of_nat k) with
              | Returned d => d
              | Raised _ => {| dyear := 2024; dmonth := 1; dday := 1 |}
              end;
            p_open := c; p_high := c; p_low := c; p_close := c |})
      (combine (seq 0 (List.length closes)) closes).

(** *** The texts [%Y-%m-%d] accepts

    [matches U r s g]: the whole of [s] is an instance of the pattern
    [r], its named groups holding [g] (the latest group first). *)
Inductive matches (U : unicode_db) : regex -> str -> groups -> Prop :=
| matches_eps : matches U REps [] []
| matches_char (c : char) : matches U (RChar c) [c] []
| matches_range (lo hi x : char) :
    in_range lo hi x = true -> matches U (RRange lo hi) [x] []
| matches_digit (x : char) (v : Z) :
    decimal_value U x = Some v -> matches U RDigit [x] []
| matches_seq (r1 r2 : regex) (s1 s2 : str) (g1 g2 : groups) :
    matches U r1 s1 g1 -> matches U r2 s2 g2 ->
    matches U (RSeq r1 r2) (s1 ++ s2) (g2 ++ g1)
| matches_alt_l (r1 r2 : regex) (s : str) (g : groups) :
    matches U r1 s g -> matches U (RAlt r1 r2) s g
| matches_alt_r (r1 r2 : regex) (s : str) (g : groups) :
    matches U r2 s g -> matches U (RAlt r1 r2) s g
| matches_group (name : string) (r : regex) (s : str) (g : groups) :
    matches U r s g -> matches U (RGroup name r) s ((name, s) :: g).

(** The value of an ASCII digit. *)
Definition digit (c : char) : Z := (Z.of_N c - 48)%Z.

(** A year is written with exactly four decimal digits. *)
Inductive year_text (U : unicode_db) : str -> Z -> Prop :=
| year_4 (c1 c2 c3 c4 : char) (v1 v2 v3 v4 : Z) :
    decimal_value U c1 = Some v1 -> decimal_value U c2 = Some v2 ->
    decimal_value U c3 = Some v3 -> decimal_value U c4 = Some v4 ->
    year_text U [c1; c2; c3; c4] (1000 * v1 + 100 * v2 + 10 * v3 + v4)%Z.

(** A month is written [10], [11], [12], or [1]..[9] with or without a
    leading zero. *)
Inductive month_text : str -> Z -> Prop :=
| month_1x (c : char) :
    in_range (ord "0") (ord "2") c = true ->
    month_text [ord "1"; c] (10 + digit c)%Z
| month_0x (c : char) :
    in_range (ord "1") (ord "9") c = true ->
    month_text [ord "0"; c] (digit c)
| month_x (c : char) :
    in_range (ord "1") (ord "9") c = true ->
    month_text [c] (digit c).

(** A day is written [30], [31], [10]..[29], or [1]..[9] bare, with a
    leading zero or with a leading space. *)
Inductive day_text (U : unicode_db) : str -> Z -> Prop :=
| day_3x (c : char) :
    in_range (ord "0") (ord "1") c = true ->
    day_text U [ord "3"; c] (30 + digit c)%Z
| day_1x_2x (c1 c2 : char) (v : Z) :
    in_range (ord "1") (ord "2") c1 = true ->
    decimal_value U c2 = Some v ->
    day_text U [c1; c2] (10 * digit c1 + v)%Z
| day_0x (c : char) :
    in_range (ord "1") (ord "9") c = true ->
    day_text U [ord "0"; c] (digit c)
| day_x (c : char) :
    in_range (ord "1") (ord "9") c = true ->
    day_text U [c] (digit c)
| day_space_x (c : char) :
    in_range (ord "1") (ord "9") c = true ->
    day_text U [ord " "; c] (digit c).

(** [s] reads as year [y], month [m] and day [d] joined by hyphens. *)
Definition ymd_text (U : unicode_db) (s : str) (y m d : Z) : Prop :=
  exists yt mt dt : str,
    s = yt ++ ord "-" :: mt ++ ord "-" :: dt /\
    year_text U yt y /\ month_text mt m /\ day_text U dt d.

(** [y]-[m]-[d] is a date of the calendar [datetime] supports. *)
Definition real_date (y m d : Z) : Prop :=
  (1 <= y <= 9999)%Z /\ (1 <= m <= 12)%Z /\ (1 <= d <= _days_in_month y m)%Z.

(** The pattern [TimeRE.pattern] builds for ["%Y-%m-%d"]. *)
Definition ymd_regex : regex :=
  RSeq re_Y (RSeq (RChar (ord "-")) (RSeq re_m (RSeq (RChar (ord "-"))
    (RSeq re_d REps)))).

(** The day a [datetime] falls on, counted from 1 January of year 1. *)
Definition day_number (t : datetime) : Z := toordinal (datetime_date t).

(** The order of the calendar: the date [y]-[m]-[d] comes before the date
    [y']-[m']-[d']. *)
Definition earlier (y m d y' m' d' : Z) : Prop :=
  (y < y' \/ (y = y' /\ (m < m' \/ (m = m' /\ d < d'))))%Z.

(** The echo of a list of events: one reply per text message, carrying
    the message's reply token and its text, in the order of the events. *)
Fixpoint echo_replies (events : list webhook_event)
  : list ReplyMessageRequest :=
  match events with
  | [] => []
  | MessageEvent token (TextMessageContent text) :: rest =>
      {| reply_token := token; messages := [text] |} :: echo_replies rest
  | _ :: rest => echo_replies rest
  end.

(** A world with further calls of the reply API recorded. *)
Definition with_replies (w : world) (sent : list ReplyMessageRequest) : world :=
  {| search_records := search_records w; session := session w;
     flashes := flashes w; replies := replies w ++ sent;
     app_log := app_log w; clock_reads := clock_reads w |}.

(** The example environment with a reply call that always fails. *)
Definition example_env_reply_fails : env :=
  {| unicode := unicode example_env;
     clock := clock example_env;
     yf_download := yf_download example_env;
     signature_validate := signature_validate example_env;
     parse_events := parse_events example_env;
     reply_message_with_http_info := fun _ => Raised ApiException |}.

(** The number a text of ASCII digits writes. *)
Definition digits_number (s : str) : Z :=
  fold_left (fun acc c => (10 * acc + digit c)%Z) s 0%Z.

(** [zero_padded width n] is [width] ASCII digits that write [n]. *)
Definition is_padded (width : nat) (n : Z) : bool :=
  let text := zero_padded width n in
  (List.length text =? width)%nat
  && forallb (in_range (ord "0") (ord "9")) text
  && (digits_number text =? n)%Z.

(** [check] holds of the [count] integers from [start] on. *)
Fixpoint all_from (check : Z -> bool) (start : Z) (count : nat) : bool :=
  match count with
  | O => true
  | S count' => check start && all_from check (start + 1)%Z count'
  end.

(* ================================================================== *)
(** * Properties *)

(** ** Strings *)

Lemma str_eqb_eq (a b : str) : str_eqb a b = true <-> a = b.
Proof.
  revert b; induction a as [|x a IH]; intros [|y b]; simpl; split;
    try congruence; try reflexivity.
  - intros H. apply andb_true_iff in H as [H1 H2].
    apply N.eqb_eq in H1. apply IH in H2. congruence.
  - intros H. injection H as -> ->.
    apply andb_true_iff. split; [apply N.eqb_refl | now apply IH].
Qed.


Lemma startswith_spec (s p : str) :
  startswith s p = true <-> exists b, s = p ++ b.
Proof.
  revert s; induction p as [|c p IH]; intros s; simpl.
  - split; [intros _; now exists s | reflexivity].
  - destruct s as [|d s].
    + split; [discriminate | intros [b Hb]; discriminate].
    + unfold char_eqb. rewrite andb_true_iff, N.eqb_eq, IH. split.
      * intros [-> [b ->]]. now exists b.
      * intros [b Hb]. injection Hb as -> ->. split; [reflexivity | now exists b].
Qed.

Lemma contains_spec (sub s : str) :
  contains sub s = true <-> exists a b, s = a ++ sub ++ b.
Proof.
  induction s as [|d s IH].
  - simpl. rewrite orb_false_r, startswith_spec. split.
    + intros [b Hb]. now exists [], b.
    + intros [a [b Hab]]. exists b. destruct a; [exact Hab | discriminate].
  - cbn [contains]. rewrite orb_true_iff, startswith_spec, IH. split.
    + intros [[b Hb] | [a [b Hab]]].
      * now exists [], b.
      * exists (d :: a), b. simpl. now f_equal.
    + intros [[|x a] [b Hab]].
      * left. now exists b.
      * right. injection Hab as -> ->. now exists a, b.
Qed.

(** C5. The ticker-format check accepts [t] exactly when [t] contains
    [.TW] or [.TWO] as a substring at any position (case-sensitive, not
    anchored to the end): [2330.TW] and [FOO.TWOBAR] are accepted, [2330]
    and the lower-case [2330.tw] are rejected. *)
Theorem ticker_check_is_substring_match :
  (forall t : str,
      is_valid_ticker_suffix t = true <->
      (exists a b, t = a ++ lit ".TW" ++ b) \/
      (exists a b, t = a ++ lit ".TWO" ++ b)) /\
  is_valid_ticker_suffix (lit "2330.TW") = true /\
  is_valid_ticker_suffix (lit "2330") = false /\
  is_valid_ticker_suffix (lit "FOO.TWOBAR") = true /\
  is_valid_ticker_suffix (lit "2330.tw") = false.
Proof.
  split; [|repeat split; reflexivity].
  intros t. unfold is_valid_ticker_suffix.
  now rewrite orb_true_iff, !contains_spec.
Qed.


(** ** The monad *)

Lemma bind_returned {A B : Type} (m : M A) (f : A -> M B) (w w' : world) (a : A) :
  m w = (Returned a, w') -> bind m f w = f a w'.
Proof. intros H. unfold bind. now rewrite H. Qed.

Lemma bind_raised {A B : Type} (m : M A) (f : A -> M B) (w w' : world) (e : exn) :
  m w = (Raised e, w') -> bind m f w = (Raised e, w').
Proof. intros H. unfold bind. now rewrite H. Qed.

Lemma keeps_ret {A : Type} (a : A) : keeps_store (ret a).
Proof. now intros w. Qed.

Lemma keeps_raise {A : Type} (e : exn) : keeps_store (@raise A e).
Proof. now intros w. Qed.

Lemma keeps_lift {A : Type} (o : outcome A) : keeps_store (lift o).
Proof. now intros w. Qed.

Lemma keeps_flash (msg : flash_msg) : keeps_store (flash msg).
Proof. now intros w. Qed.

Lemma keeps_logger_info (entry : log_entry) : keeps_store (logger_info entry).
Proof. now intros w. Qed.

Lemma keeps_datetime_now (E : env) : keeps_store (datetime_now E).
Proof. now intros w. Qed.

Lemma keeps_query_all : keeps_store query_all.
Proof. now intros w. Qed.

Lemma keeps_query_first (t : option str) :
  keeps_store (query_filter_by_ticker_first t).
Proof. now intros w. Qed.

Lemma keeps_handle_message (E : env) (token text : str) :
  keeps_store (handle_message E token text).
Proof. now intros w. Qed.

Lemma keeps_bind {A B : Type} (m : M A) (f : A -> M B) :
  keeps_store m -> (forall a, keeps_store (f a)) -> keeps_store (bind m f).
Proof.
  intros Hm Hf w. unfold bind. specialize (Hm w).
  destruct (m w) as [[a|e] w1]; cbn in *.
  - destruct (Hf a w1) as [H1 H2]. destruct Hm as [H3 H4]. split; congruence.
  - exact Hm.
Qed.

Lemma keeps_try_except {A : Type} (m h : M A) (catches : exn -> bool) :
  keeps_store m -> keeps_store h -> keeps_store (try_except m catches h).
Proof.
  intros Hm Hh w. unfold try_except. specialize (Hm w).
  destruct (m w) as [[a|e] w1]; cbn in *; [exact Hm|].
  destruct (catches e); [|exact Hm].
  destruct (Hh w1) as [H1 H2]. destruct Hm as [H3 H4]. split; congruence.
Qed.

Create HintDb keeps.
#[local] Hint Resolve keeps_ret keeps_raise keeps_lift keeps_flash
  keeps_logger_info keeps_datetime_now keeps_query_all keeps_query_first
  keeps_handle_message : keeps.

Ltac keeps_step :=
  match goal with
  | |- keeps_store (bind _ _) => apply keeps_bind; [|intros ?]
  | |- keeps_store (try_except _ _ _) => apply keeps_try_except
  | |- keeps_store (if ?b then _ else _) => destruct b
  | |- keeps_store (match ?x with _ => _ end) => destruct x
  | |- keeps_store _ => solve [auto with keeps]
  end.

Lemma keeps_expect_str (value : option field_value) :
  keeps_store (expect_str value).
Proof. destruct value as [[s|o]|]; cbn [expect_str]; auto with keeps. Qed.

Lemma keeps_home (E : env) (req : request) : keeps_store (home E req).
Proof.
  unfold home. repeat first [apply keeps_expect_str | keeps_step].
Qed.

Lemma keeps_search_price_range (E : env) (req : request) :
  keeps_store (search_price_range E req).
Proof. unfold search_price_range. repeat keeps_step. Qed.

Lemma keeps_dispatch_events (E : env) (events : list webhook_event) :
  keeps_store (dispatch_events E events).
Proof.
  induction events as [|ev events IH]; cbn [dispatch_events].
  - auto with keeps.
  - apply keeps_bind; [|intros _; exact IH]. repeat keeps_step.
Qed.

Lemma keeps_callback (E : env) (req : request) : keeps_store (callback E req).
Proof.
  unfold callback, handler_handle, abort.
  repeat first [apply keeps_dispatch_events | keeps_step].
Qed.

(** ** The price-display route *)

Lemma find_none_existsb (t : str) (rows : list SearchRecord.t) :
  find (has_ticker t) rows = None -> existsb (has_ticker t) rows = false.
Proof.
  induction rows as [|r rows IH]; cbn; [reflexivity|].
  destruct (has_ticker t r); [discriminate | exact IH].
Qed.

Lemma add_commit (t : str) (w : world) :
  session w = [] ->
  find (has_ticker t) (search_records w) = None ->
  (session_add t ;;; session_commit) w =
  (Returned tt,
   set_store
     (search_records w ++
      [{| SearchRecord.id := next_id (search_records w);
          SearchRecord.ticker := t |}]) [] w).
Proof.
  intros Hs Hf. unfold bind, session_add, session_commit. cbn.
  rewrite Hs. cbn. now rewrite (find_none_existsb _ _ Hf).
Qed.

(** What [search_price] does once the provider has returned a frame with
    rows: it stores the ticker when no record has it, and renders. *)
Lemma search_price_found (E : env) (t : str) (req : request) (w w1 : world)
    (b e : str) (df : DataFrame) :
  session w = [] ->
  search_price_range E req w = (Returned (b, e), w1) ->
  yf_download E t b e = Returned df ->
  df <> [] ->
  exists w2,
    search_price E t req w =
      (Returned (RenderPrice (build_figure t df) "chart"), w2) /\
    session w2 = [] /\
    search_records w2 =
      match find (has_ticker t) (search_records w) with
      | Some _ => search_records w
      | None =>
          search_records w ++
          [{| SearchRecord.id := next_id (search_records w);
              SearchRecord.ticker := t |}]
      end.
Proof.
  intros Hs Hrange Hdl Hdf.
  destruct (keeps_search_price_range E req w) as [Hrows Hsess].
  rewrite Hrange in Hrows, Hsess. cbn in Hrows, Hsess.
  unfold search_price. rewrite (bind_returned _ _ _ _ _ Hrange). cbn beta iota.
  unfold lift at 1. unfold bind at 1. rewrite Hdl.
  destruct df as [|row df]; [congruence|]. cbn [df_empty].
  unfold bind at 1. unfold query_filter_by_ticker_first at 1. cbn beta iota.
  rewrite Hrows.
  destruct (find (has_ticker t) (search_records w)) as [r|] eqn:Hfind.
  - eexists. split; [reflexivity|]. cbn. split; congruence.
  - unfold bind at 1. rewrite add_commit; [|congruence|congruence].
    eexists. split; [reflexivity|]. cbn. rewrite Hrows. auto.
Qed.

(** Whatever a request to the price route meets, the table afterwards is
    the table before, or the table before with one new record for a
    ticker that was not stored. *)
Lemma search_price_store (E : env) (t : str) (req : request) (w : world) :
  session w = [] ->
  search_records (snd (search_price E t req w)) = search_records w \/
  (find (has_ticker t) (search_records w) = None /\
   search_records (snd (search_price E t req w)) =
     search_records w ++
     [{| SearchRecord.id := next_id (search_records w);
         SearchRecord.ticker := t |}]).
Proof.
  intros Hs.
  destruct (keeps_search_price_range E req w) as [Hrows Hsess].
  destruct (search_price_range E req w) as [[[b e]|x] w1] eqn:Hrange;
    cbn in Hrows, Hsess.
  - destruct (yf_download E t b e) as [df|x] eqn:Hdl.
    + destruct df as [|row df].
      * left. unfold search_price. rewrite (bind_returned _ _ _ _ _ Hrange).
        cbn beta iota. unfold lift at 1. unfold bind at 1. rewrite Hdl.
        cbn. exact Hrows.
      * assert (Hne : row :: df <> []) by discriminate.
        destruct (search_price_found E t req w w1 b e _ Hs Hrange Hdl Hne)
          as [w2 [Heq [_ Hrec]]].
        rewrite Heq. cbn [snd].
        destruct (find (has_ticker t) (search_records w)); auto.
    + left. unfold search_price. rewrite (bind_returned _ _ _ _ _ Hrange).
      cbn beta iota. unfold lift at 1. unfold bind at 1. rewrite Hdl.
      cbn. exact Hrows.
  - left. unfold search_price. rewrite (bind_raised _ _ _ _ _ Hrange).
    cbn. exact Hrows.
Qed.

(** ** The delete route *)

(** A column whose values are pairwise distinct identifies the rows. *)
Lemma unique_column_inj {K : Type} (column : SearchRecord.t -> K)
    (rows : list SearchRecord.t) (r1 r2 : SearchRecord.t) :
  NoDup (map column rows) ->
  In r1 rows -> In r2 rows -> column r1 = column r2 -> r1 = r2.
Proof.
  induction rows as [|r rows IH]; cbn; [tauto|].
  intros Hnd H1 H2 Hcol. apply NoDup_cons_iff in Hnd as [Hfresh Hnd].
  destruct H1 as [->|H1], H2 as [->|H2]; auto; exfalso; apply Hfresh.
  - rewrite Hcol. now apply in_map.
  - rewrite <- Hcol. now apply in_map.
Qed.

(** Dropping rows keeps a column's values pairwise distinct. *)
Lemma unique_column_filter {K : Type} (column : SearchRecord.t -> K)
    (keep : SearchRecord.t -> bool) (rows : list SearchRecord.t) :
  NoDup (map column rows) -> NoDup (map column (filter keep rows)).
Proof.
  induction rows as [|r rows IH]; cbn; [auto|].
  intros Hnd. apply NoDup_cons_iff in Hnd as [Hfresh Hnd].
  destruct (keep r); cbn; [|now apply IH].
  apply NoDup_cons; [|now apply IH].
  intros Hin. apply Hfresh. apply in_map_iff in Hin as [r' [Hr' Hin]].
  apply filter_In in Hin. rewrite <- Hr'. apply in_map. tauto.
Qed.

Lemma has_ticker_true (t : str) (r : SearchRecord.t) :
  has_ticker t r = true <-> SearchRecord.ticker r = t.
Proof. unfold has_ticker. apply str_eqb_eq. Qed.

Lemma find_none_filter (t : str) (rows : list SearchRecord.t) :
  find (has_ticker t) rows = None ->
  filter (fun r => negb (has_ticker t r)) rows = rows.
Proof.
  induction rows as [|r rows IH]; cbn; [reflexivity|].
  destruct (has_ticker t r); [discriminate|]. cbn. intros H. now rewrite IH.
Qed.

(** In a table that meets its constraints, deleting by the key of the
    record found for [t] deletes exactly the records whose ticker is [t]. *)
Lemma delete_by_id_is_delete_by_ticker (t : str) (rows : list SearchRecord.t)
    (r : SearchRecord.t) :
  store_ok rows ->
  find (has_ticker t) rows = Some r ->
  filter (fun r' => negb (SearchRecord.id r' =? SearchRecord.id r)%Z) rows =
  filter (fun r' => negb (has_ticker t r')) rows.
Proof.
  intros [Hticker Hid] Hfind.
  apply find_some in Hfind as [Hin Ht]. apply has_ticker_true in Ht.
  apply filter_ext_in. intros r' Hin'. f_equal.
  destruct (Z.eqb_spec (SearchRecord.id r') (SearchRecord.id r)) as [Heq|Hne].
  - assert (r' = r)
      by (apply (unique_column_inj SearchRecord.id rows r' r Hid Hin' Hin Heq)).
    subst r'.
    symmetry. now apply has_ticker_true.
  - destruct (has_ticker t r') eqn:Ht'; [|reflexivity].
    apply has_ticker_true in Ht'.
    assert (r' = r)
      by (apply (unique_column_inj SearchRecord.ticker rows r' r Hticker Hin' Hin);
          congruence).
    subst r'. contradiction.
Qed.

Lemma delete_record_effect (E : env) (req : request) (w : world) :
  world_ok w ->
  exists w',
    delete_record E req w = (Returned (Redirect EpHome), w') /\
    session w' = [] /\
    flashes w' = flashes w /\
    search_records w' =
      match dict_get "ticker" (args req) with
      | Some t => filter (fun r => negb (has_ticker t r)) (search_records w)
      | None => search_records w
      end.
Proof.
  intros [Hok Hs]. unfold delete_record.
  unfold bind at 1. unfold query_filter_by_ticker_first. cbn beta iota.
  destruct (dict_get "ticker" (args req)) as [t|].
  - destruct (find (has_ticker t) (search_records w)) as [r|] eqn:Hfind.
    + unfold bind, session_delete, session_commit, ret. cbn. rewrite Hs. cbn.
      eexists. split; [reflexivity|]. cbn.
      repeat split. now apply delete_by_id_is_delete_by_ticker.
    + unfold bind, ret. cbn. eexists. split; [reflexivity|].
      repeat split; auto. symmetry. now apply find_none_filter.
  - unfold bind, ret. cbn. eexists. split; [reflexivity|]. auto.
Qed.

(** ** The invariant of the table *)

Lemma next_id_above (rows : list SearchRecord.t) (r : SearchRecord.t) :
  In r rows -> (SearchRecord.id r < next_id rows)%Z.
Proof.
  unfold next_id. induction rows as [|a rows IH]; cbn; [tauto|].
  intros [->|Hin]; [lia|]. specialize (IH Hin). lia.
Qed.

Lemma store_ok_insert (t : str) (rows : list SearchRecord.t) :
  store_ok rows ->
  find (has_ticker t) rows = None ->
  store_ok (rows ++ [{| SearchRecord.id := next_id rows;
                        SearchRecord.ticker := t |}]).
Proof.
  intros [Hticker Hid] Hfind. unfold store_ok. rewrite !map_app. cbn.
  split; apply NoDup_app; auto; try (constructor; [cbn; tauto | constructor]).
  - intros x Hx [<-|[]]. apply in_map_iff in Hx as [r [Hr Hin]].
    apply (find_none _ _ Hfind) in Hin. apply has_ticker_true in Hr. congruence.
  - intros x Hx [<-|[]]. apply in_map_iff in Hx as [r [Hr Hin]].
    apply next_id_above in Hin. lia.
Qed.

Lemma store_ok_filter (p : SearchRecord.t -> bool) (rows : list SearchRecord.t) :
  store_ok rows -> store_ok (filter p rows).
Proof. intros [H1 H2]. split; now apply unique_column_filter. Qed.

Lemma dispatch_world_ok (E : env) (rt : route) (req : request) (w : world) :
  world_ok w -> world_ok (snd (full_dispatch_request E rt req w)).
Proof.
  intros Hw. pose proof Hw as [Hok Hs]. unfold full_dispatch_request.
  destruct (view_allows rt (method req)).
  2:{ destruct (method req); exact Hw. }
  assert (Hview : store_ok (search_records (snd (view E rt req w)))).
  { destruct rt as [|t| |]; cbn [view].
    - destruct (keeps_home E req w) as [-> _]. exact Hok.
    - destruct (search_price_store E t req w Hs) as [->|[Hfind ->]];
        [exact Hok | now apply store_ok_insert].
    - destruct (delete_record_effect E req w Hw) as [w' [-> [_ [_ Hrows]]]].
      cbn [snd]. rewrite Hrows.
      destruct (dict_get "ticker" (args req)); [now apply store_ok_filter | exact Hok].
    - destruct (keeps_callback E req w) as [-> _]. exact Hok. }
  destruct (view E rt req w) as [[r|[]] w']; cbn in *; split; auto.
Qed.

(** Every world the application reaches has a table that meets its
    constraints and an empty session. *)
Lemma reachable_world_ok (w : world) : reachable w -> world_ok w.
Proof.
  induction 1 as [|E w rt req _ IH].
  - repeat split; constructor.
  - now apply dispatch_world_ok.
Qed.

(** C2. A GET of the price-display route for which the provider returns
    an empty series answers with a redirect to the home route, flashes the
    not-found message and leaves the table of search records as it was. *)
Theorem search_price_empty_series (E : env) (ticker : str) (req : request)
    (w w1 : world) (begin_date end_date : str) :
  method req = GET ->
  search_price_range E req w = (Returned (begin_date, end_date), w1) ->
  yf_download E ticker begin_date end_date = Returned [] ->
  fst (full_dispatch_request E (RoutePrice ticker) req w) =
    {| status := 302; payload := Some (Redirect EpHome) |} /\
  flashes (snd (full_dispatch_request E (RoutePrice ticker) req w)) =
    flashes w ++ [MsgNotFound] /\
  search_records (snd (full_dispatch_request E (RoutePrice ticker) req w)) =
    search_records w.
Proof.
  intros Hm Hrange Hdl.
  unfold full_dispatch_request. rewrite Hm. cbn [view_allows view].
  unfold search_price.
  rewrite (bind_returned _ _ _ _ _ Hrange). cbn beta iota.
  unfold lift at 1. unfold bind at 1. rewrite Hdl. cbn.
  destruct (keeps_search_price_range E req w) as [Hrows _].
  rewrite Hrange in Hrows. cbn in Hrows. rewrite Hrows.
  assert (Hfl : flashes w1 = flashes w).
  { revert Hrange. unfold search_price_range.
    destruct (dict_get "begin_date" (args req)), (dict_get "end_date" (args req));
      unfold bind, ret, lift, datetime_now; cbn;
      repeat match goal with
             | |- context [match ?x with Returned _ => _ | Raised _ => _ end] =>
                 destruct x
             end; intros H; inversion H; subst; cbn; auto. }
  rewrite Hfl. auto.
Qed.

Lemma search_price_empty_series_witness :
  fst (full_dispatch_request example_env (RoutePrice (lit "9999.TW"))
         (example_request GET [] [] []) initial_world) =
    {| status := 302; payload := Some (Redirect EpHome) |} /\
  flashes (snd (full_dispatch_request example_env (RoutePrice (lit "9999.TW"))
                  (example_request GET [] [] []) initial_world)) =
    flashes initial_world ++ [MsgNotFound] /\
  search_records
    (snd (full_dispatch_request example_env (RoutePrice (lit "9999.TW"))
            (example_request GET [] [] []) initial_world)) =
    search_records initial_world.
Proof.
  eapply (search_price_empty_series example_env (lit "9999.TW")
            (example_request GET [] [] []) initial_world).
  - reflexivity.
  - vm_compute. reflexivity.
  - reflexivity.
Defined.

(** ** Uniqueness of tickers and the insert-if-absent step *)

Lemma count_ticker_absent (t : str) (rows : list SearchRecord.t) :
  find (has_ticker t) rows = None -> count_ticker t rows = 0%nat.
Proof.
  unfold count_ticker. induction rows as [|r rows IH]; cbn; [reflexivity|].
  destruct (has_ticker t r); [discriminate | exact IH].
Qed.


Lemma count_ticker_app (t : str) (rows rows' : list SearchRecord.t) :
  count_ticker t (rows ++ rows') = (count_ticker t rows + count_ticker t rows')%nat.
Proof. unfold count_ticker. now rewrite filter_app, length_app. Qed.




Lemma count_ticker_deleted (t : str) (rows : list SearchRecord.t) :
  count_ticker t (filter (fun r => negb (has_ticker t r)) rows) = 0%nat.
Proof.
  unfold count_ticker. induction rows as [|r rows IH]; cbn; [reflexivity|].
  destruct (has_ticker t r) eqn:Hr; cbn; [exact IH|]. now rewrite Hr.
Qed.

(** C7. A GET of the delete route with a [ticker] parameter answers with
    a redirect to the home route whether or not a record matches; the
    records holding the ticker are gone from the table and all others
    stay; when none matches, the world is left as it was. *)
Theorem delete_route_removes_record (E : env) (req : request) (w : world)
    (t : str) :
  reachable w ->
  method req = GET ->
  dict_get "ticker" (args req) = Some t ->
  fst (full_dispatch_request E RouteDelete req w) =
    {| status := 302; payload := Some (Redirect EpHome) |} /\
  search_records (snd (full_dispatch_request E RouteDelete req w)) =
    filter (fun r => negb (has_ticker t r)) (search_records w) /\
  count_ticker t (search_records (snd (full_dispatch_request E RouteDelete req w)))
    = 0%nat /\
  (find (has_ticker t) (search_records w) = None ->
   snd (full_dispatch_request E RouteDelete req w) = w).
Proof.
  intros Hreach Hm Ht. pose proof (reachable_world_ok w Hreach) as Hw.
  unfold full_dispatch_request. rewrite Hm. cbn [view_allows view].
  destruct (delete_record_effect E req w Hw) as [w' [Heq [Hs' [_ Hrows]]]].
  rewrite Ht in Hrows.
  split; [now rewrite Heq|]. split; [now rewrite Heq|]. split.
  - rewrite Heq. cbn. rewrite Hrows. apply count_ticker_deleted.
  - intros Hnone. clear Heq Hrows Hs' w'.
    unfold delete_record, bind, query_filter_by_ticker_first, ret.
    rewrite Ht, Hnone. cbn. destruct Hw as [_ Hs].
    destruct w; cbn in *. unfold session_remove, set_store. cbn. now rewrite Hs.
Qed.

Lemma delete_route_removes_record_witness :
  count_ticker (lit "2330.TW") (search_records example_world_with_record)
    = 1%nat /\
  fst (full_dispatch_request example_env RouteDelete
         (example_request GET [("ticker"%string, lit "2330.TW")] [] [])
         example_world_with_record) =
    {| status := 302; payload := Some (Redirect EpHome) |} /\
  search_records
    (snd (full_dispatch_request example_env RouteDelete
            (example_request GET [("ticker"%string, lit "2330.TW")] [] [])
            example_world_with_record)) = [].
Proof.
  destruct (delete_route_removes_record example_env
              (example_request GET [("ticker"%string, lit "2330.TW")] [] [])
              example_world_with_record (lit "2330.TW")
              (reachable_request example_env initial_world
                 (RoutePrice (lit "2330.TW")) (example_request GET [] [] [])
                 reachable_initial)
              eq_refl eq_refl)
    as [Hresp [Hrows _]].
  split; [vm_compute; reflexivity|]. split; [exact Hresp|].
  rewrite Hrows. vm_compute. reflexivity.
Defined.

(** ** The webhook *)

Lemma headers_getitem_signature (req : request) :
  headers_getitem req "X-Line-Signature" =
  match dict_get "HTTP_X_LINE_SIGNATURE" (environ req) with
  | Some v => Returned v
  | None => Raised KeyError
  end.
Proof. reflexivity. Qed.

(** [callback] on a request that carries the signature header. *)
Lemma callback_with_header (E : env) (req : request) (w : world) (signature : str) :
  dict_get "HTTP_X_LINE_SIGNATURE" (environ req) = Some signature ->
  callback E req w =
  bind (try_except (handler_handle E (data req) signature)
          is_InvalidSignatureError
          (logger_info LogInvalidSignature ;;; abort 400))
       (fun _ => ret (PlainText "OK"))
       (snd (logger_info (LogRequestBody (data req)) w)).
Proof.
  intros H. unfold callback. rewrite headers_getitem_signature, H. reflexivity.
Qed.

Lemma callback_without_header (E : env) (req : request) (w : world) :
  dict_get "HTTP_X_LINE_SIGNATURE" (environ req) = None ->
  callback E req w = (Raised KeyError, w).
Proof.
  intros H. unfold callback. rewrite headers_getitem_signature, H. reflexivity.
Qed.

(** C8. On a POST to the webhook route whose signature does not verify,
    the answer is HTTP 400, no reply is sent, the table is untouched and
    the log gains the request body and the invalid-signature entry; and
    whenever a request to the route sends a reply, its signature header
    was present and verified. *)
Theorem callback_invalid_signature (E : env) (req : request) (w : world) :
  method req = POST ->
  (forall signature : str,
      headers_getitem req "X-Line-Signature" = Returned signature ->
      signature_validate E (data req) signature = false ->
      fst (full_dispatch_request E RouteCallback req w) =
        {| status := 400; payload := None |} /\
      replies (snd (full_dispatch_request E RouteCallback req w)) = replies w /\
      search_records (snd (full_dispatch_request E RouteCallback req w)) =
        search_records w /\
      app_log (snd (full_dispatch_request E RouteCallback req w)) =
        app_log w ++ [LogRequestBody (data req); LogInvalidSignature]) /\
  (replies (snd (full_dispatch_request E RouteCallback req w)) <> replies w ->
   exists signature : str,
     headers_getitem req "X-Line-Signature" = Returned signature /\
     signature_validate E (data req) signature = true).
Proof.
  intros Hm. unfold full_dispatch_request. rewrite Hm. cbn [view_allows view].
  rewrite headers_getitem_signature.
  destruct (dict_get "HTTP_X_LINE_SIGNATURE" (environ req)) as [sig|] eqn:Hh.
  - rewrite (callback_with_header E req w sig Hh).
    destruct (signature_validate E (data req) sig) eqn:Hv.
    + split; [|intros _; now exists sig].
      intros signature Hsig Hbad. congruence.
    + assert (Hrun :
        bind (try_except (handler_handle E (data req) sig)
                is_InvalidSignatureError
                (logger_info LogInvalidSignature ;;; abort 400))
             (fun _ => ret (PlainText "OK"))
             (snd (logger_info (LogRequestBody (data req)) w)) =
        (Raised (HTTPException 400),
         snd (logger_info LogInvalidSignature
                (snd (logger_info (LogRequestBody (data req)) w))))).
      { unfold bind, try_except, handler_handle. rewrite Hv. reflexivity. }
      rewrite Hrun. cbn. split.
      * intros signature Hsig _. repeat split. now rewrite <- app_assoc.
      * intros Hne. now contradiction Hne.
  - rewrite (callback_without_header E req w Hh). cbn. split.
    + intros signature Hsig. discriminate.
    + intros Hne. now contradiction Hne.
Qed.

Lemma callback_invalid_signature_witness :
  fst (full_dispatch_request example_env RouteCallback
         (example_request POST [] []
            [("HTTP_X_LINE_SIGNATURE"%string, lit "forged")])
         initial_world) =
    {| status := 400; payload := None |} /\
  replies (snd (full_dispatch_request example_env RouteCallback
                  (example_request POST [] []
                     [("HTTP_X_LINE_SIGNATURE"%string, lit "forged")])
                  initial_world)) = [].
Proof.
  destruct (callback_invalid_signature example_env
              (example_request POST [] []
                 [("HTTP_X_LINE_SIGNATURE"%string, lit "forged")])
              initial_world eq_refl) as [Hbad _].
  destruct (Hbad (lit "forged") eq_refl eq_refl) as [Hstatus [Hreplies _]].
  split; [exact Hstatus | exact Hreplies].
Defined.

(** C9. On a POST to the webhook route without the [X-Line-Signature]
    header, reading the header raises [KeyError] before anything else
    happens; nothing catches it, so the answer is the generic server error
    500 and the world is unchanged.  An answer of 400 from the route is
    possible only when the header is present. *)
Theorem callback_missing_header (E : env) (req : request) (w : world) :
  method req = POST ->
  (dict_get "HTTP_X_LINE_SIGNATURE" (environ req) = None ->
   headers_getitem req "X-Line-Signature" = Raised KeyError /\
   callback E req w = (Raised KeyError, w) /\
   fst (full_dispatch_request E RouteCallback req w) =
     {| status := 500; payload := None |} /\
   replies (snd (full_dispatch_request E RouteCallback req w)) = replies w /\
   app_log (snd (full_dispatch_request E RouteCallback req w)) = app_log w) /\
  (status (fst (full_dispatch_request E RouteCallback req w)) = 400%Z ->
   exists signature : str,
     dict_get "HTTP_X_LINE_SIGNATURE" (environ req) = Some signature /\
     headers_getitem req "X-Line-Signature" = Returned signature).
Proof.
  intros Hm. unfold full_dispatch_request. rewrite Hm. cbn [view_allows view].
  rewrite headers_getitem_signature.
  destruct (dict_get "HTTP_X_LINE_SIGNATURE" (environ req)) as [sig|] eqn:Hh.
  - split; [discriminate|]. intros _. now exists sig.
  - rewrite (callback_without_header E req w Hh). cbn. split.
    + intros _. repeat split.
    + discriminate.
Qed.

Lemma callback_missing_header_witness :
  callback example_env (example_request POST [] [] []) initial_world =
    (Raised KeyError, initial_world) /\
  fst (full_dispatch_request example_env RouteCallback
         (example_request POST [] [] []) initial_world) =
    {| status := 500; payload := None |}.
Proof.
  destruct (callback_missing_header example_env
              (example_request POST [] [] []) initial_world eq_refl)
    as [Hmissing _].
  destruct (Hmissing eq_refl) as [_ [Hraise [Hstatus _]]].
  split; [exact Hraise | exact Hstatus].
Defined.

(** ** The moving averages *)

Lemma count_valid_app (a b : list float) :
  count_valid (a ++ b) = (count_valid a + count_valid b)%Z.
Proof.
  induction a as [|v a IH]; cbn [count_valid app]; [reflexivity|].
  rewrite IH. lia.
Qed.

Lemma count_negative_app (a b : list float) :
  count_negative (a ++ b) = (count_negative a + count_negative b)%Z.
Proof.
  induction a as [|v a IH]; cbn [count_negative app]; [reflexivity|].
  rewrite IH. lia.
Qed.

Lemma fold_add_counts (l : list float) (st : mean_state) :
  nobs (fold_left add_mean l st) = (nobs st + count_valid l)%Z /\
  neg_ct (fold_left add_mean l st) = (neg_ct st + count_negative l)%Z.
Proof.
  revert st. induction l as [|v l IH]; intros st;
    cbn [fold_left count_valid count_negative]; [lia|].
  destruct (IH (add_mean st v)) as [-> ->]. unfold add_mean.
  destruct (v =? v)%float; cbn [nobs neg_ct andb]; [|lia].
  destruct (signbit v); lia.
Qed.

Lemma fold_remove_counts (l : list float) (st : mean_state) :
  nobs (fold_left remove_mean l st) = (nobs st - count_valid l)%Z /\
  neg_ct (fold_left remove_mean l st) = (neg_ct st - count_negative l)%Z.
Proof.
  revert st. induction l as [|v l IH]; intros st;
    cbn [fold_left count_valid count_negative]; [lia|].
  destruct (IH (remove_mean st v)) as [-> ->]. unfold remove_mean.
  destruct (v =? v)%float; cbn [nobs neg_ct andb]; [|lia].
  destruct (signbit v); lia.
Qed.

Lemma slice_split {A : Type} (a b c : nat) (l : list A) :
  (a <= b)%nat -> (b <= c)%nat -> slice a c l = slice a b l ++ slice b c l.
Proof.
  intros Hab Hbc. unfold slice.
  replace (c - a)%nat with ((b - a) + (c - b))%nat by lia.
  assert (Hskip : skipn b l = skipn (b - a) (skipn a l))
    by (rewrite skipn_skipn; f_equal; lia).
  rewrite Hskip. clear Hskip.
  generalize (skipn a l) as t, (b - a)%nat as n, (c - b)%nat as m.
  intros t n; revert t. induction n as [|n IH]; intros [|x t] m; cbn;
    try reflexivity.
  - now rewrite firstn_nil.
  - now rewrite IH.
Qed.

Lemma slice_length {A : Type} (a b : nat) (l : list A) :
  (b <= List.length l)%nat -> List.length (slice a b l) = (b - a)%nat.
Proof.
  intros H. unfold slice. rewrite length_firstn, length_skipn. lia.
Qed.

Lemma slice_nth {A : Type} (a b : nat) (l : list A) (k : nat) (d : A) :
  (k < b - a)%nat -> nth k (slice a b l) d = nth (a + k) l d.
Proof.
  intros Hk. unfold slice. rewrite nth_firstn.
  destruct (Nat.ltb_spec k (b - a)); [|lia]. apply nth_skipn.
Qed.

Lemma slice_none {A : Type} (a b : nat) (l : list A) :
  (b <= a)%nat -> slice a b l = [].
Proof.
  intros H. unfold slice. replace (b - a)%nat with 0%nat by lia. reflexivity.
Qed.

Lemma slice_one {A : Type} (a : nat) (l : list A) (d : A) :
  (a < List.length l)%nat -> slice a (a + 1) l = [nth a l d].
Proof.
  intros H. apply (nth_ext _ _ d d).
  - rewrite slice_length by lia. cbn. lia.
  - intros k Hk. rewrite slice_length in Hk by lia.
    rewrite slice_nth by lia.
    replace k with 0%nat by lia. now rewrite Nat.add_0_r.
Qed.

(** The state after row [i] counts the observations of row [i]'s window
    and the negative ones among them, whether it was set up afresh or
    slid from row [i - 1]. *)
Lemma roll_step_counts (values : list float) (window i : nat)
    (st : mean_state) :
  (i = 0%nat \/
   (nobs st = count_valid (window_of window values (i - 1)) /\
    neg_ct st = count_negative (window_of window values (i - 1)))) ->
  nobs (roll_step values window i st) =
    count_valid (window_of window values i) /\
  neg_ct (roll_step values window i st) =
    count_negative (window_of window values i).
Proof.
  intros Hst. unfold roll_step, window_of.
  destruct ((i =? 0) || (window_end (i - 1) <=? window_start window i))%nat
    eqn:Hfresh.
  - destruct (fold_add_counts
                (slice (window_start window i) (window_end i) values)
                (setup values (window_start window i))) as [-> ->].
    cbn [setup nobs neg_ct]. lia.
  - apply orb_false_iff in Hfresh as [Hi Hlt].
    apply Nat.eqb_neq in Hi. apply Nat.leb_gt in Hlt.
    destruct Hst as [Hst|[Hn Hneg]]; [contradiction|].
    unfold window_of in Hn, Hneg. unfold window_start, window_end in *.
    set (r := slice (i - 1 + 1 - window) (i + 1 - window) values) in *.
    set (a := slice (i - 1 + 1) (i + 1) values) in *.
    set (mid := slice (i + 1 - window) (i - 1 + 1) values).
    assert (Hold : slice (i - 1 + 1 - window) (i - 1 + 1) values = r ++ mid)
      by (apply slice_split; lia).
    assert (Hnew : slice (i + 1 - window) (i + 1) values = mid ++ a)
      by (apply slice_split; lia).
    rewrite Hold in Hn, Hneg. rewrite Hnew.
    rewrite count_valid_app, count_negative_app in *.
    destruct (fold_add_counts a (fold_left remove_mean r st)) as [-> ->].
    destruct (fold_remove_counts r st) as [-> ->]. lia.
Qed.

Lemma calc_mean_few (minp : Z) (st : mean_state) :
  (nobs st < minp)%Z -> calc_mean minp st = nan.
Proof.
  intros H. unfold calc_mean.
  replace (minp <=? nobs st)%Z with false by (symmetry; apply Z.leb_gt; lia).
  reflexivity.
Qed.

Lemma roll_mean_loop_length (values : list float) (window : nat)
    (minp : Z) (todo i : nat) (st : mean_state) :
  List.length (roll_mean_loop values window minp todo i st) = todo.
Proof.
  revert i st. induction todo as [|todo IH]; intros i st; cbn; [reflexivity|].
  now rewrite IH.
Qed.

Lemma roll_mean_loop_nth (values : list float) (window : nat) (minp : Z)
    (todo i : nat) (st : mean_state) (k : nat) :
  (i = 0%nat \/
   (nobs st = count_valid (window_of window values (i - 1)) /\
    neg_ct st = count_negative (window_of window values (i - 1)))) ->
  (k < todo)%nat ->
  exists st' : mean_state,
    nth k (roll_mean_loop values window minp todo i st) nan =
      calc_mean minp st' /\
    nobs st' = count_valid (window_of window values (i + k)).
Proof.
  revert i st k. induction todo as [|todo IH]; intros i st k Hst Hk; [lia|].
  cbn [roll_mean_loop].
  pose proof (roll_step_counts values window i st Hst) as Hstep.
  destruct k as [|k].
  - cbn [nth]. rewrite Nat.add_0_r.
    exists (roll_step values window i st). split; [reflexivity | apply Hstep].
  - cbn [nth]. replace (i + S k)%nat with (S i + k)%nat by lia.
    apply IH; [|lia]. right. replace (S i - 1)%nat with i by lia. exact Hstep.
Qed.

Lemma rolling_mean_length (window : nat) (values : list float) :
  List.length (rolling_mean window values) = List.length values.
Proof.
  unfold rolling_mean, roll_mean, _prep_values.
  now rewrite roll_mean_loop_length, length_map.
Qed.

(** *** Missing values *)

Lemma prep_value_valid (v : float) :
  (_prep_value v =? _prep_value v)%float = present v.
Proof.
  unfold _prep_value, present.
  destruct (is_infinity v); cbn [negb].
  - now rewrite andb_false_r.
  - now rewrite andb_true_r.
Qed.

Lemma prep_value_present (v : float) : present v = true -> _prep_value v = v.
Proof.
  unfold _prep_value, present. intros H.
  apply andb_true_iff in H as [_ H].
  destruct (is_infinity v); [discriminate | reflexivity].
Qed.

Lemma prep_values_nth (values : list float) (j : nat) :
  nth j (_prep_values values) nan = _prep_value (nth j values nan).
Proof.
  unfold _prep_values.
  change nan with (_prep_value nan) at 1. apply map_nth.
Qed.

Lemma prep_values_slice (a b : nat) (values : list float) :
  slice a b (_prep_values values) = map _prep_value (slice a b values).
Proof. unfold slice, _prep_values. now rewrite skipn_map, firstn_map. Qed.

Lemma count_valid_prep (l : list float) :
  count_valid (map _prep_value l) =
  Z.of_nat (List.length (filter present l)).
Proof.
  induction l as [|v l IH]; cbn [map count_valid filter]; [reflexivity|].
  rewrite prep_value_valid, IH.
  destruct (present v); cbn [List.length]; lia.
Qed.

Lemma filter_present_all (l : list float) :
  forallb present l = true -> filter present l = l.
Proof.
  induction l as [|v l IH]; cbn [forallb filter]; [reflexivity|].
  intros H. apply andb_true_iff in H as [Hv Hl].
  now rewrite Hv, (IH Hl).
Qed.

Lemma filter_present_some (l : list float) :
  forallb present l = false ->
  (List.length (filter present l) < List.length l)%nat.
Proof.
  induction l as [|v l IH]; cbn [forallb filter]; [discriminate|].
  pose proof (filter_length_le present l) as Hle.
  destruct (present v); cbn [andb List.length]; [|lia].
  intros H. specialize (IH H). lia.
Qed.

(** With [min_periods] equal to the window size, the value of row [i] is
    [NaN] while the window reaches before the first row, and at every row
    whose window holds a missing value. *)
Lemma rolling_mean_undefined (window : nat) (values : list float) (i : nat) :
  (0 < window)%nat ->
  (i < List.length values)%nat ->
  (i + 1 <? window)%nat
    || negb (forallb present (slice (i + 1 - window) (i + 1) values)) = true ->
  nth i (rolling_mean window values) nan = nan.
Proof.
  intros Hw Hi Hcase. unfold rolling_mean, roll_mean.
  destruct (roll_mean_loop_nth (_prep_values values) window
              (Z.of_nat window) (List.length (_prep_values values)) 0
              (setup (_prep_values values) 0) i)
    as [st [Hnth Hnobs]].
  { now left. }
  { unfold _prep_values. now rewrite length_map. }
  rewrite Hnth. apply calc_mean_few. rewrite Hnobs. cbn [Nat.add].
  unfold window_of, window_start, window_end.
  rewrite prep_values_slice, count_valid_prep.
  set (l := slice (i + 1 - window) (i + 1) values) in *.
  assert (Hlen : List.length l = (i + 1 - (i + 1 - window))%nat)
    by (apply slice_length; lia).
  pose proof (filter_length_le present l) as Hle.
  apply orb_true_iff in Hcase as [Hshort|Hmiss].
  - apply Nat.ltb_lt in Hshort. lia.
  - apply negb_true_iff in Hmiss. apply filter_present_some in Hmiss. lia.
Qed.

(** *** The running sum *)

Lemma roll_step_first (values : list float) (window : nat) (st : mean_state) :
  (0 < window)%nat -> (0 < List.length values)%nat ->
  roll_step values window 0 st = running_state window values 0.
Proof.
  intros Hw Hlen. unfold roll_step, window_start, window_end.
  cbn [Nat.eqb orb Nat.add].
  replace (1 - window)%nat with 0%nat by lia.
  change 1%nat with (0 + 1)%nat.
  rewrite (slice_one 0 values nan Hlen). reflexivity.
Qed.

Lemma roll_step_next (values : list float) (window k : nat)
    (st : mean_state) :
  (2 <= window)%nat -> (S k < List.length values)%nat ->
  roll_step values window (S k) st =
  add_mean
    (if (window <=? S k)%nat
     then remove_mean st (nth (S k - window) values nan)
     else st)
    (nth (S k) values nan).
Proof.
  intros Hw Hlen. unfold roll_step, window_start, window_end.
  cbn [Nat.eqb orb].
  replace (S k - 1 + 1 <=? S k + 1 - window)%nat with false
    by (symmetry; apply Nat.leb_gt; lia).
  replace (S k - 1 + 1)%nat with (S k) by lia.
  rewrite (slice_one (S k) values nan Hlen). cbn [fold_left].
  destruct (Nat.leb_spec window (S k)) as [Hfull|Hshort].
  - replace (S k + 1 - window)%nat with ((S k - window) + 1)%nat by lia.
    rewrite (slice_one (S k - window) values nan) by lia. reflexivity.
  - rewrite slice_none by lia. reflexivity.
Qed.

(** From the second row on, a window of two rows or more is always slid:
    the loop of [roll_mean] goes through the running states. *)
Lemma roll_mean_loop_running (values : list float) (window : nat) (minp : Z)
    (todo i : nat) (st : mean_state) (k : nat) :
  (2 <= window)%nat ->
  (i + todo <= List.length values)%nat ->
  match i with
  | O => True
  | S j => st = running_state window values j
  end ->
  (k < todo)%nat ->
  nth k (roll_mean_loop values window minp todo i st) nan =
  calc_mean minp (running_state window values (i + k)).
Proof.
  intros Hw. revert i st k.
  induction todo as [|todo IH]; intros i st k Hlen Hst Hk; [lia|].
  cbn [roll_mean_loop].
  assert (Hstep : roll_step values window i st = running_state window values i).
  { destruct i as [|j].
    - apply roll_step_first; lia.
    - subst st. rewrite roll_step_next by lia. reflexivity. }
  rewrite Hstep.
  destruct k as [|k]; cbn [nth].
  - now rewrite Nat.add_0_r.
  - replace (i + S k)%nat with (S i + k)%nat by lia.
    apply IH; [lia | reflexivity | lia].
Qed.

Lemma rolling_mean_running (window : nat) (values : list float) (i : nat) :
  (2 <= window)%nat ->
  (i < List.length values)%nat ->
  nth i (rolling_mean window values) nan =
  calc_mean (Z.of_nat window) (running_state window (_prep_values values) i).
Proof.
  intros Hw Hi. unfold rolling_mean, roll_mean.
  apply (roll_mean_loop_running (_prep_values values) window _ _ 0);
    unfold _prep_values; rewrite ?length_map; auto; lia.
Qed.

Lemma running_state_counts (window : nat) (values : list float) (i : nat) :
  (2 <= window)%nat ->
  (i < List.length values)%nat ->
  nobs (running_state window values i) =
    count_valid (window_of window values i) /\
  neg_ct (running_state window values i) =
    count_negative (window_of window values i).
Proof.
  intros Hw. induction i as [|k IH]; intros Hi.
  - rewrite <- (roll_step_first values window (setup values 0)) by lia.
    apply roll_step_counts. now left.
  - cbn [running_state].
    rewrite <- (roll_step_next values window k _ Hw Hi).
    apply roll_step_counts. right.
    replace (S k - 1)%nat with k by lia. apply IH. lia.
Qed.

Lemma running_state_prev (window : nat) (values : list float) (i : nat) :
  (nth i values nan =? nth i values nan)%float = true ->
  prev_value (running_state window values i) = nth i values nan.
Proof.
  intros H. destruct i as [|k]; cbn [running_state]; unfold add_mean;
    rewrite H; reflexivity.
Qed.

(** The sum of the running state is the compensated running sum. *)
Lemma running_state_sum (window : nat) (values : list float) (i : nat) :
  running_sum window values i =
  (sum_x (running_state window (_prep_values values) i),
   compensation_add (running_state window (_prep_values values) i),
   compensation_remove (running_state window (_prep_values values) i)).
Proof.
  induction i as [|k IH]; cbn [running_state running_sum].
  - rewrite prep_values_nth. unfold add_mean, kahan.
    rewrite prep_value_valid.
    destruct (present (nth 0 values nan)) eqn:Hv; [|reflexivity].
    now rewrite (prep_value_present _ Hv).
  - rewrite IH, !prep_values_nth.
    set (st := running_state window (_prep_values values) k).
    destruct (window <=? S k)%nat; cbn [andb].
    + unfold remove_mean. rewrite prep_value_valid.
      destruct (present (nth (S k - window) values nan)) eqn:Hold.
      * rewrite (prep_value_present _ Hold). unfold add_mean, kahan.
        rewrite prep_value_valid.
        destruct (present (nth (S k) values nan)) eqn:Hv; [|reflexivity].
        now rewrite (prep_value_present _ Hv).
      * unfold add_mean, kahan. rewrite prep_value_valid.
        destruct (present (nth (S k) values nan)) eqn:Hv; [|reflexivity].
        now rewrite (prep_value_present _ Hv).
    + unfold add_mean, kahan. rewrite prep_value_valid.
      destruct (present (nth (S k) values nan)) eqn:Hv; [|reflexivity].
      now rewrite (prep_value_present _ Hv).
Qed.

(** *** The run of equal values *)

Lemma add_mean_run (st : mean_state) (v : float) :
  (v =? v)%float = true ->
  num_consecutive_same_value (add_mean st v) =
    (if (v =? prev_value st)%float
     then num_consecutive_same_value st + 1
     else 1)%Z.
Proof. intros Hv. unfold add_mean. now rewrite Hv. Qed.

Lemma add_mean_run_nonneg (st : mean_state) (v : float) :
  (0 <= num_consecutive_same_value st)%Z ->
  (0 <= num_consecutive_same_value (add_mean st v))%Z.
Proof.
  intros Hn. unfold add_mean. destruct (v =? v)%float; [|exact Hn].
  cbn [num_consecutive_same_value].
  destruct (v =? prev_value st)%float; lia.
Qed.

Lemma remove_mean_run (st : mean_state) (v : float) :
  num_consecutive_same_value (remove_mean st v) =
    num_consecutive_same_value st /\
  prev_value (remove_mean st v) = prev_value st.
Proof. unfold remove_mean. destruct (v =? v)%float; split; reflexivity. Qed.

Lemma running_state_run_nonneg (window : nat) (values : list float) (i : nat) :
  (0 <= num_consecutive_same_value (running_state window values i))%Z.
Proof.
  induction i as [|k IH]; cbn [running_state].
  - apply add_mean_run_nonneg. cbn. lia.
  - apply add_mean_run_nonneg.
    destruct (window <=? S k)%nat; [|exact IH].
    now rewrite (proj1 (remove_mean_run _ _)).
Qed.

Lemma repeats_one_more (w : list float) (y x : float) :
  repeats ((w ++ [y]) ++ [x]) = repeats (w ++ [y]) && (x =? y)%float.
Proof.
  induction w as [|a w IH].
  - cbn. now rewrite andb_true_r.
  - change (repeats (a :: (w ++ [y]) ++ [x]) =
            repeats (a :: w ++ [y]) && (x =? y)%float).
    destruct w as [|b w].
    + cbn. now rewrite !andb_true_r.
    + cbn [app repeats] in *. rewrite IH. apply andb_assoc.
Qed.

(** After the rows [m .. m + n], none of them missing, the run the state
    has counted reaches [n + 1] exactly when each of these rows but the
    first repeats the row above it. *)
Lemma running_state_repeats (window : nat) (values : list float) (m n : nat) :
  (m + n < List.length values)%nat ->
  (forall j, (m <= j <= m + n)%nat ->
             (nth j values nan =? nth j values nan)%float = true) ->
  (1 <= num_consecutive_same_value (running_state window values (m + n)))%Z /\
  if repeats (slice m (m + n + 1) values)
  then (Z.of_nat n + 1 <=
        num_consecutive_same_value (running_state window values (m + n)))%Z
  else (num_consecutive_same_value (running_state window values (m + n)) <=
        Z.of_nat n)%Z.
Proof.
  induction n as [|n IH]; intros Hlen Hvalid.
  - rewrite Nat.add_0_r in *.
    rewrite (slice_one m values nan Hlen). cbn [repeats].
    assert (H : (1 <= num_consecutive_same_value
                        (running_state window values m))%Z).
    { destruct m as [|k]; cbn [running_state];
        rewrite add_mean_run by (apply Hvalid; lia).
      - cbn [setup prev_value num_consecutive_same_value].
        destruct (_ =? _)%float; lia.
      - set (st := if (window <=? S k)%nat then _ else _).
        assert (0 <= num_consecutive_same_value st)%Z.
        { unfold st. destruct (window <=? S k)%nat.
          - rewrite (proj1 (remove_mean_run _ _)).
            apply running_state_run_nonneg.
          - apply running_state_run_nonneg. }
        destruct (_ =? _)%float; lia. }
    split; [exact H | cbn; lia].
  - destruct IH as [Hone Hrun]; [lia | intros j Hj; apply Hvalid; lia|].
    assert (Hw : slice m (m + S n + 1) values =
                 (slice m (m + n) values ++ [nth (m + n) values nan])
                 ++ [nth (S (m + n)) values nan]).
    { replace (m + S n + 1)%nat with ((m + n + 1) + 1)%nat by lia.
      rewrite (slice_split m (m + n + 1) (m + n + 1 + 1)) by lia.
      rewrite (slice_one (m + n + 1) values nan) by lia.
      rewrite (slice_split m (m + n) (m + n + 1)) by lia.
      rewrite (slice_one (m + n) values nan) by lia.
      replace (m + n + 1)%nat with (S (m + n)) by lia. reflexivity. }
    assert (Hw' : slice m (m + n + 1) values =
                  slice m (m + n) values ++ [nth (m + n) values nan]).
    { rewrite (slice_split m (m + n) (m + n + 1)) by lia.
      now rewrite (slice_one (m + n) values nan) by lia. }
    rewrite Hw, repeats_one_more, <- Hw'.
    replace (m + S n)%nat with (S (m + n)) by lia.
    cbn [running_state].
    rewrite add_mean_run by (apply Hvalid; lia).
    set (st := if (window <=? S (m + n))%nat then _ else _).
    assert (Hst : prev_value st = nth (m + n) values nan /\
                  num_consecutive_same_value st =
                    num_consecutive_same_value
                      (running_state window values (m + n))).
    { pose proof (running_state_prev window values (m + n)
                    (Hvalid (m + n)%nat ltac:(lia))) as Hprev.
      unfold st. destruct (window <=? S (m + n))%nat.
      - destruct (remove_mean_run (running_state window values (m + n))
                    (nth (S (m + n) - window) values nan)) as [H1 H2].
        split; [congruence | exact H1].
      - split; [exact Hprev | reflexivity]. }
    destruct Hst as [-> ->].
    destruct (nth (S (m + n)) values nan =? nth (m + n) values nan)%float.
    + rewrite andb_true_r.
      destruct (repeats (slice m (m + n + 1) values)); lia.
    + rewrite andb_false_r. lia.
Qed.

Lemma prep_values_present (l : list float) :
  forallb present l = true -> map _prep_value l = l.
Proof.
  induction l as [|v l IH]; cbn [forallb map]; [reflexivity|].
  intros H. apply andb_true_iff in H as [Hv Hl].
  now rewrite (prep_value_present v Hv), (IH Hl).
Qed.

Lemma count_negative_present (l : list float) :
  forallb present l = true -> count_negative l = negatives l.
Proof.
  unfold negatives.
  induction l as [|v l IH]; cbn [forallb count_negative filter];
    [reflexivity|].
  intros H. apply andb_true_iff in H as [Hv Hl]. rewrite (IH Hl).
  unfold present in Hv. apply andb_true_iff in Hv as [-> _]. cbn [andb].
  destruct (signbit v); cbn [List.length]; lia.
Qed.

(** In a full window without a missing value, [calc_mean] is the running
    average. *)
Lemma rolling_mean_full (window : nat) (values : list float) (i : nat) :
  (2 <= window)%nat ->
  (i < List.length values)%nat ->
  (window <= i + 1)%nat ->
  forallb present (slice (i + 1 - window) (i + 1) values) = true ->
  nth i (rolling_mean window values) nan = running_average window values i.
Proof.
  intros Hw Hi Hfull Hall.
  rewrite (rolling_mean_running window values i Hw Hi).
  assert (Hilen : (i < List.length (_prep_values values))%nat)
    by (unfold _prep_values; now rewrite length_map).
  set (w := slice (i + 1 - window) (i + 1) values) in *.
  assert (Hslice : slice (i + 1 - window) (i + 1) (_prep_values values) = w)
    by (rewrite prep_values_slice; now apply prep_values_present).
  destruct (running_state_counts window (_prep_values values) i Hw Hilen)
    as [Hnobs Hneg].
  unfold window_of, window_start, window_end in Hnobs, Hneg.
  rewrite Hslice in Hnobs, Hneg.
  rewrite (count_negative_present w Hall) in Hneg.
  assert (Hcount : count_valid w = Z.of_nat window).
  { rewrite <- (prep_values_present w Hall), count_valid_prep,
      (filter_present_all w Hall).
    unfold w. rewrite slice_length by lia. lia. }
  rewrite Hcount in Hnobs.
  assert (Hvalid : forall j, (i + 1 - window <= j <= i)%nat ->
                             present (nth j values nan) = true).
  { intros j Hj. rewrite forallb_forall in Hall. apply Hall.
    replace j with ((i + 1 - window) + (j - (i + 1 - window)))%nat by lia.
    rewrite <- (slice_nth (i + 1 - window) (i + 1) values _ nan) by lia.
    apply nth_In. unfold w. rewrite slice_length by lia. lia. }
  pose proof (running_state_prev window (_prep_values values) i) as Hprev.
  rewrite prep_values_nth, prep_value_valid, prep_value_present in Hprev
    by (apply Hvalid; lia).
  specialize (Hprev (Hvalid i ltac:(lia))).
  destruct (running_state_repeats window (_prep_values values)
              (i + 1 - window) (window - 1)) as [_ Hrun].
  { lia. }
  { intros j Hj. rewrite prep_values_nth, prep_value_valid.
    apply Hvalid. lia. }
  replace (i + 1 - window + (window - 1))%nat with i in Hrun by lia.
  replace (i + 1)%nat with (i + 1)%nat in Hrun by lia.
  rewrite Hslice in Hrun.
  unfold calc_mean, running_average. fold w.
  rewrite (running_state_sum window values i). cbn [fst].
  rewrite Hnobs, Hneg, Hprev, Z.leb_refl.
  replace (0 <? Z.of_nat window)%Z with true
    by (symmetry; apply Z.ltb_lt; lia).
  cbn [andb].
  destruct (repeats w).
  - replace (Z.of_nat window <=? _)%Z with true
      by (symmetry; apply Z.leb_le; lia).
    reflexivity.
  - replace (Z.of_nat window <=? _)%Z with false
      by (symmetry; apply Z.leb_gt; lia).
    reflexivity.
Qed.

(** C4. In the figure built from a price series, the 5-day line has as
    many points as the series has rows.  Its value at row [i] is
    undefined, a [NaN], for rows 0..3 and for every later row whose window
    [i-4..i] holds a missing [Close].  At a row from 4 on with the five
    [Close] values present it is the running average: the compensated
    binary64 sum carried down the column, each [Close] added and the
    [Close] that leaves the window subtracted, over 5; but the [Close] of
    the row itself when the five values are equal, and zero when the
    quotient is negative though none of the five is, or positive though
    all five are negative.  Likewise the 20-day line with rows 0..18 and
    the window [i-19..i]. *)
Theorem moving_averages (ticker : str) (stock_price : DataFrame) (i : nat) :
  (i < List.length stock_price)%nat ->
  exists five_day twenty_day : Scatter,
    fig_lines (build_figure ticker stock_price) = [five_day; twenty_day] /\
    List.length (sc_y five_day) = List.length stock_price /\
    List.length (sc_y twenty_day) = List.length stock_price /\
    nth i (sc_y five_day) nan =
      (if (i <? 4)%nat then nan
       else if forallb present (slice (i - 4) (i + 1) (map p_close stock_price))
            then running_average 5 (map p_close stock_price) i
            else nan) /\
    nth i (sc_y twenty_day) nan =
      (if (i <? 19)%nat then nan
       else if forallb present
                 (slice (i - 19) (i + 1) (map p_close stock_price))
            then running_average 20 (map p_close stock_price) i
            else nan).
Proof.
  intros Hi.
  assert (Hline : forall window : nat,
    (2 <= window)%nat ->
    nth i (rolling_mean window (map p_close stock_price)) nan =
      (if (i <? window - 1)%nat then nan
       else if forallb present
                 (slice (i - (window - 1)) (i + 1) (map p_close stock_price))
            then running_average window (map p_close stock_price) i
            else nan)).
  { intros window Hw.
    assert (Hlen : (i < List.length (map p_close stock_price))%nat)
      by now rewrite length_map.
    replace (i - (window - 1))%nat with (i + 1 - window)%nat by lia.
    destruct (Nat.ltb_spec i (window - 1)) as [Hshort|Hfull].
    - apply rolling_mean_undefined; [lia | exact Hlen |].
      apply orb_true_iff. left. apply Nat.ltb_lt. lia.
    - destruct (forallb present _) eqn:Hall.
      + apply rolling_mean_full; auto; lia.
      + apply rolling_mean_undefined; [lia | exact Hlen |].
        rewrite Hall. apply orb_true_r. }
  eexists. eexists. split; [reflexivity|]. cbn [sc_y].
  split; [now rewrite rolling_mean_length, length_map|].
  split; [now rewrite rolling_mean_length, length_map|].
  split.
  - exact (Hline 5%nat ltac:(lia)).
  - exact (Hline 20%nat ltac:(lia)).
Qed.

Lemma moving_averages_witness :
  exists five_day twenty_day : Scatter,
    fig_lines (build_figure (lit "2330.TW") example_rows) =
      [five_day; twenty_day] /\
    map p_close example_rows = [10; 20; 30; 40; 50]%float /\
    nth 4 (sc_y five_day) nan = 30%float /\
    firstn 4 (sc_y five_day) = [nan; nan; nan; nan] /\
    sc_y twenty_day = [nan; nan; nan; nan; nan].
Proof.
  destruct (moving_averages (lit "2330.TW") example_rows 4 ltac:(cbn; lia))
    as [five_day [twenty_day [Hlines [_ [_ [H5 _]]]]]].
  exists five_day, twenty_day. split; [exact Hlines|].
  injection Hlines as <- <-.
  split; [reflexivity|].
  split; [|split; reflexivity].
  rewrite H5. reflexivity.
Defined.

(** The value at a row is not the mean of its window.  The [Close] column
    3, 1e16, 2, 2, 2, 2, 1 gets 2.2 at row 6, above every value of the
    window 2, 2, 2, 2, 1, whose mean is 9/5: the running sum has lost the
    3 it added before 1e16 and subtracts it all the same.  And the five
    prices 323.12, 316.19, 325.81, 306.97, 315.41 get 317.5 as the first
    five rows of a series, and 317.50000000000006 when the rows 328.57,
    317.33, 313.77 come before them (the prices are written as the
    binary64 numbers nearest to them). *)
Lemma moving_average_is_not_the_window_mean :
  (let close := [3; 1e16; 2; 2; 2; 2; 1]%float in
   exists five_day twenty_day : Scatter,
     fig_lines (build_figure (lit "2330.TW") (frame_of_closes close)) =
       [five_day; twenty_day] /\
     slice 2 7 close = [2; 2; 2; 2; 1]%float /\
     nth 6 (sc_y five_day) nan = 0x1.199999999999ap+1%float /\
     (2 <? nth 6 (sc_y five_day) nan)%float = true /\
     same_value (arithmetic_mean (slice 2 7 close)) (Some (9 # 5)) /\
     ~ same_value (float_value (nth 6 (sc_y five_day) nan))
         (arithmetic_mean (slice 2 7 close))) /\
  (let window :=
     [0x1.431eb851eb852p+8; 0x1.3c30a3d70a3d7p+8; 0x1.45cf5c28f5c29p+8;
      0x1.32f851eb851ecp+8; 0x1.3b68f5c28f5c3p+8]%float in
   let before :=
     [0x1.4891eb851eb85p+8; 0x1.3d547ae147ae1p+8;
      0x1.39c51eb851eb8p+8]%float in
   slice 3 8 (before ++ window) = slice 0 5 window /\
   nth 4 (rolling_mean 5 (map p_close (frame_of_closes window))) nan =
     0x1.3d8p+8%float /\
   nth 7 (rolling_mean 5 (map p_close (frame_of_closes (before ++ window))))
     nan = 0x1.3d80000000001p+8%float).
Proof.
  split.
  - eexists. eexists. split; [reflexivity|]. cbn [sc_y].
    split; [reflexivity|].
    split; [vm_compute; reflexivity|].
    split; [vm_compute; reflexivity|].
    split; [vm_compute; reflexivity|].
    vm_compute. discriminate.
  - split; [reflexivity|]. split; vm_compute; reflexivity.
Qed.

(** ** The regular-expression matcher *)

(** What the matcher returns comes from an instance of the pattern at the
    start of the string, handed with the rest to the continuation. *)
Lemma rmatch_sound {R : Type} (U : unicode_db) (r : regex) :
  forall (s : str) (g : groups) (k : str -> groups -> option R) (x : R),
    rmatch U r s g k = Some x ->
    exists (s1 rest : str) (g1 : groups),
      s = s1 ++ rest /\ matches U r s1 g1 /\ k rest (g1 ++ g) = Some x.
Proof.
  induction r as [|c|lo hi| |r1 IH1 r2 IH2|r1 IH1 r2 IH2|name r1 IH1];
    intros s g k x H; cbn [rmatch] in H.
  - exists [], s, []. repeat split; [constructor | exact H].
  - destruct s as [|y s]; [discriminate|].
    destruct (char_eqb y c) eqn:Hc; [|discriminate].
    apply N.eqb_eq in Hc. subst y.
    exists [c], s, []. repeat split; [constructor | exact H].
  - destruct s as [|y s]; [discriminate|].
    destruct (in_range lo hi y) eqn:Hc; [|discriminate].
    exists [y], s, []. repeat split; [now constructor | exact H].
  - destruct s as [|y s]; [discriminate|].
    destruct (decimal_value U y) as [v|] eqn:Hc; [|discriminate].
    exists [y], s, []. repeat split; [now apply matches_digit with v | exact H].
  - apply IH1 in H as [s1 [rest1 [g1 [-> [Hm1 H]]]]].
    apply IH2 in H as [s2 [rest [g2 [-> [Hm2 H]]]]].
    exists (s1 ++ s2), rest, (g2 ++ g1). rewrite <- !app_assoc.
    repeat split; [now constructor | exact H].
  - destruct (rmatch U r1 s g k) as [x1|] eqn:H1.
    + injection H as <-. apply IH1 in H1 as [s1 [rest [g1 [-> [Hm Hk]]]]].
      exists s1, rest, g1. repeat split; [now apply matches_alt_l | exact Hk].
    + apply IH2 in H as [s1 [rest [g1 [-> [Hm Hk]]]]].
      exists s1, rest, g1. repeat split; [now apply matches_alt_r | exact Hk].
  - apply IH1 in H as [s1 [rest [g1 [-> [Hm Hk]]]]].
    exists s1, rest, ((name, s1) :: g1). repeat split; [now constructor|].
    rewrite length_app, Nat.add_sub, firstn_app, Nat.sub_diag, firstn_all in Hk.
    cbn in Hk. rewrite app_nil_r in Hk. exact Hk.
Qed.

(** ** The pattern of [%Y-%m-%d] *)

Lemma TimeRE_pattern_ymd :
  TimeRE_pattern (list_ascii_of_string "%Y-%m-%d") = Returned ymd_regex.
Proof. reflexivity. Qed.

Ltac inv_matches :=
  repeat match goal with
         | H : matches _ REps _ _ |- _ => inversion H; subst; clear H
         | H : matches _ (RChar _) _ _ |- _ => inversion H; subst; clear H
         | H : matches _ (RRange _ _) _ _ |- _ => inversion H; subst; clear H
         | H : matches _ RDigit _ _ |- _ => inversion H; subst; clear H
         | H : matches _ (RSeq _ _) _ _ |- _ => inversion H; subst; clear H
         | H : matches _ (RAlt _ _) _ _ |- _ => inversion H; subst; clear H
         | H : matches _ (RGroup _ _) _ _ |- _ => inversion H; subst; clear H
         end.

Lemma matches_re_Y (U : unicode_db) (s : str) (g : groups) :
  matches U re_Y s g ->
  (exists y, year_text U s y) /\ g = [("Y"%string, s)].
Proof.
  unfold re_Y. intros H. inv_matches. cbn. split; [|reflexivity].
  eexists. econstructor; eassumption.
Qed.

Lemma matches_re_m (U : unicode_db) (s : str) (g : groups) :
  matches U re_m s g ->
  (exists m, month_text s m) /\ g = [("m"%string, s)].
Proof.
  unfold re_m. intros H. inv_matches; cbn; (split; [|reflexivity]);
    eexists; constructor; assumption.
Qed.

Lemma matches_re_d (U : unicode_db) (s : str) (g : groups) :
  matches U re_d s g ->
  (exists d, day_text U s d) /\ g = [("d"%string, s)].
Proof.
  unfold re_d. intros H. inv_matches; cbn; (split; [|reflexivity]);
    eexists; econstructor; eassumption.
Qed.

(** A whole-string instance of the pattern is a year, a month and a day
    joined by hyphens, and the groups hold their texts. *)
Lemma matches_ymd_regex (U : unicode_db) (s : str) (g : groups) :
  matches U ymd_regex s g ->
  exists (yt mt dt : str) (y m d : Z),
    s = yt ++ ord "-" :: mt ++ ord "-" :: dt /\
    year_text U yt y /\ month_text mt m /\ day_text U dt d /\
    g = [("d"%string, dt); ("m"%string, mt); ("Y"%string, yt)].
Proof.
  unfold ymd_regex. intros H.
  inversion H as [| | | |? ? yt s2 gY g2 HY H2| | |]; subst; clear H.
  inversion H2 as [| | | |? ? h1 s3 gh1 g3 Hh1 H3| | |]; subst; clear H2.
  inversion H3 as [| | | |? ? mt s4 gM g4 HM H4| | |]; subst; clear H3.
  inversion H4 as [| | | |? ? h2 s5 gh2 g5 Hh2 H5| | |]; subst; clear H4.
  inversion H5 as [| | | |? ? dt s6 gD g6 HD H6| | |]; subst; clear H5.
  inversion Hh1; subst. inversion Hh2; subst. inversion H6; subst.
  apply matches_re_Y in HY as [[y Hy] ->].
  apply matches_re_m in HM as [[m Hm] ->].
  apply matches_re_d in HD as [[d Hd] ->].
  exists yt, mt, dt, y, m, d. rewrite app_nil_r. cbn. auto.
Qed.

(** *** The matcher on the pattern *)

Lemma firstn_consumed1 {A : Type} (a : A) (q : list A) :
  firstn (List.length (a :: q) - List.length q) (a :: q) = [a].
Proof.
  cbn [List.length]. replace (S (List.length q) - List.length q)%nat with 1%nat by lia.
  reflexivity.
Qed.

Lemma firstn_consumed2 {A : Type} (a b : A) (q : list A) :
  firstn (List.length (a :: b :: q) - List.length q) (a :: b :: q) = [a; b].
Proof.
  cbn [List.length].
  replace (S (S (List.length q)) - List.length q)%nat with 2%nat by lia.
  reflexivity.
Qed.

Lemma firstn_consumed4 {A : Type} (a b c d : A) (q : list A) :
  firstn (List.length (a :: b :: c :: d :: q) - List.length q) (a :: b :: c :: d :: q)
  = [a; b; c; d].
Proof.
  cbn [List.length].
  replace (S (S (S (S (List.length q)))) - List.length q)%nat with 4%nat by lia.
  reflexivity.
Qed.

Ltac closed_bool t :=
  let v := eval vm_compute in t in
  lazymatch v with
  | true => change t with true
  | false => change t with false
  end.

Ltac contradict_range :=
  match goal with
  | H : in_range _ _ _ = true |- _ => vm_compute in H; discriminate H
  | H : in_range _ _ _ = false |- _ => vm_compute in H; discriminate H
  end.

Ltac match_step U :=
  first
    [ progress cbn [rmatch app]
    | progress rewrite ?firstn_consumed1, ?firstn_consumed2, ?firstn_consumed4
    | match goal with
      | H : in_range ?a ?b ?c = _ |- context [in_range ?a ?b ?c] => rewrite H
      | H : decimal_value U ?c = _ |- context [decimal_value U ?c] => rewrite H
      | |- context [char_eqb ?x ?y] => closed_bool (char_eqb x y)
      | |- context [in_range ?a ?b ?c] => closed_bool (in_range a b c)
      | |- context [char_eqb ?x ?y] =>
          let E := fresh "E" in
          destruct (char_eqb x y) eqn:E;
          [apply N.eqb_eq in E; subst; try contradict_range|]
      | |- context [in_range ?a ?b ?c] => destruct (in_range a b c) eqn:?
      end ].

Lemma rmatch_re_Y {R : Type} (U : unicode_db) (yt rest : str) (y : Z) (g : groups)
    (k : str -> groups -> option R) :
  year_text U yt y ->
  rmatch U re_Y (yt ++ rest) g k = k rest (("Y"%string, yt) :: g).
Proof.
  intros H. destruct H. unfold re_Y. repeat match_step U. reflexivity.
Qed.

Ltac settle_match :=
  repeat match goal with
         | |- context [match ?x with _ => _ end] => destruct x eqn:?
         end;
  first [reflexivity | symmetry; eassumption | discriminate].

Lemma rmatch_re_m {R : Type} (U : unicode_db) (mt rest : str) (m : Z) (g : groups)
    (r : regex) (k : str -> groups -> option R) :
  month_text mt m ->
  rmatch U (RSeq re_m (RSeq (RChar (ord "-")) r)) (mt ++ ord "-" :: rest) g k =
  rmatch U r rest (("m"%string, mt) :: g) k.
Proof.
  intros H. destruct H; unfold re_m; repeat match_step U; settle_match.
Qed.

Lemma rmatch_re_d {R : Type} (U : unicode_db) (dt : str) (d : Z) (g : groups)
    (f : str -> groups -> R) :
  day_text U dt d ->
  rmatch U (RSeq re_d REps) dt g (fun rest g' => Some (f rest g')) =
  Some (f [] (("d"%string, dt) :: g)).
Proof.
  intros H. destruct H; unfold re_d; repeat match_step U; settle_match.
Qed.

Lemma rmatch_seq {R : Type} (U : unicode_db) (r1 r2 : regex) (s : str)
    (g : groups) (k : str -> groups -> option R) :
  rmatch U (RSeq r1 r2) s g k =
  rmatch U r1 s g (fun s1 g1 => rmatch U r2 s1 g1 k).
Proof. reflexivity. Qed.

Lemma rmatch_char {R : Type} (U : unicode_db) (c : char) (rest : str)
    (g : groups) (k : str -> groups -> option R) :
  rmatch U (RChar c) (c :: rest) g k = k rest g.
Proof. cbn. unfold char_eqb. now rewrite N.eqb_refl. Qed.

(** On a year, a month and a day joined by hyphens the first match the
    matcher finds is the whole string, with their texts as the groups. *)
Lemma re_match_ymd (U : unicode_db) (yt mt dt : str) (y m d : Z) :
  year_text U yt y -> month_text mt m -> day_text U dt d ->
  re_match U ymd_regex (yt ++ ord "-" :: mt ++ ord "-" :: dt) =
  Some (List.length (yt ++ ord "-" :: mt ++ ord "-" :: dt),
        [("Y"%string, yt); ("m"%string, mt); ("d"%string, dt)]).
Proof.
  intros Hy Hm Hd. unfold re_match, ymd_regex.
  rewrite rmatch_seq, (rmatch_re_Y U yt _ y _ _ Hy). cbv beta.
  rewrite rmatch_seq, rmatch_char. cbv beta.
  rewrite (rmatch_re_m U mt dt m _ _ _ Hm).
  rewrite (rmatch_re_d U dt d _ _ Hd).
  cbn [List.length rev app]. now rewrite Nat.sub_0_r.
Qed.

(** ** [int] on the texts of the groups *)

Lemma in_range_bounds (lo hi c : char) :
  in_range lo hi c = true -> (lo <= c <= hi)%N.
Proof.
  unfold in_range. rewrite andb_true_iff, !N.leb_le. tauto.
Qed.

Section IntOfGroups.

Variable U : unicode_db.
Hypothesis U_ok : unicode_db_ok U.

Lemma ascii_digit_value (lo hi c : char) :
  in_range lo hi c = true -> (48 <= lo)%N -> (hi <= 57)%N ->
  decimal_value U c = Some (digit c) /\ is_whitespace U c = false.
Proof.
  intros H Hlo Hhi. apply in_range_bounds in H.
  assert (Hd : decimal_value U c = Some (digit c))
    by (apply (udb_ascii_digit U U_ok); lia).
  split; [exact Hd | exact (udb_decimal_not_space U U_ok c _ Hd)].
Qed.

Lemma py_int_1 (c : char) (v : Z) :
  decimal_value U c = Some v -> py_int U [c] = Returned v.
Proof.
  intros H. pose proof (udb_decimal_not_space U U_ok c v H) as Hws.
  unfold py_int, strip. cbn [lstrip]. rewrite Hws. cbn [rev app lstrip].
  rewrite Hws. cbn [rev app digits_value]. rewrite H. f_equal; lia.
Qed.

Lemma py_int_2 (c1 c2 : char) (v1 v2 : Z) :
  decimal_value U c1 = Some v1 -> decimal_value U c2 = Some v2 ->
  py_int U [c1; c2] = Returned (10 * v1 + v2)%Z.
Proof.
  intros H1 H2.
  pose proof (udb_decimal_not_space U U_ok c1 v1 H1) as Hws1.
  pose proof (udb_decimal_not_space U U_ok c2 v2 H2) as Hws2.
  unfold py_int, strip. cbn [lstrip]. rewrite Hws1. cbn [rev app lstrip].
  rewrite Hws2. cbn [rev app digits_value]. rewrite H1, H2. f_equal; lia.
Qed.

Lemma py_int_space_1 (c : char) (v : Z) :
  decimal_value U c = Some v -> py_int U [ord " "; c] = Returned v.
Proof.
  intros H. pose proof (udb_decimal_not_space U U_ok c v H) as Hws.
  unfold py_int, strip. cbn [lstrip].
  change (ord " ") with 32%N. rewrite (udb_space U U_ok), Hws.
  cbn [rev app lstrip]. rewrite Hws. cbn [rev app digits_value].
  rewrite H. f_equal; lia.
Qed.

Lemma py_int_year (yt : str) (y : Z) :
  year_text U yt y -> py_int U yt = Returned y.
Proof.
  intros [c1 c2 c3 c4 v1 v2 v3 v4 H1 H2 H3 H4].
  pose proof (udb_decimal_not_space U U_ok c1 v1 H1) as Hws1.
  pose proof (udb_decimal_not_space U U_ok c4 v4 H4) as Hws4.
  unfold py_int, strip. cbn [lstrip]. rewrite Hws1. cbn [rev app lstrip].
  rewrite Hws4. cbn [rev app digits_value]. rewrite H1, H2, H3, H4.
  f_equal; lia.
Qed.

Lemma literal_digit (c : char) :
  (48 <= c <= 57)%N -> decimal_value U c = Some (digit c).
Proof. apply (udb_ascii_digit U U_ok). Qed.

Lemma py_int_month (mt : str) (m : Z) :
  month_text mt m -> py_int U mt = Returned m.
Proof.
  intros [c H|c H|c H];
    destruct (ascii_digit_value _ _ c H ltac:(vm_compute; discriminate)
                ltac:(vm_compute; discriminate)) as [Hd _].
  - rewrite (py_int_2 (ord "1") c 1 (digit c)); auto.
    apply literal_digit. vm_compute. split; discriminate.
  - rewrite (py_int_2 (ord "0") c 0 (digit c)); auto.
    apply literal_digit. vm_compute. split; discriminate.
  - now apply py_int_1.
Qed.

Lemma py_int_day (dt : str) (d : Z) :
  day_text U dt d -> py_int U dt = Returned d.
Proof.
  intros [c H|c1 c2 v H1 H2|c H|c H|c H].
  - destruct (ascii_digit_value _ _ c H ltac:(vm_compute; discriminate)
                ltac:(vm_compute; discriminate)) as [Hd _].
    rewrite (py_int_2 (ord "3") c 3 (digit c)); auto.
    apply literal_digit. vm_compute. split; discriminate.
  - destruct (ascii_digit_value _ _ c1 H1 ltac:(vm_compute; discriminate)
                ltac:(vm_compute; discriminate)) as [Hd _].
    now apply py_int_2.
  - destruct (ascii_digit_value _ _ c H ltac:(vm_compute; discriminate)
                ltac:(vm_compute; discriminate)) as [Hd _].
    rewrite (py_int_2 (ord "0") c 0 (digit c)); auto.
    apply literal_digit. vm_compute. split; discriminate.
  - destruct (ascii_digit_value _ _ c H ltac:(vm_compute; discriminate)
                ltac:(vm_compute; discriminate)) as [Hd _].
    now apply py_int_1.
  - destruct (ascii_digit_value _ _ c H ltac:(vm_compute; discriminate)
                ltac:(vm_compute; discriminate)) as [Hd _].
    now apply py_int_space_1.
Qed.

End IntOfGroups.

(** ** [strptime] with the format [%Y-%m-%d] *)

Lemma assign_groups_ymd (U : unicode_db) (yt mt dt : str) :
  fold_left (assign_group U)
    [("Y"%string, yt); ("m"%string, mt); ("d"%string, dt)]
    (Returned {| f_year := None; f_month := 1; f_day := 1 |}) =
  (let* y := py_int U yt in
   let* m := py_int U mt in
   let* d := py_int U dt in
   Returned {| f_year := Some y; f_month := m; f_day := d |}).
Proof.
  cbn [fold_left]. unfold assign_group. cbn -[py_int].
  destruct (py_int U yt); cbn -[py_int]; [|reflexivity].
  destruct (py_int U mt); cbn -[py_int]; [|reflexivity].
  destruct (py_int U dt); reflexivity.
Qed.

Lemma real_date_checked (y m d : Z) :
  real_date y m d <-> _check_date_fields y m d = Returned (y, m, d).
Proof.
  unfold real_date, _check_date_fields, MINYEAR, MAXYEAR.
  destruct ((1 <=? y) && (y <=? 9999))%Z eqn:Hy; cbn [negb].
  - destruct ((1 <=? m) && (m <=? 12))%Z eqn:Hm; cbn [negb].
    + destruct ((1 <=? d) && (d <=? _days_in_month y m))%Z eqn:Hd; cbn [negb].
      * split; [reflexivity|]. intros _. lia.
      * split; [|discriminate]. lia.
    + split; [|discriminate]. lia.
  - split; [|discriminate]. lia.
Qed.

Lemma check_date_fields_raises (y m d : Z) (e : exn) :
  _check_date_fields y m d = Raised e -> e = ValueError.
Proof.
  unfold _check_date_fields.
  repeat match goal with
         | |- context [if ?b then _ else _] => destruct b
         end; congruence.
Qed.

Lemma check_date_fields_cases (y m d : Z) :
  _check_date_fields y m d = Returned (y, m, d) \/
  _check_date_fields y m d = Raised ValueError.
Proof.
  destruct (_check_date_fields y m d) as [[[y' m'] d']|e] eqn:H.
  - left. revert H. unfold _check_date_fields.
    repeat match goal with
           | |- context [if ?b then _ else _] => destruct b
           end; congruence.
  - right. f_equal. now apply check_date_fields_raises in H.
Qed.

Section Strptime.

Variable U : unicode_db.
Hypothesis U_ok : unicode_db_ok U.

(** On a text that reads as [y]-[m]-[d], [strptime] is the [datetime]
    constructor at midnight of that day. *)
Lemma strptime_ymd (s : str) (y m d : Z) :
  ymd_text U s y m d ->
  strptime U s "%Y-%m-%d" = datetime_new y m d 0 0 0 0.
Proof.
  intros [yt [mt [dt [-> [Hy [Hm Hd]]]]]].
  unfold strptime, _strptime. rewrite TimeRE_pattern_ymd. cbn [obind].
  rewrite (re_match_ymd U yt mt dt y m d Hy Hm Hd).
  rewrite Nat.eqb_refl. cbn [negb].
  rewrite assign_groups_ymd.
  rewrite (py_int_year U U_ok yt y Hy), (py_int_month U U_ok mt m Hm),
    (py_int_day U U_ok dt d Hd).
  cbn [obind f_year f_month f_day].
  unfold date_new, datetime_new.
  destruct (check_date_fields_cases y m d) as [Hc|Hc]; rewrite Hc;
    [|reflexivity].
  cbn [obind].
  assert (Hy1 : _check_date_fields y 1 1 = Returned (y, 1, 1)%Z).
  { apply real_date_checked. apply real_date_checked in Hc.
    destruct Hc as [Hyr _]. unfold real_date, _days_in_month.
    change ((1 =? 2)%Z) with false. cbn [andb].
    change (getitem _DAYS_IN_MONTH 1) with 31%Z. lia. }
  rewrite Hy1. cbn [obind]. rewrite Hc. reflexivity.
Qed.

(** A text that does not read as a year, a month and a day joined by
    hyphens is refused with [ValueError]. *)
Lemma strptime_not_ymd (s : str) :
  (forall y m d, ~ ymd_text U s y m d) ->
  strptime U s "%Y-%m-%d" = Raised ValueError.
Proof.
  intros Hnot. unfold strptime, _strptime. rewrite TimeRE_pattern_ymd.
  cbn [obind].
  destruct (re_match U ymd_regex s) as [[found_end found_dict]|] eqn:Hre;
    [|reflexivity].
  destruct (List.length s =? found_end)%nat eqn:Hend; cbn [negb];
    [|reflexivity].
  exfalso. apply Nat.eqb_eq in Hend. unfold re_match in Hre.
  apply rmatch_sound in Hre as [s1 [rest [g1 [-> [Hm Hk]]]]].
  injection Hk as Hlen _. rewrite length_app in Hend, Hlen.
  assert (rest = []) by (destruct rest; [reflexivity | cbn in *; lia]).
  subst rest. rewrite app_nil_r in Hnot.
  apply matches_ymd_regex in Hm
    as [yt [mt [dt [y [m [d [Hs [Hy [Hmo [Hd _]]]]]]]]]].
  apply (Hnot y m d). now exists yt, mt, dt.
Qed.

(** [strptime] raises nothing but [ValueError]. *)
Lemma strptime_raises (s : str) (e : exn) :
  strptime U s "%Y-%m-%d" = Raised e -> e = ValueError.
Proof.
  intros H.
  assert (Hcases : (exists y m d, ymd_text U s y m d) \/
                   strptime U s "%Y-%m-%d" = Raised ValueError).
  { destruct (re_match U ymd_regex s) as [[found_end found_dict]|] eqn:Hre.
    - destruct (List.length s =? found_end)%nat eqn:Hend.
      + left. apply Nat.eqb_eq in Hend. unfold re_match in Hre.
        apply rmatch_sound in Hre as [s1 [rest [g1 [-> [Hm Hk]]]]].
        injection Hk as Hlen _. rewrite length_app in Hend, Hlen.
        assert (rest = []) by (destruct rest; [reflexivity | cbn in *; lia]).
        subst rest. rewrite app_nil_r.
        apply matches_ymd_regex in Hm
          as [yt [mt [dt [y [m [d [Hs [Hy [Hmo [Hd _]]]]]]]]]].
        exists y, m, d. now exists yt, mt, dt.
      + right. unfold strptime, _strptime. rewrite TimeRE_pattern_ymd.
        cbn [obind]. now rewrite Hre, Hend.
    - right. unfold strptime, _strptime. rewrite TimeRE_pattern_ymd.
      cbn [obind]. now rewrite Hre. }
  destruct Hcases as [[y [m [d Hymd]]]|Hv]; [|congruence].
  rewrite (strptime_ymd s y m d Hymd) in H. unfold datetime_new in H.
  destruct (check_date_fields_cases y m d) as [Hc|Hc]; rewrite Hc in H;
    cbn in H; congruence.
Qed.

End Strptime.

(** ** The date validator *)

Lemma ascii_db_ok : unicode_db_ok ascii_db.
Proof.
  split; cbn.
  - intros c Hc.
    replace ((48 <=? c) && (c <=? 57))%N with true; [reflexivity|].
    symmetry. apply andb_true_iff. rewrite !N.leb_le. lia.
  - reflexivity.
  - intros c v. destruct ((48 <=? c) && (c <=? 57))%N eqn:H; [|discriminate].
    apply andb_true_iff in H. rewrite !N.leb_le in H. intros _.
    apply orb_false_iff. split; apply andb_false_iff; right;
      apply N.leb_gt; lia.
Qed.

Lemma datetime_new_real_date (y m d : Z) :
  real_date y m d ->
  datetime_new y m d 0 0 0 0 =
  Returned {| year := y; month := m; day := d;
              hour := 0; minute := 0; second := 0; microsecond := 0 |}.
Proof.
  intros H. apply real_date_checked in H. unfold datetime_new. now rewrite H.
Qed.

Lemma datetime_new_not_real_date (y m d : Z) :
  ~ real_date y m d -> datetime_new y m d 0 0 0 0 = Raised ValueError.
Proof.
  intros H. unfold datetime_new.
  destruct (check_date_fields_cases y m d) as [Hc|Hc]; rewrite Hc;
    [|reflexivity].
  now apply real_date_checked in Hc.
Qed.

Lemma year_text_ascii (U : unicode_db) (c1 c2 c3 c4 : char) :
  unicode_db_ok U ->
  (48 <= c1 <= 57)%N -> (48 <= c2 <= 57)%N ->
  (48 <= c3 <= 57)%N -> (48 <= c4 <= 57)%N ->
  year_text U [c1; c2; c3; c4]
    (1000 * digit c1 + 100 * digit c2 + 10 * digit c3 + digit c4)%Z.
Proof.
  intros Hok H1 H2 H3 H4. constructor; now apply literal_digit.
Qed.

Section DateValidator.

Variable U : unicode_db.
Hypothesis U_ok : unicode_db_ok U.

Lemma is_valid_date_format_returns (s : str) :
  exists b, is_valid_date_format U s = Returned b.
Proof.
  unfold is_valid_date_format.
  destruct (strptime U s "%Y-%m-%d") as [t|e] eqn:H.
  - now exists true.
  - apply (strptime_raises U U_ok) in H. subst e. now exists false.
Qed.

Lemma is_valid_date_format_true (s : str) :
  is_valid_date_format U s = Returned true <->
  exists y m d, ymd_text U s y m d /\ real_date y m d.
Proof.
  unfold is_valid_date_format. split.
  - intros H.
    destruct (strptime U s "%Y-%m-%d") as [t|e] eqn:Hs.
    + destruct (re_match U ymd_regex s) as [[found_end found_dict]|] eqn:Hre.
      * destruct (List.length s =? found_end)%nat eqn:Hend.
        -- apply Nat.eqb_eq in Hend. unfold re_match in Hre.
           apply rmatch_sound in Hre as [s1 [rest [g1 [-> [Hm Hk]]]]].
           injection Hk as Hlen _. rewrite length_app in Hend, Hlen.
           assert (rest = []) by (destruct rest; [reflexivity | cbn in *; lia]).
           subst rest. rewrite app_nil_r in *.
           apply matches_ymd_regex in Hm
             as [yt [mt [dt [y [m [d [Hs1 [Hy [Hmo [Hd _]]]]]]]]]].
           assert (Hymd : ymd_text U s1 y m d) by (now exists yt, mt, dt).
           exists y, m, d. split; [exact Hymd|].
           rewrite (strptime_ymd U U_ok s1 y m d Hymd) in Hs.
           apply real_date_checked. unfold datetime_new in Hs.
           destruct (check_date_fields_cases y m d) as [Hc|Hc]; [exact Hc|].
           rewrite Hc in Hs. discriminate.
        -- unfold strptime, _strptime in Hs. rewrite TimeRE_pattern_ymd in Hs.
           cbn [obind] in Hs. rewrite Hre, Hend in Hs. discriminate.
      * unfold strptime, _strptime in Hs. rewrite TimeRE_pattern_ymd in Hs.
        cbn [obind] in Hs. rewrite Hre in Hs. discriminate.
    + destruct e; discriminate.
  - intros [y [m [d [Hymd Hreal]]]].
    rewrite (strptime_ymd U U_ok s y m d Hymd).
    now rewrite (datetime_new_real_date y m d Hreal).
Qed.

Lemma is_valid_date_format_false (s : str) (y m d : Z) :
  ymd_text U s y m d -> ~ real_date y m d ->
  is_valid_date_format U s = Returned false.
Proof.
  intros Hymd Hreal. unfold is_valid_date_format.
  rewrite (strptime_ymd U U_ok s y m d Hymd).
  now rewrite (datetime_new_not_real_date y m d Hreal).
Qed.

End DateValidator.

(** C1.  The date validator never raises, and it returns true exactly on
    the texts made of a four-digit year, a hyphen, a month, a hyphen and a
    day that name a real date of the years 1..9999, where the month may be
    written with one or two digits and the day with one or two digits or a
    space and a digit: [2023-02-30] is refused, [2023-01-01] is accepted,
    and so is [2023-1-1]. *)
Theorem is_valid_date_format_accepts (U : unicode_db) (s : str) :
  unicode_db_ok U ->
  (exists b, is_valid_date_format U s = Returned b) /\
  (is_valid_date_format U s = Returned true <->
   exists y m d, ymd_text U s y m d /\ real_date y m d) /\
  is_valid_date_format U (lit "2023-02-30") = Returned false /\
  is_valid_date_format U (lit "2023-01-01") = Returned true /\
  is_valid_date_format U (lit "2023-1-1") = Returned true.
Proof.
  intros Hok.
  assert (Hyear : year_text U (lit "2023") 2023).
  { apply (year_text_ascii U (ord "2") (ord "0") (ord "2") (ord "3") Hok);
      vm_compute; split; discriminate. }
  split; [now apply is_valid_date_format_returns|].
  split; [now apply is_valid_date_format_true|].
  split; [|split].
  - apply (is_valid_date_format_false U Hok _ 2023%Z 2%Z 30%Z).
    + exists (lit "2023"), (lit "02"), (lit "30"). repeat split; auto.
      * apply (month_0x (ord "2")). reflexivity.
      * apply (day_3x U (ord "0")). reflexivity.
    + intros [_ [_ H]]. vm_compute in H. destruct H as [_ H]. now apply H.
  - apply (is_valid_date_format_true U Hok). exists 2023%Z, 1%Z, 1%Z. split.
    + exists (lit "2023"), (lit "01"), (lit "01"). repeat split; auto.
      * apply (month_0x (ord "1")). reflexivity.
      * apply (day_0x U (ord "1")). reflexivity.
    + vm_compute. repeat split; discriminate.
  - apply (is_valid_date_format_true U Hok). exists 2023%Z, 1%Z, 1%Z. split.
    + exists (lit "2023"), (lit "1"), (lit "1"). repeat split; auto.
      * apply (month_x (ord "1")). reflexivity.
      * apply (day_x U (ord "1")). reflexivity.
    + vm_compute. repeat split; discriminate.
Qed.

Lemma is_valid_date_format_accepts_witness :
  is_valid_date_format ascii_db (lit "2024-2-29") = Returned true <->
  exists y m d, ymd_text ascii_db (lit "2024-2-29") y m d /\ real_date y m d.
Proof.
  exact (proj1 (proj2 (is_valid_date_format_accepts ascii_db (lit "2024-2-29")
                         ascii_db_ok))).
Defined.

(** The validator accepts a month and a day written with one digit. *)
Lemma single_digit_date_accepted :
  is_valid_date_format ascii_db (lit "2023-1-1") = Returned true.
Proof. vm_compute. reflexivity. Qed.

(** ** The order of dates *)

Lemma days_before_year_succ (y : Z) :
  _days_before_year (y + 1) =
  (_days_before_year y + 365 + int_of_bool (_is_leap y))%Z.
Proof.
  unfold _days_before_year, _is_leap, int_of_bool.
  replace (y + 1 - 1)%Z with y by lia.
  destruct (Z.eqb_spec (y mod 4) 0), (Z.eqb_spec (y mod 100) 0),
    (Z.eqb_spec (y mod 400) 0); cbn [andb orb negb];
    Z.div_mod_to_equations; lia.
Qed.

Lemma days_before_year_mono (y y' : Z) :
  (y <= y')%Z -> (_days_before_year y <= _days_before_year y')%Z.
Proof.
  intros H. unfold _days_before_year. Z.div_mod_to_equations. lia.
Qed.

Lemma month_cases (m : Z) :
  (1 <= m <= 12)%Z ->
  (m = 1 \/ m = 2 \/ m = 3 \/ m = 4 \/ m = 5 \/ m = 6 \/
   m = 7 \/ m = 8 \/ m = 9 \/ m = 10 \/ m = 11 \/ m = 12)%Z.
Proof. lia. Qed.

Ltac each_month H :=
  apply month_cases in H;
  repeat (destruct H as [H|H]; [subst|]); [..|subst].

Ltac eval_month_tables :=
  repeat match goal with
         | |- context [getitem ?t ?k] =>
             let v := eval vm_compute in (getitem t k) in
             lazymatch v with
             | Zpos _ => change (getitem t k) with v
             | Z0 => change (getitem t k) with v
             | Zneg _ => change (getitem t k) with v
             end
         | |- context [(?a =? ?b)%Z] => closed_bool ((a =? b)%Z)
         | |- context [(?a <? ?b)%Z] => closed_bool ((a <? b)%Z)
         end;
  cbn [andb int_of_bool].

Lemma day_of_year_bounds (y m d : Z) :
  (1 <= m <= 12)%Z -> (1 <= d <= _days_in_month y m)%Z ->
  (1 <= _days_before_month y m + d <= 365 + int_of_bool (_is_leap y))%Z.
Proof.
  intros Hm. unfold _days_before_month, _days_in_month.
  each_month Hm; destruct (_is_leap y); eval_month_tables; lia.
Qed.

Lemma day_of_year_mono (y m d m' d' : Z) :
  (1 <= m <= 12)%Z -> (1 <= m' <= 12)%Z -> (m < m')%Z ->
  (1 <= d <= _days_in_month y m)%Z -> (1 <= d')%Z ->
  (_days_before_month y m + d < _days_before_month y m' + d')%Z.
Proof.
  intros Hm Hm'. unfold _days_before_month, _days_in_month.
  each_month Hm; each_month Hm'; intros Hlt; try lia;
    destruct (_is_leap y); eval_month_tables; lia.
Qed.

(** The day number grows with the date, read as year, month, day. *)
Lemma ymd2ord_lt (y m d y' m' d' : Z) :
  real_date y m d -> real_date y' m' d' ->
  (y < y' \/ (y = y' /\ (m < m' \/ (m = m' /\ d < d'))))%Z ->
  (_ymd2ord y m d < _ymd2ord y' m' d')%Z.
Proof.
  intros [Hy [Hm Hd]] [Hy' [Hm' Hd']] Hlex. unfold _ymd2ord.
  destruct Hlex as [Hlt|[-> [Hlt|[-> Hlt]]]].
  - pose proof (day_of_year_bounds y m d Hm Hd).
    pose proof (day_of_year_bounds y' m' d' Hm' Hd').
    pose proof (days_before_year_succ y).
    pose proof (days_before_year_mono (y + 1) y' ltac:(lia)). lia.
  - pose proof (day_of_year_mono y' m d m' d' Hm Hm' Hlt Hd ltac:(lia)). lia.
  - lia.
Qed.

(** [datetime.__ge__] on two midnights compares their day numbers. *)
Lemma datetime_ge_day_number (y m d y' m' d' : Z) :
  real_date y m d -> real_date y' m' d' ->
  datetime_ge
    {| year := y; month := m; day := d;
       hour := 0; minute := 0; second := 0; microsecond := 0 |}
    {| year := y'; month := m'; day := d';
       hour := 0; minute := 0; second := 0; microsecond := 0 |} = true <->
  (_ymd2ord y' m' d' <= _ymd2ord y m d)%Z.
Proof.
  intros H H'. unfold datetime_ge, datetime_cmp, datetime_fields.
  cbn [_cmp year month day hour minute second microsecond].
  destruct (Z.eqb_spec y y') as [->|Hy].
  - destruct (Z.eqb_spec m m') as [->|Hm].
    + destruct (Z.eqb_spec d d') as [->|Hd].
      * cbn. split; [lia | reflexivity].
      * destruct (Z.ltb_spec d d') as [Hlt|Hge]; cbn.
        -- pose proof (ymd2ord_lt y' m' d y' m' d' H H' ltac:(lia)).
           split; [discriminate | lia].
        -- pose proof (ymd2ord_lt y' m' d' y' m' d H' H ltac:(lia)).
           split; [lia | reflexivity].
    + destruct (Z.ltb_spec m m') as [Hlt|Hge]; cbn.
      * pose proof (ymd2ord_lt y' m d y' m' d' H H' ltac:(lia)).
        split; [discriminate | lia].
      * pose proof (ymd2ord_lt y' m' d' y' m d H' H ltac:(lia)).
        split; [lia | reflexivity].
  - destruct (Z.ltb_spec y y') as [Hlt|Hge]; cbn.
    + pose proof (ymd2ord_lt y m d y' m' d' H H' ltac:(lia)).
      split; [discriminate | lia].
    + pose proof (ymd2ord_lt y' m' d' y m d H' H ltac:(lia)).
      split; [lia | reflexivity].
Qed.

(** ** The range check of [home] *)

Lemma earlier_cases (y m d y' m' d' : Z) :
  earlier y m d y' m' d' \/ (y, m, d) = (y', m', d') \/ earlier y' m' d' y m d.
Proof.
  unfold earlier.
  destruct (Z.lt_total y y') as [H|[H|H]]; [lia | | lia].
  destruct (Z.lt_total m m') as [H1|[H1|H1]]; [lia | | lia].
  destruct (Z.lt_total d d') as [H2|[H2|H2]]; [lia | | lia].
  right. left. congruence.
Qed.

Lemma earlier_day_number (y m d y' m' d' : Z) :
  real_date y m d -> real_date y' m' d' ->
  earlier y m d y' m' d' <-> (_ymd2ord y m d < _ymd2ord y' m' d')%Z.
Proof.
  intros H H'. split; [now apply ymd2ord_lt|]. intros Hlt.
  destruct (earlier_cases y m d y' m' d') as [He|[He|He]]; [exact He | |].
  - injection He as -> -> ->. lia.
  - pose proof (ymd2ord_lt y' m' d' y m d H' H He). lia.
Qed.

Lemma check_ticker_text (ticker : str) :
  check_ticker_value (Text ticker) = Returned (is_valid_ticker_suffix ticker).
Proof. reflexivity. Qed.

Section HomeRangeCheck.

Variable E : env.
Hypothesis U_ok : unicode_db_ok (unicode E).

(** A text the validator accepts parses to the midnight of a real date. *)
Lemma valid_date_parses (s : str) :
  is_valid_date_format (unicode E) s = Returned true ->
  exists y m d,
    real_date y m d /\
    strptime (unicode E) s "%Y-%m-%d" =
      Returned {| year := y; month := m; day := d;
                  hour := 0; minute := 0; second := 0; microsecond := 0 |}.
Proof.
  intros H. apply (is_valid_date_format_true (unicode E) U_ok) in H
    as [y [m [d [Hymd Hreal]]]].
  exists y, m, d. split; [exact Hreal|].
  rewrite (strptime_ymd (unicode E) U_ok s y m d Hymd).
  now apply datetime_new_real_date.
Qed.

(** A text that writes a real date writes no other date. *)
Lemma one_reading (s : str) (y m d y' m' d' : Z) :
  ymd_text (unicode E) s y m d -> real_date y m d ->
  ymd_text (unicode E) s y' m' d' ->
  (y', m', d') = (y, m, d).
Proof.
  intros H Hreal H'.
  pose proof (strptime_ymd (unicode E) U_ok s y m d H) as Hs.
  rewrite (strptime_ymd (unicode E) U_ok s y' m' d' H') in Hs.
  rewrite (datetime_new_real_date y m d Hreal) in Hs.
  destruct (check_date_fields_cases y' m' d') as [Hc|Hc].
  - apply real_date_checked in Hc.
    rewrite (datetime_new_real_date y' m' d' Hc) in Hs.
    injection Hs as -> -> ->. reflexivity.
  - unfold datetime_new in Hs. rewrite Hc in Hs. discriminate.
Qed.

(** [home] on a submitted form whose ticker and dates pass the format
    checks: only the comparison of the two dates is left. *)
Lemma home_valid_dates (req : request) (w : world) (ticker b e : str)
    (tb te : datetime) :
  validate_on_submit (unicode E) req = true ->
  field_data req "ticker" = Some (Text ticker) ->
  is_valid_ticker_suffix ticker = true ->
  field_data req "begin_date" = Some (Text b) ->
  field_data req "end_date" = Some (Text e) ->
  is_valid_date_format (unicode E) b = Returned true ->
  is_valid_date_format (unicode E) e = Returned true ->
  strptime (unicode E) b "%Y-%m-%d" = Returned tb ->
  strptime (unicode E) e "%Y-%m-%d" = Returned te ->
  home E req w =
  if datetime_ge tb te
  then (Returned (Redirect EpHome), snd (flash MsgBadDateRange w))
  else (Returned (Redirect (EpSearchPrice ticker b e)), w).
Proof.
  intros Hv Ht Hs Hb He Hvb Hve Hpb Hpe.
  unfold home, bind, query_all, lift. cbv beta iota.
  rewrite Hv, Ht, check_ticker_text, Hs, Hb, He.
  unfold expect_str, ret. cbv beta iota.
  rewrite Hvb. cbn [negb]. rewrite Hve. cbn [negb].
  rewrite Hpb, Hpe. destruct (datetime_ge tb te); reflexivity.
Qed.

End HomeRangeCheck.

(** C6. On a submitted form whose ticker passes the format check and
    whose two dates both pass the date-format check, each of the two
    texts writes one real date, and [home] redirects to the price-display
    route exactly when the date the begin text writes comes before the
    date the end text writes; when the two texts write the same date, or
    the begin text the later one, [home] flashes the range error and
    redirects to itself. *)
Theorem home_range_check (E : env) (req : request) (w : world)
    (ticker b e : str) :
  unicode_db_ok (unicode E) ->
  validate_on_submit (unicode E) req = true ->
  field_data req "ticker" = Some (Text ticker) ->
  is_valid_ticker_suffix ticker = true ->
  field_data req "begin_date" = Some (Text b) ->
  field_data req "end_date" = Some (Text e) ->
  is_valid_date_format (unicode E) b = Returned true ->
  is_valid_date_format (unicode E) e = Returned true ->
  exists yb mb db ye me de : Z,
    (ymd_text (unicode E) b yb mb db /\ real_date yb mb db) /\
    (ymd_text (unicode E) e ye me de /\ real_date ye me de) /\
    (forall y m d, ymd_text (unicode E) b y m d -> (y, m, d) = (yb, mb, db)) /\
    (forall y m d, ymd_text (unicode E) e y m d -> (y, m, d) = (ye, me, de)) /\
    (home E req w = (Returned (Redirect (EpSearchPrice ticker b e)), w) <->
     earlier yb mb db ye me de) /\
    ((yb, mb, db) = (ye, me, de) \/ earlier ye me de yb mb db ->
     home E req w =
       (Returned (Redirect EpHome),
        {| search_records := search_records w; session := session w;
           flashes := flashes w ++ [MsgBadDateRange]; replies := replies w;
           app_log := app_log w; clock_reads := clock_reads w |})).
Proof.
  intros Hok Hv Ht Hs Hb He Hvb Hve.
  destruct (proj1 (is_valid_date_format_true (unicode E) Hok b) Hvb)
    as [yb [mb [db [Htb Hrb]]]].
  destruct (proj1 (is_valid_date_format_true (unicode E) Hok e) Hve)
    as [ye [me [de [Hte Hre]]]].
  exists yb, mb, db, ye, me, de.
  split; [now split|]. split; [now split|].
  split; [intros y m d H; exact (one_reading E Hok b yb mb db y m d Htb Hrb H)|].
  split; [intros y m d H; exact (one_reading E Hok e ye me de y m d Hte Hre H)|].
  pose proof (strptime_ymd (unicode E) Hok b yb mb db Htb) as Hpb.
  pose proof (strptime_ymd (unicode E) Hok e ye me de Hte) as Hpe.
  rewrite (datetime_new_real_date yb mb db Hrb) in Hpb.
  rewrite (datetime_new_real_date ye me de Hre) in Hpe.
  rewrite (home_valid_dates E req w ticker b e _ _
             Hv Ht Hs Hb He Hvb Hve Hpb Hpe).
  pose proof (datetime_ge_day_number yb mb db ye me de Hrb Hre) as Hge.
  pose proof (earlier_day_number yb mb db ye me de Hrb Hre) as Hlt.
  pose proof (earlier_day_number ye me de yb mb db Hre Hrb) as Hgt.
  destruct (datetime_ge _ _).
  - assert (Hle : (_ymd2ord ye me de <= _ymd2ord yb mb db)%Z)
      by (now apply Hge).
    split; [|reflexivity].
    split; [discriminate|]. intros H. apply Hlt in H. lia.
  - assert (Hnle : ~ (_ymd2ord ye me de <= _ymd2ord yb mb db)%Z)
      by (intros H; apply Hge in H; discriminate).
    split; [split; [intros _; apply Hlt; lia | reflexivity]|].
    intros [H|H].
    + injection H as -> -> ->. lia.
    + apply Hgt in H. lia.
Qed.

Lemma example_date_texts :
  ymd_text ascii_db (lit "2023-01-01") 2023 1 1 /\
  ymd_text ascii_db (lit "2023-03-01") 2023 3 1.
Proof.
  assert (Hyear : year_text ascii_db (lit "2023") 2023)
    by exact (year_4 ascii_db (ord "2") (ord "0") (ord "2") (ord "3")
                2 0 2 3 eq_refl eq_refl eq_refl eq_refl).
  split.
  - exists (lit "2023"), (lit "01"), (lit "01"). repeat split; auto.
    + apply (month_0x (ord "1")). reflexivity.
    + apply (day_0x ascii_db (ord "1")). reflexivity.
  - exists (lit "2023"), (lit "03"), (lit "01"). repeat split; auto.
    + apply (month_0x (ord "3")). reflexivity.
    + apply (day_0x ascii_db (ord "1")). reflexivity.
Qed.

Lemma home_range_check_witness :
  home example_env
    (example_request POST []
       [("ticker"%string, lit "2330.TW");
        ("begin_date"%string, lit "2023-01-01");
        ("end_date"%string, lit "2023-03-01")] [])
    initial_world =
  (Returned
     (Redirect
        (EpSearchPrice (lit "2330.TW") (lit "2023-01-01") (lit "2023-03-01"))),
   initial_world) /\
  home example_env
    (example_request POST []
       [("ticker"%string, lit "2330.TW");
        ("begin_date"%string, lit "2023-01-01");
        ("end_date"%string, lit "2023-01-01")] [])
    initial_world =
  (Returned (Redirect EpHome),
   {| search_records := []; session := []; flashes := [MsgBadDateRange];
      replies := []; app_log := []; clock_reads := 0 |}) /\
  home example_env
    (example_request POST []
       [("ticker"%string, lit "2330.TW");
        ("begin_date"%string, lit "2023-03-01");
        ("end_date"%string, lit "2023-01-01")] [])
    initial_world =
  (Returned (Redirect EpHome),
   {| search_records := []; session := []; flashes := [MsgBadDateRange];
      replies := []; app_log := []; clock_reads := 0 |}).
Proof.
  destruct example_date_texts as [Hjan Hmar].
  split; [|split].
  - destruct (home_range_check example_env
                (example_request POST []
                   [("ticker"%string, lit "2330.TW");
                    ("begin_date"%string, lit "2023-01-01");
                    ("end_date"%string, lit "2023-03-01")] [])
                initial_world
                (lit "2330.TW") (lit "2023-01-01") (lit "2023-03-01")
                ascii_db_ok eq_refl eq_refl eq_refl eq_refl eq_refl
                eq_refl eq_refl)
      as [yb [mb [db [ye [me [de [_ [_ [Hb [He [Hpass _]]]]]]]]]]].
    specialize (Hb _ _ _ Hjan). specialize (He _ _ _ Hmar).
    injection Hb as <- <- <-. injection He as <- <- <-.
    apply Hpass. unfold earlier. lia.
  - destruct (home_range_check example_env
                (example_request POST []
                   [("ticker"%string, lit "2330.TW");
                    ("begin_date"%string, lit "2023-01-01");
                    ("end_date"%string, lit "2023-01-01")] [])
                initial_world
                (lit "2330.TW") (lit "2023-01-01") (lit "2023-01-01")
                ascii_db_ok eq_refl eq_refl eq_refl eq_refl eq_refl
                eq_refl eq_refl)
      as [yb [mb [db [ye [me [de [_ [_ [Hb [He [_ Hfail]]]]]]]]]]].
    specialize (Hb _ _ _ Hjan). specialize (He _ _ _ Hjan).
    injection Hb as <- <- <-. injection He as <- <- <-.
    apply Hfail. left. reflexivity.
  - destruct (home_range_check example_env
                (example_request POST []
                   [("ticker"%string, lit "2330.TW");
                    ("begin_date"%string, lit "2023-03-01");
                    ("end_date"%string, lit "2023-01-01")] [])
                initial_world
                (lit "2330.TW") (lit "2023-03-01") (lit "2023-01-01")
                ascii_db_ok eq_refl eq_refl eq_refl eq_refl eq_refl
                eq_refl eq_refl)
      as [yb [mb [db [ye [me [de [_ [_ [Hb [He [_ Hfail]]]]]]]]]]].
    specialize (Hb _ _ _ Hmar). specialize (He _ _ _ Hjan).
    injection Hb as <- <- <-. injection He as <- <- <-.
    apply Hfail. right. unfold earlier. lia.
Defined.

(** ** Day numbers and dates: [fromordinal] inverts [toordinal] *)

Lemma month_of_offset (leap : bool) (n : Z) :
  (0 <= n < 365 + int_of_bool leap)%Z ->
  exists month day : Z,
    (let month := Z.shiftr (n + 50) 5 in
     let preceding :=
       (getitem _DAYS_BEFORE_MONTH month
        + int_of_bool ((2 <? month)%Z && leap))%Z in
     if (n <? preceding)%Z then
       let month := (month - 1)%Z in
       let preceding :=
         (preceding
          - (getitem _DAYS_IN_MONTH month
             + int_of_bool ((month =? 2)%Z && leap)))%Z in
       (month, (n - preceding + 1)%Z)
     else (month, (n - preceding + 1)%Z)) = (month, day) /\
    (1 <= month <= 12)%Z /\
    (1 <= day <=
     if ((month =? 2)%Z && leap)%bool then 29 else getitem _DAYS_IN_MONTH month)%Z /\
    (getitem _DAYS_BEFORE_MONTH month
     + int_of_bool ((2 <? month)%Z && leap) + day = n + 1)%Z.
Proof.
  intros Hn. rewrite Z.shiftr_div_pow2 by lia. change (2 ^ 5)%Z with 32%Z.
  assert (Hm : (1 <= (n + 50) / 32 <= 12)%Z)
    by (destruct leap; cbn [int_of_bool] in Hn; Z.div_mod_to_equations; lia).
  remember ((n + 50) / 32)%Z as month eqn:Hmonth.
  assert (Hrange : (32 * month <= n + 50 < 32 * month + 32)%Z)
    by (subst month; Z.div_mod_to_equations; lia).
  clear Hmonth. cbv zeta.
  each_month Hm; destruct leap; cbn [int_of_bool] in Hn; eval_month_tables;
    match goal with
    | |- context [(n <? ?p)%Z] => destruct (Z.ltb_spec n p)
    end;
    eval_month_tables; eexists; eexists; (split; [reflexivity|]);
    eval_month_tables; lia.
Qed.

Lemma is_leap_cases (y : Z) :
  _is_leap y = true <->
  (y mod 4 = 0 /\ (y mod 100 <> 0 \/ y mod 400 = 0))%Z.
Proof.
  unfold _is_leap.
  rewrite andb_true_iff, orb_true_iff, negb_true_iff, !Z.eqb_eq, Z.eqb_neq.
  tauto.
Qed.

(** [_ord2ymd] returns a real date whose day number is its argument. *)
Lemma ord2ymd_ymd2ord (n : Z) :
  (1 <= n <= _MAXORDINAL)%Z ->
  exists y m d : Z,
    _ord2ymd n = (y, m, d) /\ real_date y m d /\ _ymd2ord y m d = n.
Proof.
  intros Hn. unfold _MAXORDINAL in Hn. unfold _ord2ymd.
  change _DI400Y with 146097%Z. change _DI100Y with 36524%Z.
  change _DI4Y with 1461%Z. cbv zeta.
  set (n0 := (n - 1)%Z).
  set (n400 := (n0 / 146097)%Z). set (r400 := (n0 mod 146097)%Z).
  set (n100 := (r400 / 36524)%Z). set (r100 := (r400 mod 36524)%Z).
  set (n4 := (r100 / 1461)%Z). set (r4 := (r100 mod 1461)%Z).
  set (n1 := (r4 / 365)%Z). set (r1 := (r4 mod 365)%Z).
  set (year := (n400 * 400 + 1 + (n100 * 100 + n4 * 4 + n1))%Z).
  assert (H400 : (n0 = 146097 * n400 + r400 /\ 0 <= r400 < 146097)%Z)
    by (subst n400 r400; Z.div_mod_to_equations; lia).
  assert (H100 : (r400 = 36524 * n100 + r100 /\ 0 <= r100 < 36524)%Z)
    by (subst n100 r100; Z.div_mod_to_equations; lia).
  assert (H4 : (r100 = 1461 * n4 + r4 /\ 0 <= r4 < 1461)%Z)
    by (subst n4 r4; Z.div_mod_to_equations; lia).
  assert (H1 : (r4 = 365 * n1 + r1 /\ 0 <= r1 < 365)%Z)
    by (subst n1 r1; Z.div_mod_to_equations; lia).
  assert (Hn0 : (n = n0 + 1 /\ 0 <= n0 < 3652059)%Z) by (subst n0; lia).
  clearbody n400 r400 n100 r100 n4 r4 n1 r1 n0.
  destruct ((n1 =? 4)%Z || (n100 =? 4)%Z)%bool eqn:Hend.
  - exists (year - 1)%Z, 12%Z, 31%Z. split; [reflexivity|].
    assert (Hy : (year - 1 = 400 * n400 + 100 * n100 + 4 * n4 + n1)%Z)
      by (subst year; lia).
    assert (Hcase : (n1 = 4 \/ n100 = 4)%Z)
      by (apply orb_true_iff in Hend; rewrite !Z.eqb_eq in Hend; exact Hend).
    assert (Hr : (r1 = 0)%Z) by lia.
    assert (Hleap : _is_leap (year - 1) = true).
    { apply is_leap_cases. rewrite Hy. Z.div_mod_to_equations. lia. }
    unfold real_date, _ymd2ord, _days_before_month, _days_in_month,
      _days_before_year. rewrite Hleap. eval_month_tables.
    rewrite Hy. Z.div_mod_to_equations. lia.
  - apply orb_false_iff in Hend as [Hn1 Hn100].
    apply Z.eqb_neq in Hn1, Hn100.
    set (leapyear := ((n1 =? 3)%Z && (negb (n4 =? 24)%Z || (n100 =? 3)%Z))%bool).
    assert (Hy : (year - 1 = 400 * n400 + 100 * n100 + 4 * n4 + n1)%Z)
      by (subst year; lia).
    assert (Hleap : _is_leap year = leapyear).
    { subst leapyear.
      destruct (Z.eqb_spec n1 3), (Z.eqb_spec n4 24), (Z.eqb_spec n100 3);
        cbn [andb orb negb];
        first [ apply is_leap_cases; Z.div_mod_to_equations; lia
              | apply not_true_iff_false; rewrite is_leap_cases;
                Z.div_mod_to_equations; lia ]. }
    assert (Hoff : (0 <= r1 < 365 + int_of_bool leapyear)%Z)
      by (destruct leapyear; cbn [int_of_bool]; lia).
    destruct (month_of_offset leapyear r1 Hoff)
      as [month [day [Heq [Hm [Hd Hsum]]]]].
    cbv zeta in Heq.
    exists year, month, day. split.
    + destruct (r1 <? _)%Z; injection Heq as <- <-; reflexivity.
    + unfold real_date, _ymd2ord, _days_before_month, _days_in_month,
        _days_before_year. rewrite Hleap. repeat split; try lia.
      rewrite Hy. Z.div_mod_to_equations. lia.
Qed.

Lemma fromordinal_toordinal (n : Z) :
  (1 <= n <= _MAXORDINAL)%Z ->
  exists d : date, fromordinal n = Returned d /\ toordinal d = n.
Proof.
  intros Hn. destruct (ord2ymd_ymd2ord n Hn) as [y [m [d [Heq [Hreal Hord]]]]].
  exists {| dyear := y; dmonth := m; dday := d |}.
  unfold fromordinal, date_new. rewrite Heq.
  apply real_date_checked in Hreal. rewrite Hreal. cbn [obind].
  split; [reflexivity | exact Hord].
Qed.

(** Subtracting a [timedelta] of [days] days moves the day number back by
    [days]. *)
Lemma date_sub_toordinal (self : date) (days : Z) (d : date) :
  date_sub self days = Returned d ->
  toordinal d = (toordinal self - days)%Z.
Proof.
  unfold date_sub, date_add. 
  destruct ((0 <? toordinal self + - days)%Z
            && (toordinal self + - days <=? _MAXORDINAL)%Z)%bool eqn:Hin;
    [|discriminate].
  apply andb_true_iff in Hin as [Hlo Hhi].
  apply Z.ltb_lt in Hlo. apply Z.leb_le in Hhi.
  destruct (fromordinal_toordinal (toordinal self + - days) ltac:(lia))
    as [d' [Hfrom Hto]].
  rewrite Hfrom. intros [= <-]. lia.
Qed.

(** ** The default date range of the price-display route *)

Lemma search_price_range_default (E : env) (req : request) (w : world) :
  dict_get "begin_date" (args req) = None \/
  dict_get "end_date" (args req) = None ->
  search_price_range E req w =
  (now1 <- datetime_now E ;;
   begin_day <- lift (date_sub (datetime_date now1) 90) ;;
   now2 <- datetime_now E ;;
   ret (date_isoformat begin_day, date_isoformat (datetime_date now2))) w.
Proof.
  unfold search_price_range.
  intros [H|H]; rewrite H; [|destruct (dict_get "begin_date" (args req))];
    reflexivity.
Qed.

(** C10. When exactly one of [begin_date] and [end_date] is supplied to
    the price-display route, the supplied value plays no part: the range
    and the whole answer are those of the same request with neither
    parameter, namely the range from the day 90 days before today up to
    today. *)
Theorem search_price_single_date_ignored (E : env) (ticker : str)
    (req req0 : request) (w : world) :
  method req = GET ->
  method req0 = GET ->
  (dict_get "begin_date" (args req) = None /\
   dict_get "end_date" (args req) <> None) \/
  (dict_get "begin_date" (args req) <> None /\
   dict_get "end_date" (args req) = None) ->
  dict_get "begin_date" (args req0) = None ->
  dict_get "end_date" (args req0) = None ->
  search_price_range E req w = search_price_range E req0 w /\
  full_dispatch_request E (RoutePrice ticker) req w =
    full_dispatch_request E (RoutePrice ticker) req0 w /\
  forall today begin_day : date,
    datetime_date (clock E (clock_reads w)) = today ->
    datetime_date (clock E (S (clock_reads w))) = today ->
    date_sub today 90 = Returned begin_day ->
    fst (search_price_range E req w) =
      Returned (date_isoformat begin_day, date_isoformat today) /\
    toordinal begin_day = (toordinal today - 90)%Z.
Proof.
  intros Hm Hm0 Hone Hb0 He0.
  assert (Hreq : dict_get "begin_date" (args req) = None \/
                 dict_get "end_date" (args req) = None) by tauto.
  assert (Hrange : search_price_range E req w = search_price_range E req0 w).
  { rewrite (search_price_range_default E req w Hreq).
    rewrite (search_price_range_default E req0 w (or_introl Hb0)). reflexivity. }
  split; [exact Hrange|]. split.
  - unfold full_dispatch_request. rewrite Hm, Hm0. cbn [view_allows view].
    unfold search_price, bind at 1 3. now rewrite Hrange.
  - intros today begin_day Ht1 Ht2 Hsub.
    split; [|now apply date_sub_toordinal].
    rewrite (search_price_range_default E req w Hreq).
    unfold bind, datetime_now, lift, ret. cbv beta iota. rewrite Ht1, Hsub.
    cbv beta iota. cbn [clock_reads fst]. rewrite Ht2. reflexivity.
Qed.

Lemma search_price_single_date_ignored_witness :
  full_dispatch_request example_env (RoutePrice (lit "2330.TW"))
    (example_request GET [("begin_date"%string, lit "2001-01-01")] [] [])
    initial_world =
  full_dispatch_request example_env (RoutePrice (lit "2330.TW"))
    (example_request GET [] [] []) initial_world /\
  fst (search_price_range example_env
         (example_request GET [("begin_date"%string, lit "2001-01-01")] [] [])
         initial_world) =
    Returned (lit "2026-08-06", lit "2026-11-04").
Proof.
  assert (Hone :
    (dict_get "begin_date" [("begin_date"%string, lit "2001-01-01")] = None /\
     dict_get "end_date" [("begin_date"%string, lit "2001-01-01")] <> None) \/
    (dict_get "begin_date" [("begin_date"%string, lit "2001-01-01")] <> None /\
     dict_get "end_date" [("begin_date"%string, lit "2001-01-01")] = None)).
  { right. split; [discriminate | reflexivity]. }
  destruct (search_price_single_date_ignored example_env (lit "2330.TW")
              (example_request GET [("begin_date"%string, lit "2001-01-01")] [] [])
              (example_request GET [] [] []) initial_world
              eq_refl eq_refl Hone eq_refl eq_refl)
    as [_ [Hsame Hdefault]].
  split; [exact Hsame|].
  exact (proj1 (Hdefault {| dyear := 2026; dmonth := 11; dday := 4 |}
                         {| dyear := 2026; dmonth := 8; dday := 6 |}
                         eq_refl eq_refl eq_refl)).
Defined.


(* ================================================================== *)
(** * Further properties of the code *)

(** ** The format checks *)

(** X1. In the ticker check of [home] the test for [.TWO] never decides:
    a ticker passes exactly when it contains [.TW]. *)
Theorem ticker_check_two_is_subsumed (t : str) :
  is_valid_ticker_suffix t = contains (lit ".TW") t.
Proof.
  unfold is_valid_ticker_suffix.
  destruct (contains (lit ".TW") t) eqn:Htw; [reflexivity|].
  destruct (contains (lit ".TWO") t) eqn:Htwo; [|reflexivity].
  apply contains_spec in Htwo as [a [b Hab]].
  assert (Hin : contains (lit ".TW") t = true).
  { apply contains_spec. exists a, (lit "O" ++ b). rewrite Hab. reflexivity. }
  congruence.
Qed.

Lemma year_text_length (U : unicode_db) (yt : str) (y : Z) :
  year_text U yt y -> List.length yt = 4%nat.
Proof. now intros []. Qed.

Lemma month_text_length (mt : str) (m : Z) :
  month_text mt m -> (1 <= List.length mt <= 2)%nat.
Proof. intros []; cbn; lia. Qed.

Lemma day_text_length (U : unicode_db) (dt : str) (d : Z) :
  day_text U dt d -> (1 <= List.length dt <= 2)%nat.
Proof. intros []; cbn; lia. Qed.

(** X2. A text the date validator accepts has 8 to 10 characters, the
    fifth of which is a hyphen. *)
Theorem valid_date_length (U : unicode_db) (s : str) :
  unicode_db_ok U ->
  is_valid_date_format U s = Returned true ->
  (8 <= List.length s <= 10)%nat /\ nth_error s 4 = Some (ord "-").
Proof.
  intros Hok H.
  apply (is_valid_date_format_true U Hok) in H
    as [y [m [d [[yt [mt [dt [-> [Hy [Hm Hd]]]]]] _]]]].
  pose proof (month_text_length mt m Hm).
  pose proof (day_text_length U dt d Hd).
  destruct Hy. cbn [app List.length nth_error].
  rewrite length_app. cbn [List.length]. split; [lia | reflexivity].
Qed.

Lemma valid_date_length_witness :
  (8 <= List.length (lit "2023-1-1") <= 10)%nat /\
  nth_error (lit "2023-1-1") 4 = Some (ord "-").
Proof.
  apply (valid_date_length ascii_db (lit "2023-1-1") ascii_db_ok).
  vm_compute. reflexivity.
Defined.

(** X3. The 29th of February is accepted exactly in leap years: for a
    year [y] of 1..9999 written [yt], the validator's answer on
    [yt-02-29] is [_is_leap y]. *)
Theorem february_29_iff_leap (U : unicode_db) (yt : str) (y : Z) :
  unicode_db_ok U ->
  year_text U yt y ->
  (1 <= y <= 9999)%Z ->
  is_valid_date_format U (yt ++ lit "-02-29") = Returned (_is_leap y).
Proof.
  intros Hok Hy Hrange.
  assert (H9 : decimal_value U (ord "9") = Some 9%Z)
    by (apply (literal_digit U Hok); vm_compute; split; discriminate).
  assert (Hymd : ymd_text U (yt ++ lit "-02-29") y 2 29).
  { exists yt, (lit "02"), (lit "29"). repeat split; auto.
    - apply (month_0x (ord "2")). reflexivity.
    - apply (day_1x_2x U (ord "2") (ord "9") 9); [reflexivity | exact H9]. }
  destruct (_is_leap y) eqn:Hleap.
  - apply (is_valid_date_format_true U Hok). exists y, 2%Z, 29%Z.
    split; [exact Hymd|]. unfold real_date, _days_in_month.
    rewrite Hleap. change ((2 =? 2)%Z) with true. cbn [andb]. lia.
  - apply (is_valid_date_format_false U Hok _ y 2 29 Hymd).
    unfold real_date, _days_in_month. rewrite Hleap.
    change ((2 =? 2)%Z) with true. cbn [andb].
    change (getitem _DAYS_IN_MONTH 2) with 28%Z. lia.
Qed.

Lemma february_29_iff_leap_witness :
  is_valid_date_format ascii_db (lit "1900-02-29") = Returned false.
Proof.
  apply (february_29_iff_leap ascii_db (lit "1900") 1900
           ascii_db_ok
           (year_4 ascii_db (ord "1") (ord "9") (ord "0") (ord "0") 1 9 0 0
              eq_refl eq_refl eq_refl eq_refl)).
  lia.
Defined.

(** ** The search form *)



(** What [home] does on a validated submission of three texts, case by
    case. *)
Lemma home_submitted (E : env) (req : request) (w : world) (ticker b e : str) :
  unicode_db_ok (unicode E) ->
  validate_on_submit (unicode E) req = true ->
  field_data req "ticker" = Some (Text ticker) ->
  field_data req "begin_date" = Some (Text b) ->
  field_data req "end_date" = Some (Text e) ->
  home E req w =
  if is_valid_ticker_suffix ticker then
    match is_valid_date_format (unicode E) b,
          is_valid_date_format (unicode E) e with
    | Returned true, Returned true =>
        match strptime (unicode E) b "%Y-%m-%d",
              strptime (unicode E) e "%Y-%m-%d" with
        | Returned tb, Returned te =>
            if datetime_ge tb te
            then (Returned (Redirect EpHome), snd (flash MsgBadDateRange w))
            else (Returned (Redirect (EpSearchPrice ticker b e)), w)
        | _, _ => (Returned (Redirect EpHome), snd (flash MsgBadDateFormat w))
        end
    | _, _ => (Returned (Redirect EpHome), snd (flash MsgBadDateFormat w))
    end
  else (Returned (Redirect EpHome), snd (flash MsgBadTicker w)).
Proof.
  intros Hok Hv Ht Hb He.
  unfold home, bind, query_all, lift. cbv beta iota.
  rewrite Hv, Ht, check_ticker_text.
  destruct (is_valid_ticker_suffix ticker); [|reflexivity].
  rewrite Hb, He. unfold expect_str, ret. cbv beta iota.
  destruct (is_valid_date_format_returns (unicode E) Hok b) as [vb Hvb].
  destruct (is_valid_date_format_returns (unicode E) Hok e) as [ve Hve].
  rewrite Hvb. destruct vb; cbn [negb]; [|reflexivity].
  rewrite Hve. destruct ve; cbn [negb]; [|reflexivity].
  destruct (valid_date_parses E Hok b Hvb) as [y [m [d [_ Hpb]]]].
  destruct (valid_date_parses E Hok e Hve) as [y' [m' [d' [_ Hpe]]]].
  rewrite Hpb, Hpe. destruct (datetime_ge _ _); reflexivity.
Qed.

(** X4. On a validated submission whose ticker holds no [.TW], [home]
    flashes the ticker error and redirects to itself, whatever the two
    dates are. *)
Theorem home_rejects_ticker (E : env) (req : request) (w : world)
    (ticker : str) :
  validate_on_submit (unicode E) req = true ->
  field_data req "ticker" = Some (Text ticker) ->
  contains (lit ".TW") ticker = false ->
  home E req w = (Returned (Redirect EpHome), snd (flash MsgBadTicker w)).
Proof.
  intros Hv Ht Hno.
  assert (Hbad : is_valid_ticker_suffix ticker = false).
  { unfold is_valid_ticker_suffix. rewrite Hno, orb_false_l.
    destruct (contains (lit ".TWO") ticker) eqn:Htwo; [|reflexivity].
    apply contains_spec in Htwo as [a [b' Hab]].
    assert (contains (lit ".TW") ticker = true); [|congruence].
    apply contains_spec. exists a, (lit "O" ++ b'). rewrite Hab. reflexivity. }
  unfold home, bind, query_all, lift. cbv beta iota.
  rewrite Hv, Ht, check_ticker_text. now rewrite Hbad.
Qed.

Lemma home_rejects_ticker_witness :
  home example_env
    (example_request POST []
       [("ticker"%string, lit "2330");
        ("begin_date"%string, lit "not a date");
        ("end_date"%string, lit "2023-03-01")] [])
    initial_world =
  (Returned (Redirect EpHome), snd (flash MsgBadTicker initial_world)).
Proof.
  apply (home_rejects_ticker example_env _ initial_world (lit "2330"));
    reflexivity.
Defined.

(** X5. On a validated submission whose ticker passes, a begin date or an
    end date the validator refuses makes [home] flash the date-format
    error and redirect to itself. *)
Theorem home_rejects_date_format (E : env) (req : request) (w : world)
    (ticker b e : str) :
  unicode_db_ok (unicode E) ->
  validate_on_submit (unicode E) req = true ->
  field_data req "ticker" = Some (Text ticker) ->
  is_valid_ticker_suffix ticker = true ->
  field_data req "begin_date" = Some (Text b) ->
  field_data req "end_date" = Some (Text e) ->
  is_valid_date_format (unicode E) b = Returned false \/
  is_valid_date_format (unicode E) e = Returned false ->
  home E req w = (Returned (Redirect EpHome), snd (flash MsgBadDateFormat w)).
Proof.
  intros Hok Hv Ht Hs Hb He Hbad.
  rewrite (home_submitted E req w ticker b e Hok Hv Ht Hb He), Hs.
  destruct Hbad as [H|H]; rewrite H; [reflexivity|].
  destruct (is_valid_date_format (unicode E) b) as [[|]|]; reflexivity.
Qed.

Lemma home_rejects_date_format_witness :
  home example_env
    (example_request POST []
       [("ticker"%string, lit "2330.TW");
        ("begin_date"%string, lit "2023-01-01");
        ("end_date"%string, lit "2023-02-30")] [])
    initial_world =
  (Returned (Redirect EpHome), snd (flash MsgBadDateFormat initial_world)).
Proof.
  apply (home_rejects_date_format example_env _ initial_world
           (lit "2330.TW") (lit "2023-01-01") (lit "2023-02-30") ascii_db_ok);
    try reflexivity.
  right. vm_compute. reflexivity.
Defined.





(** ** The table of search records across requests *)

Lemma session_remove_id (w : world) : session w = [] -> session_remove w = w.
Proof.
  intros H. destruct w. cbn in *. unfold session_remove, set_store. cbn.
  now rewrite H.
Qed.

(** X8. Requests to the home route and to the webhook never change the
    table of search records, whatever they carry and however they end. *)
Theorem home_and_callback_keep_table (E : env) (req : request) (w : world) :
  search_records (snd (full_dispatch_request E RouteHome req w)) =
    search_records w /\
  search_records (snd (full_dispatch_request E RouteCallback req w)) =
    search_records w.
Proof.
  split; unfold full_dispatch_request.
  - destruct (view_allows RouteHome (method req)).
    + cbn [view]. destruct (keeps_home E req w) as [Hrows _].
      destruct (home E req w) as [[r|[]] w']; exact Hrows.
    + destruct (method req); reflexivity.
  - destruct (view_allows RouteCallback (method req)).
    + cbn [view]. destruct (keeps_callback E req w) as [Hrows _].
      destruct (callback E req w) as [[r|[]] w']; exact Hrows.
    + destruct (method req); reflexivity.
Qed.

(** X9. A request to the price route never removes or alters a stored
    record: the table afterwards is the table before, followed by at most
    one new record, which then holds the requested ticker. *)
Theorem search_price_only_appends (E : env) (t : str) (req : request)
    (w : world) :
  reachable w ->
  exists added : list SearchRecord.t,
    search_records (snd (full_dispatch_request E (RoutePrice t) req w)) =
      search_records w ++ added /\
    (added = [] \/
     exists key : Z,
       added = [{| SearchRecord.id := key; SearchRecord.ticker := t |}] /\
       count_ticker t (search_records w) = 0%nat).
Proof.
  intros Hreach. destruct (reachable_world_ok w Hreach) as [_ Hs].
  unfold full_dispatch_request.
  destruct (view_allows (RoutePrice t) (method req)).
  - cbn [view].
    assert (Hrows :
      exists added : list SearchRecord.t,
        search_records (snd (search_price E t req w)) =
          search_records w ++ added /\
        (added = [] \/
         exists key : Z,
           added = [{| SearchRecord.id := key; SearchRecord.ticker := t |}] /\
           count_ticker t (search_records w) = 0%nat)).
    { destruct (search_price_store E t req w Hs) as [Hsame|[Hnone Hnew]].
      - exists []. rewrite app_nil_r. auto.
      - eexists. split; [exact Hnew|]. right. eexists. split; [reflexivity|].
        now apply count_ticker_absent. }
    destruct (search_price E t req w) as [[r|[]] w']; exact Hrows.
  - exists []. rewrite app_nil_r. destruct (method req); auto.
Qed.

Lemma search_price_only_appends_witness :
  exists added : list SearchRecord.t,
    search_records
      (snd (full_dispatch_request example_env (RoutePrice (lit "2330.TW"))
              (example_request GET [] [] []) example_world_with_record)) =
      search_records example_world_with_record ++ added.
Proof.
  destruct (search_price_only_appends example_env (lit "2330.TW")
              (example_request GET [] [] []) example_world_with_record
              (reachable_request example_env initial_world
                 (RoutePrice (lit "2330.TW")) (example_request GET [] [] [])
                 reachable_initial))
    as [added [Hrows _]].
  exists added. exact Hrows.
Defined.

(** X10. A GET of the delete route without a [ticker] parameter deletes
    nothing: it answers with the redirect to the home route and leaves the
    world as it was. *)
Theorem delete_without_ticker (E : env) (req : request) (w : world) :
  reachable w ->
  method req = GET ->
  dict_get "ticker" (args req) = None ->
  full_dispatch_request E RouteDelete req w =
    ({| status := 302; payload := Some (Redirect EpHome) |}, w).
Proof.
  intros Hreach Hm Hnone. destruct (reachable_world_ok w Hreach) as [_ Hs].
  unfold full_dispatch_request. rewrite Hm. cbn [view_allows view].
  unfold delete_record, bind, query_filter_by_ticker_first, ret.
  rewrite Hnone. cbn. now rewrite (session_remove_id w Hs).
Qed.

Lemma delete_without_ticker_witness :
  full_dispatch_request example_env RouteDelete
    (example_request GET [] [] []) example_world_with_record =
  ({| status := 302; payload := Some (Redirect EpHome) |},
   example_world_with_record).
Proof.
  apply (delete_without_ticker example_env (example_request GET [] [] [])
           example_world_with_record
           (reachable_request example_env initial_world
              (RoutePrice (lit "2330.TW")) (example_request GET [] [] [])
              reachable_initial));
    reflexivity.
Defined.

Lemma find_deleted (t : str) (rows : list SearchRecord.t) :
  find (has_ticker t) (filter (fun r => negb (has_ticker t r)) rows) = None.
Proof.
  induction rows as [|r rows IH]; cbn; [reflexivity|].
  destruct (has_ticker t r) eqn:Hr; cbn; [exact IH|]. now rewrite Hr.
Qed.

(** The world after a GET of the delete route for [t]. *)
Lemma delete_dispatch (E : env) (req : request) (w : world) (t : str) :
  world_ok w ->
  method req = GET ->
  dict_get "ticker" (args req) = Some t ->
  exists w',
    full_dispatch_request E RouteDelete req w =
      ({| status := 302; payload := Some (Redirect EpHome) |}, w') /\
    world_ok w' /\
    flashes w' = flashes w /\
    search_records w' =
      filter (fun r => negb (has_ticker t r)) (search_records w) /\
    (find (has_ticker t) (search_records w) = None -> w' = w).
Proof.
  intros Hw Hm Ht.
  pose proof (dispatch_world_ok E RouteDelete req w Hw) as Hw'.
  unfold full_dispatch_request in *. rewrite Hm in *.
  cbn [view_allows view] in *.
  destruct (delete_record_effect E req w Hw) as [w1 [Heq [Hs1 [Hfl Hrows]]]].
  rewrite Ht in Hrows. rewrite Heq in *. cbn [snd status_of] in *.
  exists (session_remove w1). split; [reflexivity|].
  split; [exact Hw'|]. split; [exact Hfl|]. split; [exact Hrows|].
  intros Hnone. rewrite (session_remove_id w1 Hs1).
  revert Heq. unfold delete_record, bind, query_filter_by_ticker_first, ret.
  rewrite Ht, Hnone. cbn. congruence.
Qed.

(** X11. Deleting a ticker twice is deleting it once: the second GET of
    the delete route for the same ticker answers with the same redirect
    and leaves the world exactly as the first one left it. *)
Theorem delete_twice (E : env) (req : request) (w : world) (t : str) :
  reachable w ->
  method req = GET ->
  dict_get "ticker" (args req) = Some t ->
  full_dispatch_request E RouteDelete req
    (snd (full_dispatch_request E RouteDelete req w)) =
  ({| status := 302; payload := Some (Redirect EpHome) |},
   snd (full_dispatch_request E RouteDelete req w)).
Proof.
  intros Hreach Hm Ht. pose proof (reachable_world_ok w Hreach) as Hw.
  destruct (delete_dispatch E req w t Hw Hm Ht)
    as [w1 [Heq1 [Hw1 [_ [Hrows1 _]]]]].
  rewrite Heq1. cbn [snd].
  destruct (delete_dispatch E req w1 t Hw1 Hm Ht)
    as [w2 [Heq2 [_ [_ [_ Hnoop]]]]].
  rewrite Heq2. f_equal. apply Hnoop. rewrite Hrows1. apply find_deleted.
Qed.

Lemma delete_twice_witness :
  full_dispatch_request example_env RouteDelete
    (example_request GET [("ticker"%string, lit "2330.TW")] [] [])
    (snd (full_dispatch_request example_env RouteDelete
            (example_request GET [("ticker"%string, lit "2330.TW")] [] [])
            example_world_with_record)) =
  ({| status := 302; payload := Some (Redirect EpHome) |},
   snd (full_dispatch_request example_env RouteDelete
          (example_request GET [("ticker"%string, lit "2330.TW")] [] [])
          example_world_with_record)).
Proof.
  apply (delete_twice example_env
           (example_request GET [("ticker"%string, lit "2330.TW")] [] [])
           example_world_with_record (lit "2330.TW")
           (reachable_request example_env initial_world
              (RoutePrice (lit "2330.TW")) (example_request GET [] [] [])
              reachable_initial));
    reflexivity.
Defined.

Lemma home_get (E : env) (req : request) (w : world) :
  method req = GET ->
  full_dispatch_request E RouteHome req w =
  ({| status := 200;
      payload := Some (RenderIndex (form req) (search_records w)) |},
   session_remove w).
Proof.
  intros Hm. unfold full_dispatch_request. rewrite Hm. cbn [view_allows view].
  unfold home, bind, query_all, validate_on_submit, is_submitted.
  rewrite Hm. reflexivity.
Qed.

(** X12. A ticker that was looked up is listed until it is deleted: after
    a GET of the price route for [t] with a non-empty series, a GET of the
    home route shows a record of [t] among the stored records; after a GET
    of the delete route for [t], it shows none. *)
Theorem looked_up_ticker_listed_until_deleted (E : env) (t : str)
    (req : request) (w w1 : world) (b e : str) (df : DataFrame) :
  reachable w ->
  method req = GET ->
  search_price_range E req w = (Returned (b, e), w1) ->
  yf_download E t b e = Returned df ->
  df <> [] ->
  (forall (E1 : env) (show : request),
      method show = GET ->
      exists records : list SearchRecord.t,
        fst (full_dispatch_request E1 RouteHome show
               (snd (full_dispatch_request E (RoutePrice t) req w))) =
          {| status := 200;
             payload := Some (RenderIndex (form show) records) |} /\
        exists r, In r records /\ SearchRecord.ticker r = t) /\
  (forall (E1 E2 : env) (del show : request),
      method del = GET ->
      dict_get "ticker" (args del) = Some t ->
      method show = GET ->
      exists records : list SearchRecord.t,
        fst (full_dispatch_request E2 RouteHome show
               (snd (full_dispatch_request E1 RouteDelete del
                       (snd (full_dispatch_request E (RoutePrice t) req w))))) =
          {| status := 200;
             payload := Some (RenderIndex (form show) records) |} /\
        forall r, In r records -> SearchRecord.ticker r <> t).
Proof.
  intros Hreach Hm Hrange Hdl Hdf.
  pose proof (reachable_world_ok w Hreach) as Hw.
  pose proof (dispatch_world_ok E (RoutePrice t) req w Hw) as Hw1.
  set (wp := snd (full_dispatch_request E (RoutePrice t) req w)) in *.
  assert (Hstored : exists r, In r (search_records wp) /\
                              SearchRecord.ticker r = t).
  { subst wp. unfold full_dispatch_request. rewrite Hm.
    cbn [view_allows view]. destruct Hw as [_ Hs].
    destruct (search_price_found E t req w w1 b e df Hs Hrange Hdl Hdf)
      as [w2 [-> [_ Hrows]]]. cbn. rewrite Hrows.
    destruct (find (has_ticker t) (search_records w)) as [r|] eqn:Hfind.
    - apply find_some in Hfind as [Hin Ht]. exists r. split; [exact Hin|].
      now apply has_ticker_true.
    - eexists. split; [apply in_or_app; right; left; reflexivity|].
      reflexivity. }
  split.
  - intros E1 show Hshow. rewrite (home_get E1 show wp Hshow). cbn [fst].
    exists (search_records wp). split; [reflexivity | exact Hstored].
  - intros E1 E2 del show Hdel Ht Hshow.
    destruct (delete_dispatch E1 del wp t Hw1 Hdel Ht)
      as [wd [Heq [_ [_ [Hrows _]]]]].
    rewrite Heq. cbn [snd]. rewrite (home_get E2 show wd Hshow). cbn [fst].
    exists (search_records wd). split; [reflexivity|].
    intros r Hin. rewrite Hrows in Hin. apply filter_In in Hin as [_ Hr].
    apply negb_true_iff in Hr. intros Heq'.
    apply has_ticker_true in Heq'. congruence.
Qed.

Lemma looked_up_ticker_listed_until_deleted_witness :
  exists records : list SearchRecord.t,
    fst (full_dispatch_request example_env RouteHome
           (example_request GET [] [] []) example_world_with_record) =
      {| status := 200;
         payload := Some (RenderIndex [] records) |} /\
    exists r, In r records /\ SearchRecord.ticker r = lit "2330.TW".
Proof.
  assert (Hne : example_rows <> []) by discriminate.
  destruct (looked_up_ticker_listed_until_deleted example_env (lit "2330.TW")
              (example_request GET [] [] []) initial_world
              (snd (search_price_range example_env
                      (example_request GET [] [] []) initial_world))
              (lit "2026-08-06") (lit "2026-11-04") example_rows
              reachable_initial eq_refl eq_refl eq_refl Hne)
    as [Hlisted _].
  exact (Hlisted example_env (example_request GET [] [] []) eq_refl).
Defined.

(** A computation that does not read the clock. *)
Lemma search_price_after_range_clock (E : env) (t b e : str) (w : world) :
  session w = [] ->
  clock_reads
    (snd ((stock_price <- lift (yf_download E t b e) ;;
           if df_empty stock_price then
             flash MsgNotFound ;;; ret (Redirect EpHome)
           else
             ticker_record <- query_filter_by_ticker_first (Some t) ;;
             match ticker_record with
             | None => session_add t ;;; session_commit
             | Some _ => ret tt
             end ;;;
             ret (RenderPrice (build_figure t stock_price) "chart")) w)) =
  clock_reads w.
Proof.
  intros Hs. unfold lift at 1. unfold bind at 1.
  destruct (yf_download E t b e) as [[|row df]|x]; [reflexivity| |reflexivity].
  cbn [df_empty]. unfold bind at 1.
  unfold query_filter_by_ticker_first at 1. cbn beta iota.
  destruct (find (has_ticker t) (search_records w)) as [r|] eqn:Hfind.
  - reflexivity.
  - unfold bind at 1. rewrite (add_commit t w Hs Hfind). reflexivity.
Qed.

(** X13. When both dates are supplied, the price route hands them to the
    provider as they are, without validating them and without reading the
    clock, and its answer follows the provider's: the redirect to the home
    route on an empty series, the chart page of the series otherwise, an
    error when the provider raises. *)
Theorem search_price_supplied_range (E : env) (t : str) (req : request)
    (w : world) (b e : str) :
  reachable w ->
  method req = GET ->
  dict_get "begin_date" (args req) = Some b ->
  dict_get "end_date" (args req) = Some e ->
  clock_reads (snd (full_dispatch_request E (RoutePrice t) req w)) =
    clock_reads w /\
  fst (full_dispatch_request E (RoutePrice t) req w) =
    match yf_download E t b e with
    | Returned [] => {| status := 302; payload := Some (Redirect EpHome) |}
    | Returned df =>
        {| status := 200;
           payload := Some (RenderPrice (build_figure t df) "chart") |}
    | Raised (HTTPException code) => {| status := code; payload := None |}
    | Raised _ => {| status := 500; payload := None |}
    end.
Proof.
  intros Hreach Hm Hb He. destruct (reachable_world_ok w Hreach) as [_ Hs].
  assert (Hrange : search_price_range E req w = (Returned (b, e), w))
    by (unfold search_price_range; now rewrite Hb, He).
  unfold full_dispatch_request. rewrite Hm. cbn [view_allows view]. split.
  - pose proof (search_price_after_range_clock E t b e w Hs) as Hclock.
    unfold search_price. rewrite (bind_returned _ _ _ _ _ Hrange).
    cbn beta iota.
    match goal with
    | |- clock_reads (snd (let (o, w') := ?run in _)) = _ =>
        destruct run as [[r|[]] w']; exact Hclock
    end.
  - destruct (yf_download E t b e) as [[|row df]|x] eqn:Hdl.
    + unfold search_price. rewrite (bind_returned _ _ _ _ _ Hrange).
      cbn beta iota. unfold lift at 1. unfold bind at 1. rewrite Hdl.
      reflexivity.
    + assert (Hne : row :: df <> []) by discriminate.
      destruct (search_price_found E t req w w b e _ Hs Hrange Hdl Hne)
        as [w2 [-> _]]. reflexivity.
    + unfold search_price. rewrite (bind_returned _ _ _ _ _ Hrange).
      cbn beta iota. unfold lift at 1. unfold bind at 1. rewrite Hdl.
      destruct x; reflexivity.
Qed.

Lemma search_price_supplied_range_witness :
  fst (full_dispatch_request example_env (RoutePrice (lit "2330.TW"))
         (example_request GET
            [("begin_date"%string, lit "tomorrow");
             ("end_date"%string, lit "")] [] [])
         initial_world) =
  {| status := 200;
     payload :=
       Some (RenderPrice (build_figure (lit "2330.TW") example_rows) "chart") |}.
Proof.
  exact (proj2 (search_price_supplied_range example_env (lit "2330.TW")
                  (example_request GET
                     [("begin_date"%string, lit "tomorrow");
                      ("end_date"%string, lit "")] [] [])
                  initial_world (lit "tomorrow") (lit "")
                  reachable_initial eq_refl eq_refl eq_refl)).
Defined.

(** ** The echo of the webhook *)

Lemma with_replies_nil (w : world) : with_replies w [] = w.
Proof. destruct w. unfold with_replies. cbn. now rewrite app_nil_r. Qed.

Lemma with_replies_app (w : world) (a b : list ReplyMessageRequest) :
  with_replies (with_replies w a) b = with_replies w (a ++ b).
Proof. unfold with_replies. cbn. now rewrite app_assoc. Qed.

Lemma handle_message_sent (E : env) (token text : str) (w : world) :
  handle_message E token text w =
  (reply_message_with_http_info E
     {| reply_token := token; messages := [text] |},
   with_replies w [{| reply_token := token; messages := [text] |}]).
Proof. reflexivity. Qed.

(** While the reply call succeeds, the events are answered one by one. *)
Lemma dispatch_events_echo (E : env) (events : list webhook_event) (w : world) :
  (forall r, In r (echo_replies events) ->
             reply_message_with_http_info E r = Returned tt) ->
  dispatch_events E events w =
  (Returned tt, with_replies w (echo_replies events)).
Proof.
  revert w. induction events as [|ev events IH]; intros w Hok.
  - cbn. now rewrite with_replies_nil.
  - cbn [dispatch_events]. unfold bind at 1.
    destruct ev as [token [text|]|]; cbn [echo_replies] in *.
    + rewrite handle_message_sent, (Hok _ (or_introl eq_refl)).
      rewrite IH by (intros r Hr; apply Hok; now right).
      now rewrite with_replies_app.
    + unfold ret at 1. now apply IH.
    + unfold ret at 1. now apply IH.
Qed.

(** The first reply that fails ends the dispatch: the events after it are
    not answered. *)
Lemma dispatch_events_failure (E : env) (before after : list webhook_event)
    (token text : str) (x : exn) (w : world) :
  (forall r, In r (echo_replies before) ->
             reply_message_with_http_info E r = Returned tt) ->
  reply_message_with_http_info E
    {| reply_token := token; messages := [text] |} = Raised x ->
  dispatch_events E
    (before ++ MessageEvent token (TextMessageContent text) :: after) w =
  (Raised x,
   with_replies w
     (echo_replies before ++ [{| reply_token := token; messages := [text] |}])).
Proof.
  revert w. induction before as [|ev before IH]; intros w Hok Hfail.
  - cbn [app dispatch_events echo_replies]. unfold bind at 1.
    now rewrite handle_message_sent, Hfail.
  - cbn [app dispatch_events]. unfold bind at 1.
    destruct ev as [tok [txt|]|]; cbn [echo_replies] in *.
    + rewrite handle_message_sent, (Hok _ (or_introl eq_refl)).
      rewrite IH by (auto; intros r Hr; apply Hok; now right).
      now rewrite with_replies_app.
    + unfold ret at 1. now apply IH.
    + unfold ret at 1. now apply IH.
Qed.

(** [callback] once the header is there and the signature verifies. *)
Lemma callback_verified (E : env) (req : request) (w : world)
    (signature : str) (events : list webhook_event) :
  headers_getitem req "X-Line-Signature" = Returned signature ->
  signature_validate E (data req) signature = true ->
  parse_events E (data req) = Returned events ->
  callback E req w =
  match dispatch_events E events (snd (logger_info (LogRequestBody (data req)) w))
  with
  | (Returned _, w') => (Returned (PlainText "OK"), w')
  | (Raised InvalidSignatureError, w') =>
      (Raised (HTTPException 400), snd (logger_info LogInvalidSignature w'))
  | (Raised x, w') => (Raised x, w')
  end.
Proof.
  intros Hh Hv Hp. rewrite headers_getitem_signature in Hh.
  destruct (dict_get "HTTP_X_LINE_SIGNATURE" (environ req)) as [sig|] eqn:Hd;
    [|discriminate].
  injection Hh as ->. rewrite (callback_with_header E req w signature Hd).
  unfold bind at 1. unfold try_except, handler_handle. rewrite Hv. cbn [negb].
  unfold bind at 1. unfold lift. rewrite Hp.
  destruct (dispatch_events E events _) as [[[]|x] w']; [reflexivity|].
  destruct x; reflexivity.
Qed.

(** X14. On a POST to the webhook whose signature verifies, every text
    message of the payload is answered with its own text on its own reply
    token, in order, other events are not answered, and the answer is
    [OK]; this while the reply call succeeds. *)
Theorem callback_echoes (E : env) (req : request) (w : world)
    (signature : str) (events : list webhook_event) :
  method req = POST ->
  headers_getitem req "X-Line-Signature" = Returned signature ->
  signature_validate E (data req) signature = true ->
  parse_events E (data req) = Returned events ->
  (forall r, In r (echo_replies events) ->
             reply_message_with_http_info E r = Returned tt) ->
  fst (full_dispatch_request E RouteCallback req w) =
    {| status := 200; payload := Some (PlainText "OK") |} /\
  replies (snd (full_dispatch_request E RouteCallback req w)) =
    replies w ++ echo_replies events /\
  app_log (snd (full_dispatch_request E RouteCallback req w)) =
    app_log w ++ [LogRequestBody (data req)].
Proof.
  intros Hm Hh Hv Hp Hok.
  unfold full_dispatch_request. rewrite Hm. cbn [view_allows view].
  rewrite (callback_verified E req w signature events Hh Hv Hp).
  rewrite (dispatch_events_echo E events _ Hok). cbn. auto.
Qed.

Lemma callback_echoes_witness :
  replies
    (snd (full_dispatch_request example_env RouteCallback
            (example_request POST [] []
               [("HTTP_X_LINE_SIGNATURE"%string, lit "good")])
            initial_world)) =
  [{| reply_token := lit "token"; messages := [lit "hello"] |}].
Proof.
  assert (Hok : forall r,
    In r (echo_replies
            [MessageEvent (lit "token") (TextMessageContent (lit "hello"))]) ->
    reply_message_with_http_info example_env r = Returned tt)
    by (intros r _; reflexivity).
  exact (proj1 (proj2 (callback_echoes example_env
                         (example_request POST [] []
                            [("HTTP_X_LINE_SIGNATURE"%string, lit "good")])
                         initial_world (lit "good")
                         [MessageEvent (lit "token")
                            (TextMessageContent (lit "hello"))]
                         eq_refl eq_refl eq_refl eq_refl Hok))).
Defined.

(** X15. When the reply to a text message fails, the webhook answers no
    later event of the payload and the request ends in an error: the
    exception of the reply call is not caught by [callback], whose only
    handler is for the invalid signature. *)
Theorem callback_reply_failure (E : env) (req : request) (w : world)
    (signature : str) (before after : list webhook_event)
    (token text : str) (x : exn) :
  method req = POST ->
  headers_getitem req "X-Line-Signature" = Returned signature ->
  signature_validate E (data req) signature = true ->
  parse_events E (data req) =
    Returned (before ++ MessageEvent token (TextMessageContent text) :: after) ->
  (forall r, In r (echo_replies before) ->
             reply_message_with_http_info E r = Returned tt) ->
  reply_message_with_http_info E
    {| reply_token := token; messages := [text] |} = Raised x ->
  x <> InvalidSignatureError ->
  payload (fst (full_dispatch_request E RouteCallback req w)) = None /\
  status (fst (full_dispatch_request E RouteCallback req w)) =
    match x with HTTPException code => code | _ => 500%Z end /\
  replies (snd (full_dispatch_request E RouteCallback req w)) =
    replies w ++ echo_replies before
    ++ [{| reply_token := token; messages := [text] |}].
Proof.
  intros Hm Hh Hv Hp Hok Hfail Hx.
  unfold full_dispatch_request. rewrite Hm. cbn [view_allows view].
  rewrite (callback_verified E req w signature _ Hh Hv Hp).
  rewrite (dispatch_events_failure E before after token text x _ Hok Hfail).
  destruct x; try contradiction; cbn; auto.
Qed.

Lemma callback_reply_failure_witness :
  status
    (fst (full_dispatch_request example_env_reply_fails RouteCallback
            (example_request POST [] []
               [("HTTP_X_LINE_SIGNATURE"%string, lit "good")])
            initial_world)) = 500%Z.
Proof.
  assert (Hok : forall r : ReplyMessageRequest,
    In r (echo_replies []) ->
    reply_message_with_http_info example_env_reply_fails r = Returned tt)
    by (intros r []).
  assert (Hx : ApiException <> InvalidSignatureError) by discriminate.
  exact (proj1 (proj2 (callback_reply_failure example_env_reply_fails
                         (example_request POST [] []
                            [("HTTP_X_LINE_SIGNATURE"%string, lit "good")])
                         initial_world (lit "good") [] []
                         (lit "token") (lit "hello") ApiException
                         eq_refl eq_refl eq_refl eq_refl Hok eq_refl Hx))).
Defined.

(** ** The moving averages at the edges *)

Lemma rolling_mean_short (window : nat) (values : list float) :
  (0 < window)%nat ->
  (List.length values < window)%nat ->
  rolling_mean window values = repeat nan (List.length values).
Proof.
  intros Hw Hshort.
  apply (nth_ext _ _ nan nan).
  - now rewrite rolling_mean_length, repeat_length.
  - intros i Hi. rewrite rolling_mean_length in Hi.
    rewrite nth_repeat.
    apply rolling_mean_undefined; [exact Hw | exact Hi |].
    apply orb_true_iff. left. apply Nat.ltb_lt. lia.
Qed.

(** X16. A price series of fewer than 20 rows gets a 20-day line without
    a single defined point, and one of fewer than 5 rows gets no defined
    point on the 5-day line either. *)
Theorem short_series_has_no_average (ticker : str) (stock_price : DataFrame) :
  (List.length stock_price < 20)%nat ->
  exists five_day twenty_day : Scatter,
    fig_lines (build_figure ticker stock_price) = [five_day; twenty_day] /\
    sc_y twenty_day = repeat nan (List.length stock_price) /\
    ((List.length stock_price < 5)%nat ->
     sc_y five_day = repeat nan (List.length stock_price)).
Proof.
  intros Hshort. eexists. eexists. split; [reflexivity|]. cbn [sc_y].
  split.
  - rewrite rolling_mean_short; rewrite ?length_map; auto; lia.
  - intros H5. rewrite rolling_mean_short; rewrite ?length_map; auto; lia.
Qed.

Lemma short_series_has_no_average_witness :
  exists five_day twenty_day : Scatter,
    fig_lines (build_figure (lit "2330.TW") example_rows) =
      [five_day; twenty_day] /\
    sc_y twenty_day = [nan; nan; nan; nan; nan].
Proof.
  destruct (short_series_has_no_average (lit "2330.TW") example_rows
              ltac:(cbn; lia))
    as [five_day [twenty_day [Hlines [Htwenty _]]]].
  exists five_day, twenty_day. split; [exact Hlines | exact Htwenty].
Defined.

(** X17. A missing [Close] value, a [NaN] or an infinity, leaves the
    moving average undefined at every row whose window holds it: at row
    [j] itself and at the [window - 1] rows after it. *)
Theorem missing_close_has_no_average (window : nat)
    (values : list float) (i j : nat) :
  (0 < window)%nat ->
  (i < List.length values)%nat ->
  (j <= i < j + window)%nat ->
  is_nan (nth j values nan) = true \/ is_infinity (nth j values nan) = true ->
  nth i (rolling_mean window values) nan = nan.
Proof.
  intros Hw Hi Hj Hmissing.
  apply rolling_mean_undefined; [exact Hw | exact Hi |].
  destruct (Nat.ltb_spec (i + 1) window) as [Hshort|Hfull]; [reflexivity|].
  cbn [orb]. apply negb_true_iff.
  destruct (forallb present (slice (i + 1 - window) (i + 1) values)) eqn:Hall;
    [|reflexivity].
  rewrite forallb_forall in Hall.
  assert (Hin : In (nth j values nan)
                  (slice (i + 1 - window) (i + 1) values)).
  { replace j with ((i + 1 - window) + (j - (i + 1 - window)))%nat by lia.
    rewrite <- (slice_nth (i + 1 - window) (i + 1) values _ nan) by lia.
    apply nth_In. rewrite slice_length by lia. lia. }
  apply Hall in Hin. unfold present in Hin.
  apply andb_true_iff in Hin as [Hnum Hfin].
  destruct Hmissing as [H|H].
  - unfold is_nan in H. rewrite Hnum in H. discriminate.
  - rewrite H in Hfin. discriminate.
Qed.

Lemma missing_close_has_no_average_witness :
  nth 5 (rolling_mean 5 [1; nan; 3; 4; 5; 6; 7]%float) nan = nan /\
  nth 5 (rolling_mean 5 [1; infinity; 3; 4; 5; 6; 7]%float) nan = nan.
Proof.
  split.
  - apply (missing_close_has_no_average 5 _ 5 1);
      [lia | cbn; lia | lia | left; reflexivity].
  - apply (missing_close_has_no_average 5 _ 5 1);
      [lia | cbn; lia | lia | right; reflexivity].
Defined.

(** *** A window of equal values *)

Lemma repeats_constant (l : list float) (c : float) :
  (c =? c)%float = true ->
  (forall v, In v l -> v = c) ->
  repeats l = true.
Proof.
  intros Hc. induction l as [|a l IH]; intros Hl; [reflexivity|].
  cbn [repeats]. destruct l as [|b l]; [reflexivity|].
  replace (b =? a)%float with true.
  - cbn [andb]. apply IH. intros v Hv. apply Hl. now right.
  - rewrite (Hl a) by (now left). rewrite (Hl b) by (right; now left).
    now rewrite Hc.
Qed.

(** X18. Where the [Close] values of a full window are all the same
    number [c], the moving average is [c] itself, free of the rounding of
    the running sum: for 20 rows or more of a constant [c], the 20-day
    average at row 19 is [c]. *)
Theorem constant_window_average (window : nat) (values : list float)
    (i : nat) (c : float) :
  (2 <= window)%nat ->
  (i < List.length values)%nat ->
  (window <= i + 1)%nat ->
  present c = true ->
  (forall j, (i + 1 - window <= j <= i)%nat -> nth j values nan = c) ->
  nth i (rolling_mean window values) nan = c.
Proof.
  intros Hw Hi Hfull Hc Hwin.
  assert (Hel : forall v,
            In v (slice (i + 1 - window) (i + 1) values) -> v = c).
  { intros v Hv. apply (In_nth _ _ nan) in Hv as [k [Hk <-]].
    rewrite slice_length in Hk by lia.
    rewrite slice_nth by lia. apply Hwin. lia. }
  assert (Hall : forallb present (slice (i + 1 - window) (i + 1) values)
                 = true).
  { apply forallb_forall. intros v Hv. now rewrite (Hel v Hv). }
  rewrite (rolling_mean_full window values i Hw Hi Hfull Hall).
  unfold running_average.
  rewrite (repeats_constant _ c); [apply Hwin; lia | | exact Hel].
  unfold present in Hc. now apply andb_true_iff in Hc as [Hc _].
Qed.

Lemma constant_window_average_witness :
  nth 19 (rolling_mean 20 (repeat 0x1.999999999999ap-4%float 21)) nan =
    0x1.999999999999ap-4%float /\
  nth 6 (rolling_mean 5 [3; 1e16; 2; 2; 2; 2; 2]%float) nan = 2%float.
Proof.
  split.
  - apply (constant_window_average 20 _ 19);
      [lia | cbn; lia | lia | reflexivity |].
    intros j Hj. apply nth_repeat_lt. lia.
  - apply (constant_window_average 5 _ 6);
      [lia | cbn; lia | lia | reflexivity |].
    intros j Hj.
    assert (Hcases : (j = 2 \/ j = 3 \/ j = 4 \/ j = 5 \/ j = 6)%nat) by lia.
    destruct Hcases as [-> | [-> | [-> | [-> | ->]]]]; reflexivity.
Defined.

(** ** Dates written by [isoformat] and read by [strptime] *)

Lemma all_from_true (check : Z -> bool) (count : nat) :
  forall start : Z,
    all_from check start count = true ->
    forall n : Z, (start <= n < start + Z.of_nat count)%Z -> check n = true.
Proof.
  induction count as [|count IH]; intros start H n Hn; [lia|].
  cbn [all_from] in H. apply andb_true_iff in H as [Hstart Hrest].
  destruct (Z.eq_dec n start) as [->|Hne]; [exact Hstart|].
  apply (IH (start + 1)%Z Hrest). lia.
Qed.

Lemma zero_padded_year (y : Z) :
  (1 <= y <= 9999)%Z -> is_padded 4 y = true.
Proof.
  intros Hy.
  assert (Hall : all_from (is_padded 4) 1 (Z.to_nat 9999) = true)
    by (vm_compute; reflexivity).
  apply (all_from_true (is_padded 4) (Z.to_nat 9999) 1 Hall). lia.
Qed.

Lemma is_padded_year_text (U : unicode_db) (y : Z) :
  unicode_db_ok U -> is_padded 4 y = true -> year_text U (zero_padded 4 y) y.
Proof.
  intros Hok H. unfold is_padded in H. cbv zeta in H.
  apply andb_true_iff in H as [H Hval]. apply andb_true_iff in H as [Hlen Hdig].
  apply Nat.eqb_eq in Hlen. apply Z.eqb_eq in Hval.
  destruct (zero_padded 4 y) as [|a [|b [|c [|d [|x l]]]]]; try discriminate.
  cbn [forallb] in Hdig. rewrite !andb_true_iff in Hdig.
  destruct Hdig as [Ha [Hb [Hc [Hd _]]]].
  apply in_range_bounds in Ha, Hb, Hc, Hd.
  change (ord "0") with 48%N in *. change (ord "9") with 57%N in *.
  replace y with (1000 * digit a + 100 * digit b + 10 * digit c + digit d)%Z
    by (rewrite <- Hval; unfold digits_number; cbn [fold_left]; lia).
  now apply year_text_ascii.
Qed.

Ltac eval_padded :=
  match goal with
  | |- context [zero_padded ?w ?k] =>
      let v := eval vm_compute in (zero_padded w k) in
      change (zero_padded w k) with v
  end.

Lemma zero_padded_month (m : Z) :
  (1 <= m <= 12)%Z -> month_text (zero_padded 2 m) m.
Proof.
  intros Hm. each_month Hm; eval_padded;
    first [ refine (month_0x _ _); reflexivity
          | refine (month_1x _ _); reflexivity ].
Qed.

Lemma day_cases (d : Z) :
  (1 <= d <= 31)%Z ->
  (d = 1 \/ d = 2 \/ d = 3 \/ d = 4 \/ d = 5 \/ d = 6 \/ d = 7 \/ d = 8 \/
   d = 9 \/ d = 10 \/ d = 11 \/ d = 12 \/ d = 13 \/ d = 14 \/ d = 15 \/
   d = 16 \/ d = 17 \/ d = 18 \/ d = 19 \/ d = 20 \/ d = 21 \/ d = 22 \/
   d = 23 \/ d = 24 \/ d = 25 \/ d = 26 \/ d = 27 \/ d = 28 \/ d = 29 \/
   d = 30 \/ d = 31)%Z.
Proof. lia. Qed.

Lemma zero_padded_day (U : unicode_db) (d : Z) :
  unicode_db_ok U -> (1 <= d <= 31)%Z -> day_text U (zero_padded 2 d) d.
Proof.
  intros Hok Hd. apply day_cases in Hd.
  repeat (destruct Hd as [Hd|Hd]; [subst|]); [..|subst]; eval_padded;
    first [ refine (day_0x U _ _); reflexivity
          | refine (day_3x U _ _); reflexivity
          | match goal with
            | |- day_text _ [?c1; ?c2] _ =>
                refine (day_1x_2x U c1 c2 (digit c2) _ _);
                [ reflexivity
                | apply (literal_digit U Hok); vm_compute; split; discriminate ]
            end ].
Qed.

Lemma days_in_month_le_31 (y m : Z) :
  (1 <= m <= 12)%Z -> (_days_in_month y m <= 31)%Z.
Proof.
  intros Hm. unfold _days_in_month.
  each_month Hm; destruct (_is_leap y); eval_month_tables; lia.
Qed.

(** The text [isoformat] writes for a real date reads as that date. *)
Lemma isoformat_ymd_text (U : unicode_db) (y m d : Z) :
  unicode_db_ok U ->
  real_date y m d ->
  ymd_text U (date_isoformat {| dyear := y; dmonth := m; dday := d |}) y m d.
Proof.
  intros Hok [Hy [Hm Hd]].
  pose proof (days_in_month_le_31 y m Hm).
  exists (zero_padded 4 y), (zero_padded 2 m), (zero_padded 2 d).
  split; [reflexivity|]. split; [|split].
  - apply (is_padded_year_text U y Hok). now apply zero_padded_year.
  - now apply zero_padded_month.
  - apply (zero_padded_day U d Hok). lia.
Qed.

(** X19. Writing a real date with [str] and reading the text back with
    [strptime] under [%Y-%m-%d] gives the midnight of the same date; so
    the text passes the date validator. *)
Theorem isoformat_strptime_round_trip (U : unicode_db) (d : date) :
  unicode_db_ok U ->
  real_date (dyear d) (dmonth d) (dday d) ->
  strptime U (date_isoformat d) "%Y-%m-%d" =
    Returned {| year := dyear d; month := dmonth d; day := dday d;
                hour := 0; minute := 0; second := 0; microsecond := 0 |} /\
  is_valid_date_format U (date_isoformat d) = Returned true.
Proof.
  intros Hok Hreal. destruct d as [y m dd]. cbn [dyear dmonth dday] in *.
  pose proof (isoformat_ymd_text U y m dd Hok Hreal) as Hymd.
  split.
  - rewrite (strptime_ymd U Hok _ y m dd Hymd).
    now apply datetime_new_real_date.
  - apply (is_valid_date_format_true U Hok). now exists y, m, dd.
Qed.

Lemma isoformat_strptime_round_trip_witness :
  strptime ascii_db
    (date_isoformat {| dyear := 2024; dmonth := 2; dday := 29 |}) "%Y-%m-%d" =
  Returned {| year := 2024; month := 2; day := 29;
              hour := 0; minute := 0; second := 0; microsecond := 0 |}.
Proof.
  refine (proj1 (isoformat_strptime_round_trip ascii_db
                   {| dyear := 2024; dmonth := 2; dday := 29 |}
                   ascii_db_ok _)).
  vm_compute. repeat split; discriminate.
Defined.

(** ** The default range against the checks of the form *)

Lemma real_date_day_number_bounds (y m d : Z) :
  real_date y m d -> (1 <= _ymd2ord y m d <= _MAXORDINAL)%Z.
Proof.
  intros Hreal. pose proof Hreal as [Hy [Hm Hd]]. split.
  - unfold _ymd2ord.
    pose proof (days_before_year_mono 1 y ltac:(lia)) as Hmono.
    change (_days_before_year 1) with 0%Z in Hmono.
    pose proof (day_of_year_bounds y m d Hm Hd). lia.
  - pose proof (days_in_month_le_31 y m Hm).
    assert (Hlast : real_date 9999 12 31)
      by (vm_compute; repeat split; discriminate).
    change _MAXORDINAL with (_ymd2ord 9999 12 31).
    destruct (Z.eq_dec y 9999) as [->|Hny];
      [destruct (Z.eq_dec m 12) as [->|Hnm];
       [destruct (Z.eq_dec d 31) as [->|Hnd]|]|].
    + lia.
    + apply Z.lt_le_incl. apply (ymd2ord_lt _ _ _ _ _ _ Hreal Hlast). lia.
    + apply Z.lt_le_incl. apply (ymd2ord_lt _ _ _ _ _ _ Hreal Hlast). lia.
    + apply Z.lt_le_incl. apply (ymd2ord_lt _ _ _ _ _ _ Hreal Hlast). lia.
Qed.

Lemma fromordinal_real_date (n : Z) :
  (1 <= n <= _MAXORDINAL)%Z ->
  exists d : date,
    fromordinal n = Returned d /\ toordinal d = n /\
    real_date (dyear d) (dmonth d) (dday d).
Proof.
  intros Hn. destruct (ord2ymd_ymd2ord n Hn) as [y [m [d [Heq [Hreal Hord]]]]].
  exists {| dyear := y; dmonth := m; dday := d |}.
  unfold fromordinal, date_new. rewrite Heq.
  pose proof Hreal as Hchecked. apply real_date_checked in Hchecked.
  rewrite Hchecked. cbn [obind]. repeat split; try exact Hord; apply Hreal.
Qed.

(** X20. The default range of the price route would pass the checks
    [home] applies to a submitted range: when the clock shows a real date
    later than 31 March of year 1 and the day does not change between the
    two readings, both texts of the range pass the date validator and the
    begin date is 90 days before the end date, so the range check
    passes. *)
Theorem default_range_passes_form_checks (E : env) (req : request)
    (w : world) (today : date) :
  unicode_db_ok (unicode E) ->
  dict_get "begin_date" (args req) = None \/
  dict_get "end_date" (args req) = None ->
  datetime_date (clock E (clock_reads w)) = today ->
  datetime_date (clock E (S (clock_reads w))) = today ->
  real_date (dyear today) (dmonth today) (dday today) ->
  (90 < toordinal today)%Z ->
  exists (b e : str) (tb te : datetime),
    fst (search_price_range E req w) = Returned (b, e) /\
    is_valid_date_format (unicode E) b = Returned true /\
    is_valid_date_format (unicode E) e = Returned true /\
    strptime (unicode E) b "%Y-%m-%d" = Returned tb /\
    strptime (unicode E) e "%Y-%m-%d" = Returned te /\
    datetime_ge tb te = false /\
    (day_number te - day_number tb = 90)%Z.
Proof.
  intros Hok Hmissing Ht1 Ht2 Hreal Hlate.
  pose proof (real_date_day_number_bounds _ _ _ Hreal) as Hbounds.
  fold (toordinal today) in Hbounds.
  destruct (fromordinal_real_date (toordinal today + - 90) ltac:(lia))
    as [d0 [Hfrom [Hord Hreal0]]].
  assert (Hsub : date_sub today 90 = Returned d0).
  { unfold date_sub, date_add. change (Z.opp 90) with (-90)%Z.
    replace ((0 <? toordinal today + - 90)%Z) with true
      by (symmetry; apply Z.ltb_lt; lia).
    replace ((toordinal today + - 90 <=? _MAXORDINAL)%Z) with true
      by (symmetry; apply Z.leb_le; lia).
    exact Hfrom. }
  assert (Hy0 : ymd_text (unicode E) (date_isoformat d0)
                  (dyear d0) (dmonth d0) (dday d0))
    by (destruct d0; now apply isoformat_ymd_text).
  assert (Hyt : ymd_text (unicode E) (date_isoformat today)
                  (dyear today) (dmonth today) (dday today))
    by (destruct today; now apply isoformat_ymd_text).
  exists (date_isoformat d0), (date_isoformat today).
  eexists. eexists. split.
  { rewrite (search_price_range_default E req w Hmissing).
    unfold bind, datetime_now, lift, ret. cbv beta iota. rewrite Ht1, Hsub.
    cbv beta iota. cbn [clock_reads fst]. rewrite Ht2. reflexivity. }
  split; [apply (is_valid_date_format_true _ Hok); eauto|].
  split; [apply (is_valid_date_format_true _ Hok); eauto|].
  split; [rewrite (strptime_ymd _ Hok _ _ _ _ Hy0);
          now apply datetime_new_real_date|].
  split; [rewrite (strptime_ymd _ Hok _ _ _ _ Hyt);
          now apply datetime_new_real_date|].
  unfold day_number, datetime_date, toordinal in *.
  cbn [year month day dyear dmonth dday] in *.
  split; [|lia].
  apply not_true_iff_false. intros Hge.
  apply (datetime_ge_day_number _ _ _ _ _ _ Hreal0 Hreal) in Hge. lia.
Qed.

Lemma default_range_passes_form_checks_witness :
  exists (b e : str) (tb te : datetime),
    fst (search_price_range example_env (example_request GET [] [] [])
           initial_world) = Returned (b, e) /\
    is_valid_date_format ascii_db b = Returned true /\
    is_valid_date_format ascii_db e = Returned true /\
    strptime ascii_db b "%Y-%m-%d" = Returned tb /\
    strptime ascii_db e "%Y-%m-%d" = Returned te /\
    datetime_ge tb te = false /\
    (day_number te - day_number tb = 90)%Z.
Proof.
  refine (default_range_passes_form_checks example_env
            (example_request GET [] [] []) initial_world
            {| dyear := 2026; dmonth := 11; dday := 4 |}
            ascii_db_ok (or_introl eq_refl) eq_refl eq_refl _ _).
  - vm_compute. repeat split; discriminate.
  - vm_compute. reflexivity.
Defined.
